(** * flow-platform-node-core: node contract, registry and compatibility validator

    A shallow embedding of the TypeScript sources

      - [src/validators/compatibility-validator.ts] ([CompatibilityValidator])
      - [src/base/node-registry.ts] ([NodeRegistry]) and the base class
        [BaseNode] it imports from [./base-node]
      - [src/nodes/transformation/data-filter.node.ts] ([DataFilterNode])
      - [src/nodes/transformation/field-mapper.node.ts] ([FieldMapperNode])
      - the class [PostgreSQLQueryNode]
      - [src/nodes/database/mongodb-operations.node.ts]
        ([MongoDBOperationsNode]: [execute] with the body of its [try] block,
        which only talks to the driver, as a parameter; [validate],
        [connectWithRetry] and [processObjectIds])

    together with the fragment of the JavaScript semantics these files rely
    on: property reads through the prototype chain of plain objects, strict
    equality, truthiness, the relational operators and string conversion. *)

From Stdlib Require Import String Ascii List ZArith Bool Lia DecimalString.
Import ListNotations.
Local Open Scope string_scope.
Set Warnings "-register-all".

(* ===================================================================== *)
(** * The JavaScript fragment *)
(* ===================================================================== *)

Module JS.

(** ** Values

    [json] is what a caller can hand to a node: the JSON values plus
    [undefined].  Numbers are the safe integers (no fractions, no NaN, no
    infinities among the data; NaN only arises as the result of a failed
    numeric conversion and is represented there by [None]).  Strings are
    sequences of 8-bit code units.  An object is its list of own properties
    in insertion order; each key occurs once. *)

Inductive json : Type :=
| DUndefined
| DNull
| DBool (b : bool)
| DNum (n : Z)
| DStr (s : string)
| DArr (items : list json)
| DObj (props : list (string * json)).

(** The intrinsic objects that a property read on a plain object or on a
    built-in function can reach (ECMA-262, clauses 20.1 and 20.2). *)

Inductive builtin : Type :=
| ObjectPrototype                 (* %Object.prototype% *)
| FunctionPrototype               (* %Function.prototype% *)
| ObjectCtor                      (* %Object% *)
| FunctionCtor                    (* %Function% *)
| ObjectProtoFn (name : string)   (* Object.prototype.<name> *)
| FunctionProtoFn (name : string) (* Function.prototype.<name> *)
| ObjectStaticFn (name : string). (* Object.<name> *)

Inductive value : Type :=
| Data (d : json)
| Intrinsic (b : builtin).

Coercion Data : json >-> value.

Definition undefined : value := Data DUndefined.

(** ** Exceptions *)

Inductive exn : Type :=
| TypeError (message : string)
| SyntaxError (message : string)
| Error (message : string)
| Thrown (payload : value).       (* [throw v] where [v] is not an Error *)

(** [e instanceof Error] and [e.message]. *)

Definition instanceof_Error (e : exn) : bool :=
  match e with
  | TypeError _ | SyntaxError _ | Error _ => true
  | Thrown _ => false
  end.

Definition message_of (e : exn) : string :=
  match e with
  | TypeError m | SyntaxError m | Error m => m
  | Thrown _ => ""
  end.

(** A computation either completes normally or abruptly.  For an [async]
    function, [Ret] is a promise that resolves and [Throw] one that
    rejects. *)

Inductive exc (A : Type) : Type :=
| Ret (a : A)
| Throw (e : exn).

Arguments Ret {A} a.
Arguments Throw {A} e.

Definition bind {A B : Type} (c : exc A) (k : A -> exc B) : exc B :=
  match c with
  | Ret a => k a
  | Throw e => Throw e
  end.

Definition try_catch {A : Type} (body : exc A) (handler : exn -> exc A) : exc A :=
  match body with
  | Ret a => Ret a
  | Throw e => handler e
  end.

Definition returns {A : Type} (c : exc A) : Prop := exists a, c = Ret a.

End JS.

Import JS.

Declare Scope exc_scope.
Delimit Scope exc_scope with exc.
Notation "x <- c ;; k" := (bind c (fun x => k))
  (at level 61, c at next level, right associativity) : exc_scope.
Notation "c ;;; k" := (bind c (fun _ => k))
  (at level 61, right associativity) : exc_scope.
Local Open Scope exc_scope.

Module Prim.

(** ** Own properties *)

Fixpoint assoc {A : Type} (k : string) (l : list (string * A)) : option A :=
  match l with
  | [] => None
  | (k', v) :: rest => if String.eqb k k' then Some v else assoc k rest
  end.

Definition has_own {A : Type} (k : string) (l : list (string * A)) : bool :=
  match assoc k l with Some _ => true | None => false end.

(** ** Numbers and strings *)

Definition string_of_Z (z : Z) : string := NilZero.string_of_int (Z.to_int z).

Definition is_digit (c : ascii) : bool :=
  let n := nat_of_ascii c in (48 <=? n)%nat && (n <=? 57)%nat.

Definition digit_value (c : ascii) : Z := Z.of_nat (nat_of_ascii c - 48).

(** The white space and line terminators below U+0100 that
    [StringToNumber] strips. *)

Definition is_space (c : ascii) : bool :=
  let n := nat_of_ascii c in
  (n =? 9)%nat || (n =? 10)%nat || (n =? 11)%nat || (n =? 12)%nat ||
  (n =? 13)%nat || (n =? 32)%nat || (n =? 160)%nat.

Fixpoint drop_leading_space (s : string) : string :=
  match s with
  | String c rest => if is_space c then drop_leading_space rest else s
  | EmptyString => EmptyString
  end.

Fixpoint drop_trailing_space (s : string) : string :=
  match s with
  | EmptyString => EmptyString
  | String c rest =>
      match drop_trailing_space rest with
      | EmptyString => if is_space c then EmptyString else String c EmptyString
      | r => String c r
      end
  end.

Definition trim (s : string) : string := drop_trailing_space (drop_leading_space s).

Fixpoint digits_value (acc : Z) (s : string) : option Z :=
  match s with
  | EmptyString => Some acc
  | String c rest =>
      if is_digit c then digits_value (10 * acc + digit_value c)%Z rest else None
  end.

Definition unsigned_decimal (s : string) : option Z :=
  match s with
  | EmptyString => None
  | _ => digits_value 0%Z s
  end.

(** [StringToNumber] on the integer literals: white space is trimmed, the
    empty string is [0], an optionally signed run of decimal digits is its
    value and everything else is NaN ([None]).  Fractions, exponents, radix
    prefixes and [Infinity] lie outside the integer fragment. *)

Definition string_to_number (s : string) : option Z :=
  match trim s with
  | EmptyString => Some 0%Z
  | String "-" rest => option_map Z.opp (unsigned_decimal rest)
  | String "+" rest => unsigned_decimal rest
  | t => unsigned_decimal t
  end.

(** [canonical_index k] is [Some i] when [k] is the canonical decimal
    spelling of the array index [i]. *)

Definition canonical_index (k : string) : option nat :=
  match unsigned_decimal k with
  | Some z => if String.eqb (string_of_Z z) k then Some (Z.to_nat z) else None
  | None => None
  end.

(** [hay.includes(needle)] *)

Definition includes (hay needle : string) : bool :=
  match index 0 needle hay with Some _ => true | None => false end.

Fixpoint ends_with (s suffix : string) : bool :=
  String.eqb s suffix ||
  match s with
  | EmptyString => false
  | String _ rest => ends_with rest suffix
  end.

(** [s.replace(/Node$/, "")] *)

Definition strip_Node_suffix (s : string) : string :=
  if ends_with s "Node" then substring 0 (String.length s - 4) s else s.

End Prim.

Import Prim.

(* ===================================================================== *)
(** * Property reads, conversions and operators *)
(* ===================================================================== *)

Module Sem.

(** ** The intrinsics *)

(** String-keyed methods of %Object.prototype% with their [length]. *)

Definition object_prototype_methods : list (string * Z) :=
  [ ("__defineGetter__", 2); ("__defineSetter__", 2);
    ("__lookupGetter__", 1); ("__lookupSetter__", 1);
    ("hasOwnProperty", 1); ("isPrototypeOf", 1);
    ("propertyIsEnumerable", 1); ("toLocaleString", 0);
    ("toString", 0); ("valueOf", 0) ]%Z.

Definition function_prototype_methods : list (string * Z) :=
  [ ("apply", 2); ("bind", 1); ("call", 1); ("toString", 0) ]%Z.

(** Static methods of %Object% (ECMA-262, 14th edition). *)

Definition object_static_methods : list (string * Z) :=
  [ ("assign", 2); ("create", 2); ("defineProperties", 2);
    ("defineProperty", 3); ("entries", 1); ("freeze", 1);
    ("fromEntries", 1); ("getOwnPropertyDescriptor", 2);
    ("getOwnPropertyDescriptors", 1); ("getOwnPropertyNames", 1);
    ("getOwnPropertySymbols", 1); ("getPrototypeOf", 1); ("hasOwn", 2);
    ("is", 2); ("isExtensible", 1); ("isFrozen", 1); ("isSealed", 1);
    ("keys", 1); ("preventExtensions", 1); ("seal", 1);
    ("setPrototypeOf", 2); ("values", 1) ]%Z.

Definition is_function (b : builtin) : bool :=
  match b with
  | ObjectPrototype => false
  | _ => true
  end.

Definition fn_name (b : builtin) : string :=
  match b with
  | ObjectPrototype | FunctionPrototype => ""
  | ObjectCtor => "Object"
  | FunctionCtor => "Function"
  | ObjectProtoFn n | FunctionProtoFn n | ObjectStaticFn n => n
  end.

Definition table_length (n : string) (t : list (string * Z)) : Z :=
  match assoc n t with Some l => l | None => 0%Z end.

Definition fn_length (b : builtin) : Z :=
  match b with
  | ObjectPrototype | FunctionPrototype => 0
  | ObjectCtor | FunctionCtor => 1
  | ObjectProtoFn n => table_length n object_prototype_methods
  | FunctionProtoFn n => table_length n function_prototype_methods
  | ObjectStaticFn n => table_length n object_static_methods
  end%Z.

(** [Get] that has arrived at %Object.prototype%.  [__proto__] is an
    accessor there; [proto] is the prototype of the receiver, which is what
    its getter returns. *)

Definition object_prototype_get (proto : value) (k : string) : value :=
  if String.eqb k "constructor" then Intrinsic ObjectCtor
  else if String.eqb k "__proto__" then proto
  else if has_own k object_prototype_methods then Intrinsic (ObjectProtoFn k)
  else undefined.

(** The keys that every plain object inherits from %Object.prototype%. *)

Definition inherited_name (k : string) : bool :=
  String.eqb k "constructor" || String.eqb k "__proto__" ||
  has_own k object_prototype_methods.

Definition restricted_message : string :=
  "'caller', 'callee', and 'arguments' properties may not be accessed on strict mode functions or the arguments objects for calls to them".

(** [Get] that has arrived at %Function.prototype%: its methods, then the
    two poisoned accessors [caller] and [arguments] (%ThrowTypeError%),
    then %Object.prototype%. *)

Definition function_prototype_get (proto : value) (k : string) : exc value :=
  if String.eqb k "constructor" then Ret (Intrinsic FunctionCtor)
  else if has_own k function_prototype_methods then Ret (Intrinsic (FunctionProtoFn k))
  else if String.eqb k "caller" || String.eqb k "arguments"
       then Throw (TypeError restricted_message)
  else Ret (object_prototype_get proto k).

(** [Get] on an intrinsic object. *)

Definition builtin_get (b : builtin) (k : string) : exc value :=
  match b with
  | ObjectPrototype => Ret (object_prototype_get (Data DNull) k)
  | FunctionPrototype =>
      if String.eqb k "name" then Ret (Data (DStr ""))
      else if String.eqb k "length" then Ret (Data (DNum 0))
      else function_prototype_get (Intrinsic ObjectPrototype) k
  | _ =>
      if String.eqb k "name" then Ret (Data (DStr (fn_name b)))
      else if String.eqb k "length" then Ret (Data (DNum (fn_length b)))
      else
        match b with
        | ObjectCtor =>
            if String.eqb k "prototype" then Ret (Intrinsic ObjectPrototype)
            else if has_own k object_static_methods
                 then Ret (Intrinsic (ObjectStaticFn k))
            else function_prototype_get (Intrinsic FunctionPrototype) k
        | FunctionCtor =>
            if String.eqb k "prototype" then Ret (Intrinsic FunctionPrototype)
            else function_prototype_get (Intrinsic FunctionPrototype) k
        | _ => function_prototype_get (Intrinsic FunctionPrototype) k
        end
  end.

(** ** Property reads: [base[k]]

    A read on [undefined] or [null] raises a TypeError.  A plain object
    answers with its own property and otherwise with what it inherits from
    %Object.prototype%.  Arrays and strings answer [length] and their
    indices; the library methods that arrays, strings, numbers and booleans
    inherit from their own prototypes are not part of the fragment and read
    as [undefined]. *)

Definition read_null_message (base k : string) : string :=
  "Cannot read properties of " ++ base ++ " (reading '" ++ k ++ "')".

Definition get (base : value) (k : string) : exc value :=
  match base with
  | Data DUndefined => Throw (TypeError (read_null_message "undefined" k))
  | Data DNull => Throw (TypeError (read_null_message "null" k))
  | Data (DObj props) =>
      match assoc k props with
      | Some v => Ret (Data v)
      | None => Ret (object_prototype_get (Intrinsic ObjectPrototype) k)
      end
  | Data (DArr items) =>
      if String.eqb k "length" then Ret (Data (DNum (Z.of_nat (List.length items))))
      else match canonical_index k with
           | Some i => Ret (Data (nth i items DUndefined))
           | None => Ret undefined
           end
  | Data (DStr s) =>
      if String.eqb k "length" then Ret (Data (DNum (Z.of_nat (String.length s))))
      else match canonical_index k with
           | Some i =>
               match String.get i s with
               | Some c => Ret (Data (DStr (String c EmptyString)))
               | None => Ret undefined
               end
           | None => Ret undefined
           end
  | Data (DBool _) | Data (DNum _) => Ret undefined
  | Intrinsic b => builtin_get b k
  end.

(** [base?.[k]] *)

Definition get_optional (base : value) (k : string) : exc value :=
  match base with
  | Data DUndefined | Data DNull => Ret undefined
  | _ => get base k
  end.

(** ** [ToBoolean], [typeof], [Array.isArray], [===] *)

Definition truthy (v : value) : bool :=
  match v with
  | Data DUndefined | Data DNull => false
  | Data (DBool b) => b
  | Data (DNum n) => negb (Z.eqb n 0)
  | Data (DStr s) => negb (String.eqb s "")
  | Data (DArr _) | Data (DObj _) => true
  | Intrinsic _ => true
  end.

(** [a || b] where evaluating [b] has no effects. *)

Definition or_else (a b : value) : value := if truthy a then a else b.

Definition typeof (v : value) : string :=
  match v with
  | Data DUndefined => "undefined"
  | Data DNull => "object"
  | Data (DBool _) => "boolean"
  | Data (DNum _) => "number"
  | Data (DStr _) => "string"
  | Data (DArr _) | Data (DObj _) => "object"
  | Intrinsic b => if is_function b then "function" else "object"
  end.

Definition isArray (v : value) : bool :=
  match v with
  | Data (DArr _) => true
  | _ => false
  end.

Definition builtin_eqb (a b : builtin) : bool :=
  match a, b with
  | ObjectPrototype, ObjectPrototype
  | FunctionPrototype, FunctionPrototype
  | ObjectCtor, ObjectCtor
  | FunctionCtor, FunctionCtor => true
  | ObjectProtoFn n, ObjectProtoFn m
  | FunctionProtoFn n, FunctionProtoFn m
  | ObjectStaticFn n, ObjectStaticFn m => String.eqb n m
  | _, _ => false
  end.

(** Strict equality.  Primitives compare by value.  Objects compare by
    identity: the data handed to a node is a tree, so two object operands
    taken from it are never the same reference, while an intrinsic is equal
    to itself. *)

Definition strict_eq (a b : value) : bool :=
  match a, b with
  | Data DUndefined, Data DUndefined => true
  | Data DNull, Data DNull => true
  | Data (DBool x), Data (DBool y) => Bool.eqb x y
  | Data (DNum x), Data (DNum y) => Z.eqb x y
  | Data (DStr x), Data (DStr y) => String.eqb x y
  | Intrinsic x, Intrinsic y => builtin_eqb x y
  | _, _ => false
  end.

(** ** [ToPrimitive], [ToString], [ToNumber]

    [OrdinaryToPrimitive] looks up [toString] and [valueOf] on the object
    and calls those that are callable.  An own [toString] of a data object
    is a data value, hence not callable, and the inherited [valueOf] returns
    the object itself: such an object has no primitive value and the
    conversion raises a TypeError.  Without an own [toString] the inherited
    one answers; an own [valueOf] is never callable and never matters.  An
    array joins the strings of its elements with commas, [undefined] and
    [null] elements contributing the empty string. *)

Definition no_primitive_message : string := "Cannot convert object to primitive value".

Fixpoint json_to_string (d : json) : exc string :=
  match d with
  | DUndefined => Ret "undefined"
  | DNull => Ret "null"
  | DBool true => Ret "true"
  | DBool false => Ret "false"
  | DNum n => Ret (string_of_Z n)
  | DStr s => Ret s
  | DArr items =>
      (fix join (l : list json) : exc string :=
         match l with
         | [] => Ret ""
         | x :: rest =>
             s <- match x with
                  | DUndefined | DNull => Ret ""
                  | _ => json_to_string x
                  end ;;
             match rest with
             | [] => Ret s
             | _ => r <- join rest ;; Ret (s ++ "," ++ r)
             end
         end) items
  | DObj props =>
      if has_own "toString" props then Throw (TypeError no_primitive_message)
      else Ret "[object Object]"
  end.

(** [Function.prototype.toString] of a built-in function. *)

Definition native_source (name : string) : string :=
  "function " ++ name ++ "() { [native code] }".

(** [String(v)] *)

Definition to_string (v : value) : exc string :=
  match v with
  | Data d => json_to_string d
  | Intrinsic ObjectPrototype => Ret "[object Object]"
  | Intrinsic b => Ret (native_source (fn_name b))
  end.

(** [ToPrimitive]: primitives are returned as they are, objects become the
    string computed above (with either hint, see the note above). *)

Definition to_primitive (v : value) : exc json :=
  match v with
  | Data (DArr _) | Data (DObj _) | Intrinsic _ => s <- to_string v ;; Ret (DStr s)
  | Data d => Ret d
  end.

(** [ToNumber] of a primitive; [None] is NaN. *)

Definition to_number (p : json) : option Z :=
  match p with
  | DUndefined => None
  | DNull => Some 0%Z
  | DBool true => Some 1%Z
  | DBool false => Some 0%Z
  | DNum n => Some n
  | DStr s => string_to_number s
  | DArr _ | DObj _ => None
  end.

(** [IsLessThan] on primitives; [None] is its [undefined] answer. *)

Definition is_less_than (px py : json) : option bool :=
  match px, py with
  | DStr a, DStr b => Some (String.ltb a b)
  | _, _ =>
      match to_number px, to_number py with
      | Some a, Some b => Some (Z.ltb a b)
      | _, _ => None
      end
  end.

Definition bool_of_comparison (r : option bool) : bool :=
  match r with Some b => b | None => false end.

(** [a < b] and [a > b]: the left operand is converted first in both. *)

Definition js_lt (a b : value) : exc bool :=
  pa <- to_primitive a ;; pb <- to_primitive b ;;
  Ret (bool_of_comparison (is_less_than pa pb)).

Definition js_gt (a b : value) : exc bool :=
  pa <- to_primitive a ;; pb <- to_primitive b ;;
  Ret (bool_of_comparison (is_less_than pb pa)).

(** [base[key]] with a computed key: the base must be object-coercible,
    then the key is converted with [ToPropertyKey], then the read happens. *)

Definition nullish_read_message (base : string) (key : value) : string :=
  match key with
  | Data (DStr k) => read_null_message base k
  | _ => "Cannot read properties of " ++ base
  end.

Definition get_computed (base key : value) : exc value :=
  match base with
  | Data DUndefined => Throw (TypeError (nullish_read_message "undefined" key))
  | Data DNull => Throw (TypeError (nullish_read_message "null" key))
  | _ => k <- to_string key ;; get base k
  end.

End Sem.

Import Sem.

(* ===================================================================== *)
(** * src/validators/compatibility-validator.ts *)
(* ===================================================================== *)

Module CompatibilityValidator.

(** The object literal [matrix] of [check]. *)

Definition matrix : json :=
  DObj
    [ ("postgresql-query",
        DObj [ ("data-filter", DStr "full");
               ("field-mapper", DStr "full");
               ("mongodb-operations", DStr "partial") ]);
      ("mongodb-operations",
        DObj [ ("data-filter", DStr "full");
               ("field-mapper", DStr "full");
               ("postgresql-query", DStr "partial");
               ("mongodb-operations", DStr "full") ]);
      ("data-filter",
        DObj [ ("field-mapper", DStr "full");
               ("mongodb-operations", DStr "full");
               ("postgresql-query", DStr "partial") ]);
      ("field-mapper",
        DObj [ ("mongodb-operations", DStr "full");
               ("postgresql-query", DStr "partial");
               ("data-filter", DStr "full") ]) ].

(** The result [{ level, valid }].  The declared type of [level] is
    [CompatibilityLevel]; at run time it is whatever the lookup produced. *)

Record check_result : Type := {
  level : value;
  valid : bool
}.

(** [[
    const level = matrix[sourceType]?.[targetType] || 'none'
    return { level, valid: level !== 'none' }
    ]] *)

Definition check (sourceType targetType : string) : exc check_result :=
  row <- get matrix sourceType ;;
  cell <- get_optional row targetType ;;
  let level := or_else cell (Data (DStr "none")) in
  Ret {| level := level; valid := negb (strict_eq level (Data (DStr "none"))) |}.

(** The entry the literal declares for a pair, if any. *)

Definition matrix_rows : list (string * json) :=
  match matrix with
  | DObj rows => rows
  | _ => []
  end.

Definition declared (sourceType targetType : string) : option json :=
  match assoc sourceType matrix_rows with
  | Some (DObj cells) => assoc targetType cells
  | _ => None
  end.

Definition none_result : check_result :=
  {| level := Data (DStr "none"); valid := false |}.

(** The pin descriptors [{ type: string; pin: string; schema?: any }]; an
    absent [schema] is [undefined]. *)

Record descriptor : Type := {
  d_type : string;
  d_pin : string;
  d_schema : json
}.

Inductive severity : Type := SevError | SevWarning | SevInfo.

Record issue : Type := {
  i_severity : severity;
  i_message : string
}.

Record validation : Type := {
  compatible : bool;
  issues : list issue
}.

Definition is_error (i : issue) : bool :=
  match i_severity i with SevError => true | _ => false end.

Definition is_warning (i : issue) : bool :=
  match i_severity i with SevWarning => true | _ => false end.

Definition no_rule_message (s t : string) : string :=
  "No compatibility rule found between " ++ s ++ " and " ++ t.

Definition mismatch_message (s t : string) : string :=
  "Schema type mismatch: source outputs '" ++ s ++ "' but target expects '" ++ t ++ "'".

(** The test of the inner [if] of the schema check. *)

Definition schema_mismatch (st tt : value) : bool :=
  negb (strict_eq st tt) &&
  negb (strict_eq st (Data (DStr "any"))) &&
  negb (strict_eq tt (Data (DStr "any"))).

(** Whether [schema.type], when it can be read, has a string form, so that
    the template literal of the mismatch message can be evaluated. *)

Definition type_renders (schema : json) : bool :=
  match get (Data schema) "type" with
  | Ret v => match to_string v with Ret _ => true | Throw _ => false end
  | Throw _ => true
  end.

(** [validateCompatibility(source, target)]; the value is what the
    returned promise settles to. *)

Definition validateCompatibility (source target : descriptor) : exc validation :=
  basicCheck <- check (d_type source) (d_type target) ;;
  let issues0 :=
    if negb (valid basicCheck)
    then [ {| i_severity := SevError;
              i_message := no_rule_message (d_type source) (d_type target) |} ]
    else [] in
  issues1 <-
    (if truthy (d_schema source) && truthy (d_schema target) then
       st <- get (d_schema source) "type" ;;
       tt <- get (d_schema target) "type" ;;
       if schema_mismatch st tt then
         s1 <- to_string st ;;
         s2 <- to_string tt ;;
         Ret (issues0 ++ [ {| i_severity := SevWarning;
                              i_message := mismatch_message s1 s2 |} ])%list
       else Ret issues0
     else Ret issues0) ;;
  Ret {| compatible :=
           valid basicCheck && Nat.eqb (List.length (filter is_error issues1)) 0;
         issues := issues1 |}.

End CompatibilityValidator.

(* ===================================================================== *)
(** * src/interfaces/node.interface.ts and the base class [BaseNode] *)
(* ===================================================================== *)

(** [NodeResult<T>]; an absent optional member is [None]. *)

Record Metrics : Type := {
  executionTime : Z;
  recordsProcessed : Z
}.

Record NodeResult (T : Type) : Type := {
  success : bool;
  data : option T;
  error : option string;
  metrics : option Metrics
}.

Arguments success {T} _.
Arguments data {T} _.
Arguments error {T} _.
Arguments metrics {T} _.

(** [NodeMetadata]: the members every descriptor has, and the optional
    ones ([icon], [compatibilityMatrix], [configuration], [tags],
    [relatedNodes], [documentation]) as the properties that are present. *)

Record NodeMetadata : Type := {
  md_type : value;
  md_name : string;
  md_description : string;
  md_version : value;
  md_category : value;
  md_inputs : list json;
  md_outputs : list json;
  md_optional : list (string * json)
}.

(** The two shapes of an envelope: [{ success: true, data }] and
    [{ success: false, error }]. *)

Definition succeeded {T : Type} (r : NodeResult T) : Prop :=
  success r = true /\ (exists d, data r = Some d) /\ error r = None.

Definition failed {T : Type} (r : NodeResult T) : Prop :=
  success r = false /\ data r = None /\ exists m, error r = Some m.

Module BaseNode.

(** [[ validate(input) { return input !== null && input !== undefined } ]] *)

Definition validate (input : value) : bool :=
  negb (strict_eq input (Data DNull)) && negb (strict_eq input undefined).

(** The static [getMetadata] of the abstract class. *)

Definition getMetadata : exc NodeMetadata :=
  Throw (Error "Static getMetadata() method must be implemented by node classes").

End BaseNode.

(** [error instanceof Error ? error.message : fallback] *)

Definition error_text (fallback : string) (e : exn) : string :=
  if instanceof_Error e then message_of e else fallback.

(** [try { body } finally { cleanup }]: an abrupt completion of the
    cleanup replaces the outcome of the body. *)

Definition finally {A : Type} (body : exc A) (cleanup : exc unit) : exc A :=
  match cleanup with
  | Ret _ => body
  | Throw e => Throw e
  end.

(** [Array.prototype.filter] and [Array.prototype.every] with a callback
    that may throw: elements are visited in order, and [every] stops at the
    first element the callback rejects. *)

Fixpoint filterM {A : Type} (f : A -> exc bool) (l : list A) : exc (list A) :=
  match l with
  | [] => Ret []
  | x :: rest =>
      keep <- f x ;;
      kept <- filterM f rest ;;
      Ret (if keep then x :: kept else kept)
  end.

Fixpoint everyM {A : Type} (f : A -> exc bool) (l : list A) : exc bool :=
  match l with
  | [] => Ret true
  | x :: rest =>
      ok <- f x ;;
      if ok then everyM f rest else Ret false
  end.

(** [Array.prototype.map] and a [forEach] that threads the object its
    callback mutates. *)

Fixpoint mapM {A B : Type} (f : A -> exc B) (l : list A) : exc (list B) :=
  match l with
  | [] => Ret []
  | x :: rest =>
      y <- f x ;;
      ys <- mapM f rest ;;
      Ret (y :: ys)
  end.

Fixpoint forEachM {A S : Type} (f : S -> A -> exc S) (st : S) (l : list A) : exc S :=
  match l with
  | [] => Ret st
  | x :: rest =>
      st' <- f st x ;;
      forEachM f st' rest
  end.

(** [v.method(...)] where [method] is one of the array methods above: the
    call goes through only when [v] is an array. *)

Definition as_array (expr method : string) (v : value) : exc (list json) :=
  match v with
  | Data (DArr items) => Ret items
  | Data DUndefined => Throw (TypeError (read_null_message "undefined" method))
  | Data DNull => Throw (TypeError (read_null_message "null" method))
  | _ => Throw (TypeError (expr ++ "." ++ method ++ " is not a function"))
  end.

(* ===================================================================== *)
(** * src/nodes/transformation/data-filter.node.ts *)
(* ===================================================================== *)

Module DataFilterNode.

Record DataFilterOutput : Type := {
  filtered : list json;
  filtered_count : Z
}.

(** The callback of [every]:
    [[
    const fieldValue = item[condition.field]
    switch (condition.operator) {
      case 'equals':       return fieldValue === condition.value
      case 'not_equals':   return fieldValue !== condition.value
      case 'greater_than': return fieldValue > condition.value
      case 'less_than':    return fieldValue < condition.value
      case 'contains':     return String(fieldValue).includes(String(condition.value))
      default:             return false
    }
    ]] *)

Definition evalCondition (item condition : json) : exc bool :=
  field <- get condition "field" ;;
  fieldValue <- get_computed item field ;;
  operator <- get condition "operator" ;;
  if strict_eq operator (Data (DStr "equals")) then
    v <- get condition "value" ;; Ret (strict_eq fieldValue v)
  else if strict_eq operator (Data (DStr "not_equals")) then
    v <- get condition "value" ;; Ret (negb (strict_eq fieldValue v))
  else if strict_eq operator (Data (DStr "greater_than")) then
    v <- get condition "value" ;; js_gt fieldValue v
  else if strict_eq operator (Data (DStr "less_than")) then
    v <- get condition "value" ;; js_lt fieldValue v
  else if strict_eq operator (Data (DStr "contains")) then
    hay <- to_string fieldValue ;;
    v <- get condition "value" ;;
    needle <- to_string v ;;
    Ret (includes hay needle)
  else Ret false.

(** The operator semantics as a predicate: whether [item] satisfies
    [condition], an evaluation that raises counting as not satisfied. *)

Definition holds (item condition : json) : bool :=
  match evalCondition item condition with
  | Ret b => b
  | Throw _ => false
  end.

(** Records as they come out of a query or a JSON document with scalar
    columns: an object all of whose own properties are primitives. *)

Definition primitive (d : json) : bool :=
  match d with
  | DArr _ | DObj _ => false
  | _ => true
  end.

Definition flat_record (d : json) : bool :=
  match d with
  | DObj props => forallb (fun kv => primitive (snd kv)) props
  | _ => false
  end.

(** The callback of [filter]: [input.conditions.every(...)]. *)

Definition keeps (input item : json) : exc bool :=
  conditions <- get input "conditions" ;;
  cs <- as_array "input.conditions" "every" conditions ;;
  everyM (evalCondition item) cs.

(** [execute(input)].  [startTime] and [endTime] are the two readings of
    [Date.now()]. *)

Definition execute (input : json) (startTime endTime : Z)
  : exc (NodeResult DataFilterOutput) :=
  try_catch
    (d <- get input "data" ;;
     items <- as_array "input.data" "filter" d ;;
     kept <- filterM (keeps input) items ;;
     let n := Z.of_nat (List.length kept) in
     Ret {| success := true;
            data := Some {| filtered := kept; filtered_count := n |};
            error := None;
            metrics := Some {| executionTime := endTime - startTime;
                               recordsProcessed := n |} |})
    (fun e =>
       Ret {| success := false;
              data := None;
              error := Some (error_text "Unknown error" e);
              metrics := None |}).

(** [[ super.validate(input) && Array.isArray(input.data) &&
       Array.isArray(input.conditions) ]] *)

Definition validate (input : json) : exc bool :=
  if BaseNode.validate input then
    d <- get input "data" ;;
    if isArray d then c <- get input "conditions" ;; Ret (isArray c)
    else Ret false
  else Ret false.

End DataFilterNode.

(* ===================================================================== *)
(** * src/nodes/transformation/field-mapper.node.ts *)
(* ===================================================================== *)

Module FieldMapperNode.

(** The object [result] that the mapper builds: its own properties in
    insertion order and its prototype, which an assignment to [__proto__]
    can replace. *)

Record jsobject : Type := {
  own : list (string * value);
  proto : value
}.

Definition empty_object : jsobject :=
  {| own := []; proto := Intrinsic ObjectPrototype |}.

Fixpoint set_own (k : string) (v : value) (l : list (string * value))
  : list (string * value) :=
  match l with
  | [] => [(k, v)]
  | (k', v') :: rest =>
      if String.eqb k k' then (k', v) :: rest else (k', v') :: set_own k v rest
  end.

Definition is_object_or_null (v : value) : bool :=
  match v with
  | Data DNull | Data (DArr _) | Data (DObj _) | Intrinsic _ => true
  | _ => false
  end.

(** Keys that a function object in the prototype chain refuses to have
    shadowed by assignment in strict code: its read-only [name] and [length]
    (and [prototype] on a constructor) and the poisoned accessors. *)

Definition refused_by (p : value) (k : string) : bool :=
  match p with
  | Intrinsic ObjectPrototype => false
  | Intrinsic b =>
      String.eqb k "name" || String.eqb k "length" ||
      String.eqb k "caller" || String.eqb k "arguments" ||
      (match b with
       | ObjectCtor | FunctionCtor => String.eqb k "prototype"
       | _ => false
       end)
  | Data _ => false
  end.

(** Whether an object with prototype [p] still inherits the [__proto__]
    accessor of %Object.prototype%: not when [p] is [null], and not when
    [p] is a data object with an own property of that name. *)

Definition inherits_proto_accessor (p : value) : bool :=
  match p with
  | Data DNull => false
  | Data (DObj props) => negb (has_own "__proto__" props)
  | _ => true
  end.

(** [o[k] = v] on such an object (class bodies are strict code).  An
    existing own property is overwritten.  Otherwise an inherited
    [__proto__] setter swaps the prototype when [v] is an object or [null]
    and ignores other values; a key refused by the prototype raises a
    TypeError; any other key becomes a new own property. *)

Definition put (o : jsobject) (k : string) (v : value) : exc jsobject :=
  if has_own k (own o) then Ret {| own := set_own k v (own o); proto := proto o |}
  else if String.eqb k "__proto__" && inherits_proto_accessor (proto o) then
    Ret (if is_object_or_null v then {| own := own o; proto := v |} else o)
  else if refused_by (proto o) k then
    Throw (TypeError ("Cannot assign to property '" ++ k ++ "' of object"))
  else Ret {| own := set_own k v (own o); proto := proto o |}.

(** [result[key] = v] with a computed key. *)

Definition put_computed (o : jsobject) (key v : value) : exc jsobject :=
  k <- to_string key ;; put o k v.

Inductive mapped_value : Type :=
| MappedArray (items : list jsobject)
| MappedObject (o : jsobject)
| MappedUndefined.

Record FieldMapperOutput : Type := {
  mapped : mapped_value
}.

Section Execute.

(** [new Function('value', body)(v)]: what compiling the body and calling
    the function on [v] gives, a [Throw] standing for a SyntaxError of the
    compilation as well as for an exception of the call. *)

Variable evalFunction : string -> value -> exc value.

(** The callback of [forEach], for one [mapping] and the [item] at hand. *)

Definition applyMapping (item : value) (result : jsobject) (mapping : json)
  : exc jsobject :=
  sourceField <- get mapping "sourceField" ;;
  sourceValue <- get_computed item sourceField ;;
  transformation <- get mapping "transformation" ;;
  if strict_eq transformation (Data (DStr "rename")) then
    targetField <- get mapping "targetField" ;;
    put_computed result targetField sourceValue
  else if strict_eq transformation (Data (DStr "function")) then
    parameters <- get mapping "parameters" ;;
    functionBody <- get_optional parameters "functionBody" ;;
    if truthy functionBody then
      try_catch
        (body <- to_string functionBody ;;
         targetField <- get mapping "targetField" ;;
         r <- evalFunction body sourceValue ;;
         put_computed result targetField r)
        (fun _ =>
           targetField <- get mapping "targetField" ;;
           put_computed result targetField sourceValue)
    else
      targetField <- get mapping "targetField" ;;
      put_computed result targetField sourceValue
  else if strict_eq transformation (Data (DStr "constant")) then
    targetField <- get mapping "targetField" ;;
    parameters <- get mapping "parameters" ;;
    constantValue <- get_optional parameters "constantValue" ;;
    put_computed result targetField constantValue
  else Ret result.

(** The callback of [map]. *)

Definition mapItem (input : json) (item : value) : exc jsobject :=
  mapping <- get input "mapping" ;;
  ms <- as_array "input.mapping" "forEach" mapping ;;
  forEachM (applyMapping item) empty_object ms.

Definition execute (input : json) (startTime endTime : Z)
  : exc (NodeResult FieldMapperOutput) :=
  try_catch
    (source <- get input "source" ;;
     let isArr := isArray source in
     let sourceData :=
       match source with
       | Data (DArr items) => List.map Data items
       | _ => [source]
       end in
     mappedItems <- mapM (mapItem input) sourceData ;;
     Ret {| success := true;
            data := Some {| mapped :=
                     if isArr then MappedArray mappedItems
                     else match mappedItems with
                          | o :: _ => MappedObject o
                          | [] => MappedUndefined
                          end |};
            error := None;
            metrics := Some {| executionTime := endTime - startTime;
                               recordsProcessed :=
                                 Z.of_nat (List.length sourceData) |} |})
    (fun e =>
       Ret {| success := false;
              data := None;
              error := Some (error_text "Unknown error" e);
              metrics := None |}).

End Execute.

(** [[ super.validate(input) &&
       (Array.isArray(input.source) || typeof input.source === 'object') &&
       Array.isArray(input.mapping) ]] *)

Definition validate (input : json) : exc bool :=
  if BaseNode.validate input then
    source <- get input "source" ;;
    if isArray source || String.eqb (typeof source) "object" then
      mapping <- get input "mapping" ;; Ret (isArray mapping)
    else Ret false
  else Ret false.

End FieldMapperNode.

(* ===================================================================== *)
(** * The class [PostgreSQLQueryNode] *)
(* ===================================================================== *)

Module PostgreSQLQueryNode.

Record PostgreSQLOutput : Type := {
  result : value;
  rowCount : Z
}.

(** What [client.query] resolves to: [rows], and [rowCount], which the
    driver types as [number | null]. *)

Record QueryResult : Type := {
  qr_rows : value;
  qr_rowCount : option Z
}.

Section Execute.

(** The [pg] client of one call: the constructor, [connect], [query] and
    [end], each of which may throw or reject. *)

Variable Client_new : value -> value -> exc unit.
Variable Client_connect : exc unit.
Variable Client_query : value -> value -> exc QueryResult.
Variable Client_end : exc unit.

(** [queryResult.rowCount || 0] *)

Definition rowCount_or_0 (q : QueryResult) : Z :=
  match qr_rowCount q with
  | Some n => n
  | None => 0%Z
  end.

Definition execute (config : value) (input : json) (startTime endTime : Z)
  : exc (NodeResult PostgreSQLOutput) :=
  let failure (e : exn) : exc (NodeResult PostgreSQLOutput) :=
    Ret {| success := false;
           data := None;
           error := Some (error_text "Unknown PostgreSQL error" e);
           metrics := Some {| executionTime := endTime - startTime;
                              recordsProcessed := 0 |} |} in
  match (connectionString <- get input "connectionString" ;;
         timeout <- get_optional config "timeout" ;;
         Client_new connectionString (or_else timeout (Data (DNum 30000)))) with
  | Throw e =>
      (* [client] is still undefined: the [finally] block closes nothing *)
      failure e
  | Ret _ =>
      finally
        (try_catch
           (Client_connect ;;;
            query <- get input "query" ;;
            parameters <- get input "parameters" ;;
            queryResult <- Client_query query (or_else parameters (Data (DArr []))) ;;
            Ret {| success := true;
                   data := Some {| result := qr_rows queryResult;
                                    rowCount := rowCount_or_0 queryResult |};
                   error := None;
                   metrics := Some {| executionTime := endTime - startTime;
                                      recordsProcessed := rowCount_or_0 queryResult |} |})
           failure)
        (try_catch Client_end (fun _ => Ret tt))
  end.

End Execute.

End PostgreSQLQueryNode.

(* ===================================================================== *)
(** * src/nodes/database/mongodb-operations.node.ts *)
(* ===================================================================== *)

Module MongoDBOperationsNode.

Section Execute.

(** The body of the [try] block talks to the MongoDB driver only
    ([connectWithRetry], the operation raced against the timer,
    [getRecordsProcessed]); it is a parameter, as is [client.close()].
    [attempt input timeout retries] gives the output and the number of
    records processed. *)

Variable MongoDBOutput : Type.
Variable attempt : json -> value -> value -> exc (MongoDBOutput * Z).
Variable client_close : exc unit.

(** [disconnect] swallows what [close] throws. *)

Definition disconnect : exc unit := try_catch client_close (fun _ => Ret tt).

(** [input.options?.<name> || this.config.<fallback> || dflt] *)

Definition option_or_default (config : value) (input : json)
    (name fallback : string) (dflt : Z) : exc value :=
  options <- get input "options" ;;
  o <- get_optional options name ;;
  if truthy o then Ret o
  else c <- get config fallback ;; Ret (or_else c (Data (DNum dflt))).

(** [execute(input)]: the two defaults are computed before the [try]
    statement is entered. *)

Definition execute (config : value) (input : json) (startTime endTime : Z)
  : exc (NodeResult MongoDBOutput) :=
  timeout <- option_or_default config input "timeout" "defaultTimeout" 30000 ;;
  retries <- option_or_default config input "retries" "defaultRetries" 3 ;;
  finally
    (try_catch
       (r <- attempt input timeout retries ;;
        Ret {| success := true;
               data := Some (fst r);
               error := None;
               metrics := Some {| executionTime := endTime - startTime;
                                  recordsProcessed := snd r |} |})
       (fun e =>
          Ret {| success := false;
                 data := None;
                 error := Some (error_text "Unknown MongoDB error" e);
                 metrics := None |}))
    disconnect.

End Execute.

End MongoDBOperationsNode.

(* ===================================================================== *)
(** * src/base/node-registry.ts *)
(* ===================================================================== *)

Module NodeRegistry.

(** ** Node classes and their instances

    What the constructor of a node class leaves in [this]: the three
    identity members and the configuration. *)

Record node_fields : Type := {
  f_type : value;
  f_version : value;
  f_category : value;
  f_config : value
}.

(** A class as the registry sees it: its name, whether it extends
    [BaseNode] (static members are inherited along [extends]), the static
    [getMetadata] it declares itself, if any, and the body of its
    constructor on the list of arguments. *)

Record node_class : Type := {
  class_name : string;
  extends_BaseNode : bool;
  own_getMetadata : option (exc NodeMetadata);
  class_constructor : list value -> exc node_fields
}.

(** An instance carries the identity [new] gave it. *)

Record instance : Type := {
  inst_id : nat;
  inst_constructor_name : string;
  inst_fields : node_fields
}.

(** [new NodeClass(...args)]: an object is allocated under the next free
    identity, then the constructor runs on it. *)

Definition new_ (C : node_class) (args : list value) (next : nat)
  : exc instance * nat :=
  (f <- class_constructor C args ;;
   Ret {| inst_id := next;
          inst_constructor_name := class_name C;
          inst_fields := f |},
   S next).

(** [NodeClass.getMetadata], looked up along the [extends] chain; [None]
    when [typeof NodeClass.getMetadata] is not ["function"]. *)

Definition static_getMetadata (C : node_class) : option (exc NodeMetadata) :=
  match own_getMetadata C with
  | Some m => Some m
  | None => if extends_BaseNode C then Some BaseNode.getMetadata else None
  end.

(** ** The registry

    [nodes] is a [Map<string, any>]: the entries in insertion order, each
    key once. *)

Definition registry : Type := list (string * node_class).

Definition empty : registry := [].

(** [Map.prototype.set]: an existing key keeps its position and takes the
    new value, a new key goes to the end. *)

Fixpoint map_set (k : string) (v : node_class) (m : registry) : registry :=
  match m with
  | [] => [(k, v)]
  | (k', v') :: rest =>
      if String.eqb k k' then (k', v) :: rest else (k', v') :: map_set k v rest
  end.

(** [Map.prototype.get] *)

Definition map_get (k : string) (m : registry) : option node_class := assoc k m.

Definition register (nodeClass : node_class) (type : string) (r : registry)
  : registry :=
  map_set type nodeClass r.

Definition not_found_message (type : string) : string :=
  "Node type '" ++ type ++ "' not found".

Definition create (r : registry) (type : string) (config : value) (next : nat)
  : exc instance * nat :=
  match map_get type r with
  | None => (Throw (Error (not_found_message type)), next)
  | Some NodeClass => new_ NodeClass [config] next
  end.

(** [Array.from(this.nodes.keys())] *)

Definition getAvailableTypes (r : registry) : list string := List.map fst r.

(** The descriptor that the fallback path synthesizes. *)

Definition synthesized (type : string) (i : instance) : NodeMetadata :=
  {| md_type := or_else (f_type (inst_fields i)) (Data (DStr type));
     md_name := strip_Node_suffix (inst_constructor_name i);
     md_description := "Auto-generated metadata for " ++ type;
     md_version := or_else (f_version (inst_fields i)) (Data (DStr "1.0.0"));
     md_category := or_else (f_category (inst_fields i)) (Data (DStr "transformation"));
     md_inputs := [];
     md_outputs := [];
     md_optional := [] |}.

(** [getNodeMetadata(type)]; [None] is the [null] it returns. *)

Definition getNodeMetadata (r : registry) (type : string) (next : nat)
  : exc (option NodeMetadata) * nat :=
  match map_get type r with
  | None => (Ret None, next)
  | Some NodeClass =>
      match static_getMetadata NodeClass with
      | Some call =>
          (try_catch (md <- call ;; Ret (Some md)) (fun _ => Ret None), next)
      | None =>
          let (made, next') := new_ NodeClass [] next in
          (try_catch (i <- made ;; Ret (Some (synthesized type i)))
                     (fun _ => Ret None),
           next')
      end
  end.

(** A sequence of [register] calls, oldest first. *)

Definition register_all (calls : list (string * node_class)) (r : registry)
  : registry :=
  fold_left (fun acc c => register (snd c) (fst c) acc) calls r.

(** The class most recently registered under [t] in a sequence of calls. *)

Fixpoint last_registered (t : string) (calls : list (string * node_class))
  : option node_class :=
  match calls with
  | [] => None
  | (k, C) :: rest =>
      match last_registered t rest with
      | Some C' => Some C'
      | None => if String.eqb t k then Some C else None
      end
  end.

End NodeRegistry.

(* ===================================================================== *)
(** * Example classes and inputs *)
(* ===================================================================== *)

Module Examples.

Import NodeRegistry.

(** The constructor that a built-in node inherits from [BaseNode]: it
    stores its first argument as the configuration and never throws. *)

Definition base_constructor (type version category : string)
  (args : list value) : exc node_fields :=
  Ret {| f_type := Data (DStr type);
         f_version := Data (DStr version);
         f_category := Data (DStr category);
         f_config := nth 0 args undefined |}.

(** [DataFilterNode.getMetadata()] *)

Definition DataFilter_metadata : NodeMetadata :=
  {| md_type := Data (DStr "data-filter");
     md_name := "Data Filter";
     md_description :=
       "Filters array data based on configurable conditions with support for multiple operators";
     md_version := Data (DStr "1.0.0");
     md_category := Data (DStr "transformation");
     md_inputs :=
       [ DObj [ ("name", DStr "data"); ("type", DStr "array");
                ("required", DBool true);
                ("description", DStr "Array of objects to filter") ];
         DObj [ ("name", DStr "conditions"); ("type", DStr "array");
                ("required", DBool true);
                ("description", DStr "Array of filter conditions to apply");
                ("defaultValue",
                  DArr [ DObj [ ("field", DStr "status");
                                ("operator", DStr "equals");
                                ("value", DStr "active") ] ]) ] ];
     md_outputs :=
       [ DObj [ ("name", DStr "filtered"); ("type", DStr "array");
                ("description",
                  DStr "Filtered array of objects that match all conditions");
                ("schema", DObj [ ("type", DStr "array");
                                  ("items", DObj [ ("type", DStr "object") ]) ]) ];
         DObj [ ("name", DStr "filtered_count"); ("type", DStr "number");
                ("description",
                  DStr "Number of items that passed the filter conditions") ] ];
     md_optional :=
       [ ("icon", DStr "filter");
         ("compatibilityMatrix",
           DArr [ DObj [ ("targetType", DStr "field-mapper");
                         ("outputPin", DStr "filtered");
                         ("targetInputPin", DStr "source");
                         ("compatibility", DStr "full") ];
                  DObj [ ("targetType", DStr "mongodb-operations");
                         ("outputPin", DStr "filtered");
                         ("targetInputPin", DStr "data");
                         ("compatibility", DStr "full") ] ]);
         ("configuration",
           DObj [ ("timeout", DNum 10000); ("retries", DNum 2);
                  ("concurrency", DNum 1); ("batchSize", DNum 5000) ]);
         ("tags", DArr [ DStr "transformation"; DStr "filter";
                         DStr "data-processing" ]);
         ("relatedNodes", DArr [ DStr "field-mapper"; DStr "postgresql-query";
                                 DStr "mongodb-operations" ]) ] |}.

Definition DataFilterNode_class : node_class :=
  {| class_name := "DataFilterNode";
     extends_BaseNode := true;
     own_getMetadata := Some (Ret DataFilter_metadata);
     class_constructor := base_constructor "data-filter" "1.0.0" "transformation" |}.

(** A subclass of [BaseNode] that declares no static [getMetadata]. *)

Definition BareNode_class : node_class :=
  {| class_name := "BareNode";
     extends_BaseNode := true;
     own_getMetadata := None;
     class_constructor := base_constructor "bare" "1.0.0" "logic" |}.

(** A class that implements [INode] without extending [BaseNode]. *)

Definition EchoNode_class : node_class :=
  {| class_name := "EchoNode";
     extends_BaseNode := false;
     own_getMetadata := None;
     class_constructor := base_constructor "echo" "2.0.0" "logic" |}.

(** The same, with a constructor that insists on a configuration. *)

Definition StrictNode_class : node_class :=
  {| class_name := "StrictNode";
     extends_BaseNode := false;
     own_getMetadata := None;
     class_constructor := fun args =>
       match args with
       | [] => Throw (Error "configuration required")
       | c :: _ => base_constructor "strict" "1.0.0" "logic" args
       end |}.

(** A registry after four registrations. *)

Definition demo_registry : registry :=
  register StrictNode_class "strict"
    (register EchoNode_class "echo"
       (register BareNode_class "bare"
          (register DataFilterNode_class "data-filter" empty))).

(** The filtering scenario: three records and [age greater_than 30]. *)

Definition age (n : Z) : json := DObj [ ("age", DNum n) ].

Definition filter_input : json :=
  DObj [ ("data", DArr [ age 25; age 31; age 40 ]);
         ("conditions",
           DArr [ DObj [ ("field", DStr "age");
                         ("operator", DStr "greater_than");
                         ("value", DNum 30) ] ]) ].

(** The same condition over a list that holds [null]. *)


(** The renaming scenario. *)

Definition rename_input : json :=
  DObj [ ("source", DObj [ ("first_name", DStr "John") ]);
         ("mapping",
           DArr [ DObj [ ("sourceField", DStr "first_name");
                         ("targetField", DStr "firstName");
                         ("transformation", DStr "rename") ] ]) ].

(** A mapping whose custom function does not compile. *)


(** An engine on which every function body of this kind is a SyntaxError. *)

Definition rejecting_engine (body : string) (v : value) : exc value :=
  Throw (SyntaxError "Unexpected token '}'").

(** A null source with one mapping. *)

Definition null_source_input : json :=
  DObj [ ("source", DNull);
         ("mapping",
           DArr [ DObj [ ("sourceField", DStr "first_name");
                         ("targetField", DStr "firstName");
                         ("transformation", DStr "rename") ] ]) ].

(** Two pins whose schemas disagree on the type. *)

Definition array_pin : CompatibilityValidator.descriptor :=
  {| CompatibilityValidator.d_type := "postgresql-query";
     CompatibilityValidator.d_pin := "result";
     CompatibilityValidator.d_schema := DObj [ ("type", DStr "array") ] |}.

Definition object_pin : CompatibilityValidator.descriptor :=
  {| CompatibilityValidator.d_type := "data-filter";
     CompatibilityValidator.d_pin := "data";
     CompatibilityValidator.d_schema := DObj [ ("type", DStr "object") ] |}.

End Examples.

(* ===================================================================== *)
(** * The other members of [NodeRegistry] and of the validator *)
(* ===================================================================== *)

Module RegistryQueries.

Import NodeRegistry.

(** [[ existsByTypeAndVersion(type, version) { return this.nodes.has(type) } ]] *)

Definition existsByTypeAndVersion (r : registry) (type version : string) : bool :=
  match map_get type r with
  | Some _ => true
  | None => false
  end.

(** The [Map<string, NodeMetadata>] that [getAllNodesMetadata] fills: its
    entries in insertion order. *)

Definition metadata_map : Type := list (string * NodeMetadata).

Fixpoint metadata_set (k : string) (v : NodeMetadata) (m : metadata_map)
  : metadata_map :=
  match m with
  | [] => [(k, v)]
  | (k', v') :: rest =>
      if String.eqb k k' then (k', v) :: rest else (k', v') :: metadata_set k v rest
  end.

(** The loop of [getAllNodesMetadata] over the entries that are left:
    [[
    for (const [type] of this.nodes) {
      const nodeMetadata = this.getNodeMetadata(type);
      if (nodeMetadata) { metadata.set(type, nodeMetadata); }
    }
    ]] *)

Fixpoint collect (r entries : registry) (metadata : metadata_map) (next : nat)
  : exc metadata_map * nat :=
  match entries with
  | [] => (Ret metadata, next)
  | (type, _) :: rest =>
      let (got, next') := getNodeMetadata r type next in
      match got with
      | Ret (Some nodeMetadata) =>
          collect r rest (metadata_set type nodeMetadata metadata) next'
      | Ret None => collect r rest metadata next'
      | Throw e => (Throw e, next')
      end
  end.

Definition getAllNodesMetadata (r : registry) (next : nat)
  : exc metadata_map * nat :=
  collect r r [] next.

(** The descriptor [getNodeMetadata] returns for a type, [None] for its
    [null]. *)

Definition metadata_of (r : registry) (t : string) : option NodeMetadata :=
  match fst (getNodeMetadata r t 0) with
  | Ret (Some md) => Some md
  | _ => None
  end.

(** Whether a key is among the keys of a map. *)

Definition has_key {A : Type} (k : string) (m : list (string * A)) : bool :=
  existsb (fun kv => String.eqb k (fst kv)) m.

End RegistryQueries.

Module CompatibilityDetails.

(** The object literal [compatibilityMap] of
    [getMongoDBCompatibilityDetails]. *)

Definition compatibilityMap : json :=
  DObj
    [ ("postgresql-query",
        DObj [ ("mongodb-operations",
                 DStr "PostgreSQL result can be transformed to MongoDB documents for insert operations") ]);
      ("mongodb-operations",
        DObj [ ("data-filter",
                 DStr "MongoDB query results can be filtered using data-filter node");
               ("field-mapper",
                 DStr "MongoDB documents can be field-mapped for transformation");
               ("postgresql-query",
                 DStr "MongoDB results can be used as parameters for PostgreSQL queries (with transformation)");
               ("mongodb-operations",
                 DStr "MongoDB operations can be chained (e.g., find → update, aggregate → insert)") ]);
      ("data-filter",
        DObj [ ("mongodb-operations",
                 DStr "Filtered data can be used for MongoDB insert/update operations or as query criteria") ]);
      ("field-mapper",
        DObj [ ("mongodb-operations",
                 DStr "Mapped fields can be used for MongoDB operations (documents, queries, updates)") ]) ].

Definition details_rows : list (string * json) :=
  match compatibilityMap with
  | DObj rows => rows
  | _ => []
  end.

Definition no_details : string := "No specific compatibility details available".

(** [[ return compatibilityMap[sourceType]?.[targetType] || '...' ]] *)

Definition getMongoDBCompatibilityDetails (sourceType targetType : string)
  : exc value :=
  row <- get compatibilityMap sourceType ;;
  cell <- get_optional row targetType ;;
  Ret (or_else cell (Data (DStr no_details))).

(** The explanation the literal records for a pair, if any. *)

Definition recorded (sourceType targetType : string) : option json :=
  match compatibilityMap with
  | DObj rows =>
      match assoc sourceType rows with
      | Some (DObj cells) => assoc targetType cells
      | _ => None
      end
  | _ => None
  end.

(** [validateCompatibilityInstance] hands its arguments to the static
    method. *)

Definition validateCompatibilityInstance
    (source target : CompatibilityValidator.descriptor)
  : exc CompatibilityValidator.validation :=
  CompatibilityValidator.validateCompatibility source target.

End CompatibilityDetails.

(** What a computation returned, if it returned; and the answer of a
    callback, one that throws answering no. *)

Definition to_option {A : Type} (c : exc A) : option A :=
  match c with
  | Ret a => Some a
  | Throw _ => None
  end.

Definition answer (c : exc bool) : bool :=
  match c with
  | Ret b => b
  | Throw _ => false
  end.

Module DataFilterRequests.

Import DataFilterNode.

(** An input [{ data: items, conditions: conds }]. *)

Definition filter_request (items conds : list json) : json :=
  DObj [ ("data", DArr items); ("conditions", DArr conds) ].

(** A condition [{ field, operator, value }]. *)

Definition condition (field operator : string) (v : json) : json :=
  DObj [ ("field", DStr field); ("operator", DStr operator); ("value", v) ].

(** Whether the callback of [filter] keeps an item, a callback that throws
    keeping nothing. *)

Definition passes (input item : json) : bool :=
  match keeps input item with
  | Ret b => b
  | Throw _ => false
  end.

(** [filtered] of a successful execution, [None] for a failure envelope.
    The clock plays no part in it. *)

Definition filtered_of (input : json) : option (list json) :=
  match execute input 0 0 with
  | Ret r =>
      match data r with
      | Some out => Some (filtered out)
      | None => None
      end
  | Throw _ => None
  end.

Definition known_operator (op : string) : bool :=
  String.eqb op "equals" || String.eqb op "not_equals" ||
  String.eqb op "greater_than" || String.eqb op "less_than" ||
  String.eqb op "contains".

End DataFilterRequests.

Module FieldMapperRequests.

Import FieldMapperNode.

(** An input [{ source, mapping }]. *)

Definition mapping_request (source : json) (mappings : list json) : json :=
  DObj [ ("source", source); ("mapping", DArr mappings) ].

(** A mapping [{ sourceField, targetField, transformation: 'rename' }]. *)

Definition rename_mapping (fields : string * string) : json :=
  DObj [ ("sourceField", DStr (fst fields));
         ("targetField", DStr (snd fields));
         ("transformation", DStr "rename") ].

(** The objects in [mapped]. *)

Definition mapped_objects (m : mapped_value) : list jsobject :=
  match m with
  | MappedArray items => items
  | MappedObject o => [ o ]
  | MappedUndefined => []
  end.

(** [item[k]] on an item that can be read. *)

Definition read (item : value) (k : string) : value :=
  match get item k with
  | Ret v => v
  | Throw _ => undefined
  end.

(** The source field of the last mapping that writes [target]. *)

Fixpoint last_source (target : string) (pairs : list (string * string))
  : option string :=
  match pairs with
  | [] => None
  | (sf, tf) :: rest =>
      match last_source target rest with
      | Some s => Some s
      | None => if String.eqb target tf then Some sf else None
      end
  end.

Definition known_transformation (t : value) : bool :=
  strict_eq t (Data (DStr "rename")) ||
  strict_eq t (Data (DStr "function")) ||
  strict_eq t (Data (DStr "constant")).

End FieldMapperRequests.

(* ===================================================================== *)
(** * The PostgreSQL node: the calls made on the client, and [validate] *)
(* ===================================================================== *)

Module PostgreSQLSession.

Import PostgreSQLQueryNode.

(** The calls that [execute] makes on the [pg] client, with their
    arguments. *)

Inductive call : Type :=
| CallNew (connectionString timeout : value)
| CallConnect
| CallQuery (text parameters : value)
| CallEnd.

Definition is_end (c : call) : bool :=
  match c with
  | CallEnd => true
  | _ => false
  end.

(** A computation together with the calls it has made, oldest first. *)

Definition logged (A : Type) : Type := (list call * exc A)%type.

Definition quiet {A : Type} (c : exc A) : logged A := ([], c).

Definition issue {A : Type} (c : call) (outcome : exc A) : logged A :=
  ([c], outcome).

Definition lbind {A B : Type} (c : logged A) (k : A -> logged B) : logged B :=
  match snd c with
  | Ret a => ((fst c ++ fst (k a))%list, snd (k a))
  | Throw e => (fst c, Throw e)
  end.

Definition ltry_catch {A : Type} (body : logged A) (handler : exn -> logged A)
  : logged A :=
  match snd body with
  | Ret a => body
  | Throw e => ((fst body ++ fst (handler e))%list, snd (handler e))
  end.

Definition lfinally {A : Type} (body : logged A) (cleanup : logged unit)
  : logged A :=
  ((fst body ++ fst cleanup)%list, finally (snd body) (snd cleanup)).

Section Execute.

Variable Client_new : value -> value -> exc unit.
Variable Client_connect : exc unit.
Variable Client_query : value -> value -> exc QueryResult.
Variable Client_end : exc unit.

(** [client = new Client({ connectionString, connectionTimeoutMillis })] *)

Definition construct (config : value) (input : json) : logged unit :=
  lbind (quiet (get input "connectionString")) (fun connectionString =>
  lbind (quiet (get_optional config "timeout")) (fun timeout =>
  issue (CallNew connectionString (or_else timeout (Data (DNum 30000))))
        (Client_new connectionString (or_else timeout (Data (DNum 30000)))))).

(** [execute(input)], with [client] left undefined when the constructor
    has not returned. *)

Definition execute (config : value) (input : json) (startTime endTime : Z)
  : logged (NodeResult PostgreSQLOutput) :=
  let failure (e : exn) : logged (NodeResult PostgreSQLOutput) :=
    quiet (Ret {| success := false;
                  data := None;
                  error := Some (error_text "Unknown PostgreSQL error" e);
                  metrics := Some {| executionTime := endTime - startTime;
                                     recordsProcessed := 0 |} |}) in
  let client := construct config input in
  lfinally
    (ltry_catch
       (lbind client (fun _ =>
        lbind (issue CallConnect Client_connect) (fun _ =>
        lbind (quiet (get input "query")) (fun query =>
        lbind (quiet (get input "parameters")) (fun parameters =>
        lbind (issue (CallQuery query (or_else parameters (Data (DArr []))))
                     (Client_query query (or_else parameters (Data (DArr [])))))
              (fun queryResult =>
        quiet (Ret {| success := true;
                      data := Some {| result := qr_rows queryResult;
                                       rowCount := rowCount_or_0 queryResult |};
                      error := None;
                      metrics := Some {| executionTime := endTime - startTime;
                                         recordsProcessed :=
                                           rowCount_or_0 queryResult |} |})))))))
       failure)
    (match snd client with
     | Ret _ => ltry_catch (issue CallEnd Client_end) (fun _ => quiet (Ret tt))
     | Throw _ => quiet (Ret tt)
     end).

End Execute.

(** [[ super.validate(input) && !!input.connectionString && !!input.query ]] *)

Definition validate (input : json) : exc bool :=
  if BaseNode.validate input then
    connectionString <- get input "connectionString" ;;
    if truthy connectionString then query <- get input "query" ;; Ret (truthy query)
    else Ret false
  else Ret false.

(** An input [{ connectionString, query }]. *)

Definition query_request (connectionString query : string) : json :=
  DObj [ ("connectionString", DStr connectionString); ("query", DStr query) ].

(** A client on which every call succeeds, the query returning no row. *)

Definition obliging_new (_ _ : value) : exc unit := Ret tt.

Definition obliging_query (_ _ : value) : exc QueryResult :=
  Ret {| qr_rows := Data (DArr []); qr_rowCount := Some 0%Z |}.

End PostgreSQLSession.

(* ===================================================================== *)
(** * The MongoDB node: [validate], [connectWithRetry], [processObjectIds] *)
(* ===================================================================== *)

Module MongoDBValidation.

(** [!input.name] and [!!input.name] *)

Definition missing (input : json) (name : string) : exc bool :=
  v <- get input name ;; Ret (negb (truthy v)).

Definition present (input : json) (name : string) : exc bool :=
  v <- get input name ;; Ret (truthy v).

(** [a || b] and [a && b] on booleans, [b] being evaluated only when
    needed. *)

Definition or_lazy (a b : exc bool) : exc bool :=
  x <- a ;; if x then Ret true else b.

Definition and_lazy (a b : exc bool) : exc bool :=
  x <- a ;; if x then b else Ret false.

(** [[ !!input.name && Array.isArray(input.name) && input.name.length > 0 ]] *)

Definition present_nonempty_array (input : json) (name : string) : exc bool :=
  and_lazy (present input name)
    (and_lazy (v <- get input name ;; Ret (isArray v))
       (v <- get input name ;; length <- get v "length" ;;
        js_gt length (Data (DNum 0)))).

Definition is_case (operation : value) (label : string) : bool :=
  strict_eq operation (Data (DStr label)).

(** [validate(input)] *)

Definition validate (input : json) : exc bool :=
  if negb (BaseNode.validate input) then Ret false
  else
    incomplete <-
      or_lazy (missing input "connectionString")
        (or_lazy (missing input "database")
           (or_lazy (missing input "collection") (missing input "operation"))) ;;
    if incomplete then Ret false
    else
      operation <- get input "operation" ;;
      if is_case operation "insertOne" then
        and_lazy (present input "document")
          (document <- get input "document" ;; Ret (negb (isArray document)))
      else if is_case operation "insertMany" then
        present_nonempty_array input "document"
      else if is_case operation "updateOne" || is_case operation "updateMany" then
        present input "update"
      else if is_case operation "aggregate" then
        present_nonempty_array input "pipeline"
      else if is_case operation "find" || is_case operation "findOne" ||
              is_case operation "deleteOne" || is_case operation "deleteMany" then
        Ret true
      else Ret false.

(** The names of [MongoOperation]. *)

Definition MongoOperation : list string :=
  [ "find"; "findOne"; "insertOne"; "insertMany"; "updateOne"; "updateMany";
    "deleteOne"; "deleteMany"; "aggregate" ].

(** An input with the four required fields. *)

Definition request (operation : string) (more : list (string * json)) : json :=
  DObj ([ ("connectionString", DStr "mongodb://localhost:27017");
          ("database", DStr "shop"); ("collection", DStr "orders");
          ("operation", DStr operation) ] ++ more)%list.

End MongoDBValidation.

Module MongoDBConnection.

(** The options that [connectWithRetry] passes to [new MongoClient]. *)

Record MongoClientOptions : Type := {
  maxPoolSize : value;
  minPoolSize : value;
  maxIdleTimeMS : value;
  serverSelectionTimeoutMS : value
}.

(** [this.config.connectionPool?.<name> || dflt] *)

Definition pool_setting (config : value) (name : string) (dflt : Z) : exc value :=
  connectionPool <- get config "connectionPool" ;;
  setting <- get_optional connectionPool name ;;
  Ret (or_else setting (Data (DNum dflt))).

Definition client_options (config : value) : exc MongoClientOptions :=
  maxPool <- pool_setting config "maxPoolSize" 10 ;;
  minPool <- pool_setting config "minPoolSize" 1 ;;
  maxIdle <- pool_setting config "maxIdleTimeMS" 30000 ;;
  selection <- pool_setting config "serverSelectionTimeoutMS" 5000 ;;
  Ret {| maxPoolSize := maxPool;
         minPoolSize := minPool;
         maxIdleTimeMS := maxIdle;
         serverSelectionTimeoutMS := selection |}.

(** What the node holds and has done so far: [this.client], named by the
    attempt that constructed it, and the delays it has waited for, oldest
    first. *)

Record node_state : Type := {
  client : option Z;
  slept : list Z
}.

Definition idle : node_state := {| client := None; slept := [] |}.

(** The message of the error thrown when the loop is left. *)

Definition failure_message (retries : Z) (lastError : option string) : string :=
  "Failed to connect after " ++ string_of_Z retries ++ " attempts: " ++
  match lastError with
  | Some message => message
  | None => "undefined"
  end.

Section Connect.

(** The driver: the constructor call of each attempt and [connect] on the
    client that the attempt constructed. *)

Variable MongoClient_new : Z -> value -> MongoClientOptions -> exc unit.
Variable client_connect : Z -> exc unit.

Variable config : value.
Variable connectionString : value.

(** The body of the [try] block of one attempt. *)

Definition try_connect (attempt : Z) (st : node_state) : node_state * exc unit :=
  match (options <- client_options config ;;
         MongoClient_new attempt connectionString options) with
  | Throw e => (st, Throw e)
  | Ret _ => ({| client := Some attempt; slept := slept st |}, client_connect attempt)
  end.

(** The [for] loop from [attempt] on.  Numbers are integers here; the loop
    runs at most [retries] times, which [fuel] bounds. *)

Fixpoint retry_loop (fuel : nat) (retries attempt : Z) (lastError : option string)
    (st : node_state) : option (node_state * exc unit) :=
  match fuel with
  | O => None
  | S fuel' =>
      if (attempt <=? retries)%Z then
        match try_connect attempt st with
        | (st', Ret _) => Some (st', Ret tt)
        | (st', Throw error) =>
            let lastError' := Some (error_text "Connection failed" error) in
            let st'' :=
              if (attempt <? retries)%Z
              then {| client := client st';
                      slept := (slept st' ++ [ (2 ^ (attempt - 1) * 1000)%Z ])%list |}
              else st' in
            retry_loop fuel' retries (attempt + 1)%Z lastError' st''
        end
      else Some (st, Throw (Error (failure_message retries lastError)))
  end.

(** [connectWithRetry(connectionString, retries)], with [retries] the
    number that its signature asks for. *)

Definition connectWithRetry (retries : Z) (st : node_state)
  : option (node_state * exc unit) :=
  retry_loop (S (Z.to_nat retries)) retries 1%Z None st.

(** How an attempt ends. *)

Definition outcome (attempt : Z) : exc unit := snd (try_connect attempt idle).

End Connect.

(** The delays that follow the failed attempts [a], [a + 1], ...,
    [a + m - 1]. *)

Definition delays_from (a : Z) (m : nat) : list Z :=
  List.map (fun i => (2 ^ (a - 1 + Z.of_nat i) * 1000)%Z) (seq 0 m).

(** The first [n] delays of the exponential backoff. *)

Definition backoff (n : nat) : list Z :=
  List.map (fun i => (2 ^ Z.of_nat i * 1000)%Z) (seq 0 n).

Definition total (delays : list Z) : Z := fold_right Z.add 0%Z delays.

(** A server that refuses the first [k] connections. *)

Definition refuses_first (k : Z) (attempt : Z) : exc unit :=
  if (attempt <=? k)%Z then Throw (Error "connection refused") else Ret tt.

Definition any_client (_ : Z) (_ : value) (_ : MongoClientOptions) : exc unit :=
  Ret tt.

End MongoDBConnection.

Module MongoDBObjectIds.

(** The values that a query or an update is made of.  Besides the data
    of JSON they hold instances of classes: the examples pass
    [new Date(...)], and documents read from a collection hold ObjectIds.
    To [processObjectIds] an instance is what it is an instance of,
    together with its own enumerable string-keyed properties, which is all
    that [Object.entries] lists: none for a Date or a RegExp. *)

Inductive internal : Type :=
| DateValue (time : Z)
| RegExpPattern (source flags : string)
| ObjectIdValue (hex : string).

Inductive document : Type :=
| VUndefined
| VNull
| VBool (b : bool)
| VNum (n : Z)
| VStr (s : string)
| VArr (items : list document)
| VObj (props : list (string * document))
| VInstance (slot : internal) (props : list (string * document)).

(** The data of JSON among these values. *)

Fixpoint of_json (d : json) : document :=
  match d with
  | DUndefined => VUndefined
  | DNull => VNull
  | DBool b => VBool b
  | DNum n => VNum n
  | DStr s => VStr s
  | DArr items => VArr (List.map of_json items)
  | DObj props =>
      VObj (List.map (fun kv => match kv with (k, v) => (k, of_json v) end) props)
  end.

(** What [processObjectIds] returns: a value [Same] as the one it was
    given, a [new ObjectId(hex)], the array that [map] builds, or the
    object [processed] that the loop fills, with its own properties in
    insertion order and its prototype when an assignment to [__proto__] has
    replaced it ([None] is %Object.prototype%). *)

Inductive processed : Type :=
| Same (v : document)
| ObjectId (hex : string)
| Items (items : list processed)
| Object_ (own : list (string * processed)) (proto : option processed).

(** [[ key === "_id" || key.endsWith("Id") ]] *)

Definition is_id_key (key : string) : bool :=
  String.eqb key "_id" || ends_with key "Id".

(** [Object.entries]: a list of properties stands for the object in which
    a key has the value of its first occurrence (this is how [get] reads
    it); each key is enumerated once. *)

Fixpoint entries {A : Type} (props : list (string * A)) : list (string * A) :=
  match props with
  | [] => []
  | (k, v) :: rest =>
      (k, v) :: List.filter (fun p => negb (String.eqb (fst p) k)) (entries rest)
  end.

Fixpoint set_property {A : Type} (k : string) (v : A) (l : list (string * A))
  : list (string * A) :=
  match l with
  | [] => [(k, v)]
  | (k', v') :: rest =>
      if String.eqb k k' then (k', v) :: rest else (k', v') :: set_property k v rest
  end.

(** The object under construction. *)

Record building : Type := {
  own : list (string * processed);
  proto : option processed
}.

Definition empty : building := {| own := []; proto := None |}.

Definition is_object_or_null (v : processed) : bool :=
  match v with
  | Same VNull | Same (VArr _) | Same (VObj _) | Same (VInstance _ _) => true
  | Same _ => false
  | ObjectId _ | Items _ | Object_ _ _ => true
  end.

(** Whether an object with this prototype inherits the [__proto__]
    accessor of %Object.prototype%: the chain must reach it before it
    meets [null] or an own property of that name. *)

Definition inherits_proto_accessor (p : option processed) : bool :=
  match p with
  | None => true
  | Some q =>
      (fix chain (q : processed) : bool :=
         match q with
         | Same VNull => false
         | Same (VObj props) | Same (VInstance _ props) =>
             negb (has_own "__proto__" props)
         | Same _ | ObjectId _ | Items _ => true
         | Object_ own None => negb (has_own "__proto__" own)
         | Object_ own (Some q') => negb (has_own "__proto__" own) && chain q'
         end) q
  end.

(** [processed[key] = v].  Every property in reach is a writable data
    property, except the [__proto__] accessor, whose setter replaces the
    prototype by an object or by [null] and ignores any other value. *)

Definition assign (o : building) (key : string) (v : processed) : building :=
  if String.eqb key "__proto__" && negb (has_own key (own o)) &&
     inherits_proto_accessor (proto o)
  then if is_object_or_null v then {| own := own o; proto := Some v |} else o
  else {| own := set_property key v (own o); proto := proto o |}.

Section Process.

(** [ObjectId.isValid] on strings. *)

Variable isValid : string -> bool.

(** The body of the loop: what is stored under [key] for [value], [recur]
    being [processObjectIds] itself.  [typeof value === "object"] holds of
    arrays, of objects and of instances alike. *)

Definition stored (recur : document -> processed) (key : string) (value : document)
  : processed :=
  if is_id_key key then
    match value with
    | VStr s => if isValid s then ObjectId s else Same value
    | _ => Same value
    end
  else
    match value with
    | VArr _ | VObj _ | VInstance _ _ => recur value
    | _ => Same value
    end.

Definition fill (values : list (string * processed)) : building :=
  fold_left (fun o kv => assign o (fst kv) (snd kv)) (entries values) empty.

(** [processObjectIds(obj)].  The values are computed property by
    property and then assigned in the order of [Object.entries].  An
    instance is not an array, so it takes the path of the objects: a fresh
    [{}] receives its own enumerable properties. *)

Fixpoint processObjectIds (obj : document) : processed :=
  match obj with
  | VArr items => Items (List.map processObjectIds items)
  | VObj props | VInstance _ props =>
      let o := fill (List.map (fun kv => match kv with
                                         | (key, value) =>
                                             (key, stored processObjectIds key value)
                                         end) props) in
      Object_ (own o) (proto o)
  | _ => Same obj
  end.

End Process.

(** The own property [k] of a processed object. *)

Definition property (k : string) (p : processed) : option processed :=
  match p with
  | Object_ own _ => assoc k own
  | _ => None
  end.

(** The value that a processed value stands for when every ObjectId is
    read back as the string it was made from. *)

Fixpoint erase (p : processed) : document :=
  match p with
  | Same v => v
  | ObjectId hex => VStr hex
  | Items items => VArr (List.map erase items)
  | Object_ own _ =>
      VObj (List.map (fun kv => match kv with (k, q) => (k, erase q) end) own)
  end.

(** The strings that have become ObjectIds. *)

Fixpoint ids (p : processed) : list string :=
  match p with
  | Same _ => []
  | ObjectId hex => [hex]
  | Items items => List.flat_map ids items
  | Object_ own proto =>
      (List.flat_map (fun kv => ids (snd kv)) own ++
       match proto with Some q => ids q | None => [] end)%list
  end.

Fixpoint distinct (keys : list string) : bool :=
  match keys with
  | [] => true
  | k :: rest => negb (existsb (String.eqb k) rest) && distinct rest
  end.

(** Values in which no object has two properties of the same name or an
    own property [__proto__], and in which instances occur only under
    [_id] and the keys that end in [Id], where anything may stand. *)

Fixpoint plain (d : document) : bool :=
  match d with
  | VArr items => forallb plain items
  | VObj props =>
      distinct (List.map fst props) &&
      negb (has_own "__proto__" props) &&
      forallb (fun kv => is_id_key (fst kv) || plain (snd kv)) props
  | VInstance _ _ => false
  | _ => true
  end.

(** A 24-digit hexadecimal string, and a validity test that accepts
    exactly the strings of 24 characters. *)

Definition sample_id : string := "507f1f77bcf86cd799439011".

Definition has_24_characters (s : string) : bool := Nat.eqb (String.length s) 24.

(** The query of the example [findActiveUsers]:
    [{ status: 'active', createdAt: { $gte: new Date('2024-01-01') } }]. *)

Definition active_users_query : document :=
  VObj [ ("status", VStr "active");
         ("createdAt", VObj [ ("$gte", VInstance (DateValue 1704067200000) []) ]) ].

End MongoDBObjectIds.

(* ===================================================================== *)
(** * Further inputs *)
(* ===================================================================== *)

Module MoreExamples.

(** A pin whose schema gives an object without a usable [toString] as its
    [type]: [schema] is declared [any], so this is a descriptor that
    [validateCompatibility] can be handed. *)

Definition opaque_type_pin : CompatibilityValidator.descriptor :=
  {| CompatibilityValidator.d_type := "postgresql-query";
     CompatibilityValidator.d_pin := "result";
     CompatibilityValidator.d_schema :=
       DObj [ ("type", DObj [ ("toString", DNum 1) ]) ] |}.

End MoreExamples.

(* ===================================================================== *)
(** * The field mapper with custom functions that may not return *)
(* ===================================================================== *)

Module FieldMapperRuns.

Import FieldMapperNode.

(** A computation that completes normally, completes abruptly, or never
    completes ([None]): for [execute], a promise that resolves, rejects, or
    stays pending. *)

Definition run (A : Type) : Type := option (exc A).

Definition finished {A : Type} (c : exc A) : run A := Some c.

Definition rbind {A B : Type} (c : run A) (k : A -> run B) : run B :=
  match c with
  | Some (Ret a) => k a
  | Some (Throw e) => Some (Throw e)
  | None => None
  end.

Definition rtry_catch {A : Type} (body : run A) (handler : exn -> run A) : run A :=
  match body with
  | Some (Throw e) => handler e
  | _ => body
  end.

Fixpoint rmapM {A B : Type} (f : A -> run B) (l : list A) : run (list B) :=
  match l with
  | [] => finished (Ret [])
  | x :: rest =>
      rbind (f x) (fun y => rbind (rmapM f rest) (fun ys => finished (Ret (y :: ys))))
  end.

Fixpoint rforEachM {A S : Type} (f : S -> A -> run S) (st : S) (l : list A) : run S :=
  match l with
  | [] => finished (Ret st)
  | x :: rest => rbind (f st x) (fun st' => rforEachM f st' rest)
  end.

Section Execute.

(** [new Function('value', body)(v)]: the call returns a value, throws
    (also when the body does not compile), or does not return, as for a
    body that loops for ever.  What it does depends on the body and on the
    value only: custom functions are taken to have no side effects. *)

Variable evalFunction : string -> value -> run value.

(** The callback of [forEach]. *)

Definition applyMapping (item : value) (result : jsobject) (mapping : json)
  : run jsobject :=
  rbind (finished (get mapping "sourceField")) (fun sourceField =>
  rbind (finished (get_computed item sourceField)) (fun sourceValue =>
  rbind (finished (get mapping "transformation")) (fun transformation =>
  if strict_eq transformation (Data (DStr "rename")) then
    finished (targetField <- get mapping "targetField" ;;
              put_computed result targetField sourceValue)
  else if strict_eq transformation (Data (DStr "function")) then
    rbind (finished (get mapping "parameters")) (fun parameters =>
    rbind (finished (get_optional parameters "functionBody")) (fun functionBody =>
    if truthy functionBody then
      rtry_catch
        (rbind (finished (to_string functionBody)) (fun body =>
         rbind (finished (get mapping "targetField")) (fun targetField =>
         rbind (evalFunction body sourceValue) (fun r =>
         finished (put_computed result targetField r)))))
        (fun _ =>
           finished (targetField <- get mapping "targetField" ;;
                     put_computed result targetField sourceValue))
    else
      finished (targetField <- get mapping "targetField" ;;
                put_computed result targetField sourceValue)))
  else if strict_eq transformation (Data (DStr "constant")) then
    finished (targetField <- get mapping "targetField" ;;
              parameters <- get mapping "parameters" ;;
              constantValue <- get_optional parameters "constantValue" ;;
              put_computed result targetField constantValue)
  else finished (Ret result)))).

(** The callback of [map]. *)

Definition mapItem (input : json) (item : value) : run jsobject :=
  rbind (finished (get input "mapping")) (fun mapping =>
  rbind (finished (as_array "input.mapping" "forEach" mapping)) (fun ms =>
  rforEachM (applyMapping item) empty_object ms)).

Definition execute (input : json) (startTime endTime : Z)
  : run (NodeResult FieldMapperOutput) :=
  rtry_catch
    (rbind (finished (get input "source")) (fun source =>
     let isArr := isArray source in
     let sourceData :=
       match source with
       | Data (DArr items) => List.map Data items
       | _ => [source]
       end in
     rbind (rmapM (mapItem input) sourceData) (fun mappedItems =>
     finished
       (Ret {| success := true;
               data := Some {| mapped :=
                        if isArr then MappedArray mappedItems
                        else match mappedItems with
                             | o :: _ => MappedObject o
                             | [] => MappedUndefined
                             end |};
               error := None;
               metrics := Some {| executionTime := endTime - startTime;
                                  recordsProcessed :=
                                    Z.of_nat (List.length sourceData) |} |}))))
    (fun e =>
       finished
         (Ret {| success := false;
                 data := None;
                 error := Some (error_text "Unknown error" e);
                 metrics := None |})).

End Execute.

(** The engine that returns its argument wherever [evalFunction] throws:
    every failing function replaced by the identity, call by call. *)


(** A custom function whose body loops for ever, and an engine on which
    every body does. *)



(** What [new Function] does with the body ["return value.trim()"]: a
    string is trimmed, and on any other value the call throws a TypeError.
    Other bodies do not occur in the example; the engine rejects them. *)



End FieldMapperRuns.

(* ===================================================================== *)
(** * The operator semantics of the data filter, on scalar values *)
(* ===================================================================== *)

Module FilterSemantics.

(** A condition as the interface [FilterCondition] declares it, and the
    object it is. *)



(** The integers that a number of the code holds exactly: those of
    magnitude at most [2^53 - 1]. *)


(** The values the semantics speaks of: [undefined], [null], booleans,
    safe integers and strings. *)


(** Two values that have an order: two safe integers, or two strings. *)


(** What a record holds under a field: a record without the field holds
    [undefined] there. *)


(** The text of a scalar value: a string is its own text, an integer its
    decimal numeral, and the others their names. *)

Definition text (d : json) : string :=
  match d with
  | DUndefined => "undefined"
  | DNull => "null"
  | DBool true => "true"
  | DBool false => "false"
  | DNum n => string_of_Z n
  | DStr s => s
  | DArr _ | DObj _ => ""
  end.


(** [w] is greater than [v]: as integers, or as strings in dictionary
    order of their characters. *)


(** Whether a record satisfies a condition, by the names of the five
    operators: the field equals the value, does not equal it, is greater,
    is less, or its text contains the text of the value.  No record
    satisfies a condition with any other operator. *)


(** The pairs of a record and a condition that the semantics covers: the
    field is the record's own or missing (not a member that every object
    inherits), the two values compared for order are an ordered pair, and
    the two values compared otherwise are scalars. *)


(** Three employees and two conditions. *)



End FilterSemantics.

(* ===================================================================== *)
(** * Properties of the JavaScript fragment *)
(* ===================================================================== *)

Module SemFacts.

Lemma bind_ret {A B : Type} (a : A) (k : A -> exc B) : bind (Ret a) k = k a.
Proof. reflexivity. Qed.

Lemma bind_throw {A B : Type} (e : exn) (k : A -> exc B) :
  bind (Throw e) k = Throw e.
Proof. reflexivity. Qed.

Lemma strict_eq_data (a b : json) : strict_eq (Data a) (Data b) = true -> a = b.
Proof.
  destruct a, b; simpl; try discriminate; intro H; try reflexivity.
  - apply Bool.eqb_prop in H. now subst.
  - apply Z.eqb_eq in H. now subst.
  - apply String.eqb_eq in H. now subst.
Qed.

Lemma strict_eq_str (v : value) (s : string) :
  strict_eq v (Data (DStr s)) = true <-> v = Data (DStr s).
Proof.
  split.
  - destruct v as [d | b]; [ | discriminate ].
    intro H. apply strict_eq_data in H. now subst.
  - intros ->. simpl. apply String.eqb_refl.
Qed.

Lemma strict_eq_distinct (a b : json) : a <> b -> strict_eq (Data a) (Data b) = false.
Proof.
  intro H. destruct (strict_eq (Data a) (Data b)) eqn:E; [ | reflexivity ].
  apply strict_eq_data in E. contradiction.
Qed.

(** A read on a truthy piece of data completes normally. *)

Lemma get_of_truthy (d : json) (k : string) :
  truthy (Data d) = true -> returns (get (Data d) k).
Proof.
  unfold returns.
  destruct d; simpl; try discriminate; intros _; eauto.
  - destruct (String.eqb k "length"); eauto.
    destruct (canonical_index k); eauto.
    destruct (String.get n s); eauto.
  - destruct (String.eqb k "length"); eauto.
    destruct (canonical_index k); eauto.
  - destruct (assoc k props); eauto.
Qed.

(** A read that completes was not a read on [null] or [undefined]. *)

Lemma get_returns_validates (d : json) (k : string) (v : value) :
  get (Data d) k = Ret v -> BaseNode.validate (Data d) = true.
Proof. destruct d; simpl; try discriminate; reflexivity. Qed.

Lemma get_own (props : list (string * json)) (k : string) (v : json) :
  assoc k props = Some v -> get (Data (DObj props)) k = Ret (Data v).
Proof. intro H. simpl. now rewrite H. Qed.

End SemFacts.

(* ===================================================================== *)
(** * The compatibility validator *)
(* ===================================================================== *)

Module CompatibilityFacts.

Import CompatibilityValidator SemFacts Examples.
Local Open Scope list_scope.

Lemma object_prototype_get_plain (p : value) (k : string) :
  inherited_name k = false -> object_prototype_get p k = undefined.
Proof.
  unfold inherited_name, object_prototype_get. intro H.
  apply Bool.orb_false_iff in H. destruct H as [H H3].
  apply Bool.orb_false_iff in H. destruct H as [H1 H2].
  now rewrite H1, H2, H3.
Qed.

(** [valid] is computed from [level]. *)

Lemma check_valid (s t : string) (c : check_result) :
  check s t = Ret c -> valid c = negb (strict_eq (level c) (Data (DStr "none"))).
Proof.
  unfold check. destruct (get matrix s) as [row | e]; [ | discriminate ].
  rewrite bind_ret.
  destruct (get_optional row t) as [cell | e]; [ | discriminate ].
  rewrite bind_ret. intro H. injection H as <-. reflexivity.
Qed.

Lemma check_valid_iff (s t : string) (c : check_result) :
  check s t = Ret c -> (valid c = true <-> level c <> Data (DStr "none")).
Proof.
  intro H. rewrite (check_valid _ _ _ H).
  rewrite Bool.negb_true_iff. split.
  - intros E L. apply strict_eq_str in L. congruence.
  - intro N. destruct (strict_eq (level c) (Data (DStr "none"))) eqn:E; [ | reflexivity ].
    apply strict_eq_str in E. contradiction.
Qed.

Lemma get_plain_object (props : list (string * json)) (k : string) :
  inherited_name k = false ->
  get (Data (DObj props)) k =
  Ret (match assoc k props with Some v => Data v | None => undefined end).
Proof.
  intro H. simpl. destruct (assoc k props); [ reflexivity | ].
  now rewrite object_prototype_get_plain.
Qed.

Lemma matrix_rows_are_objects (s : string) (row : json) :
  assoc s matrix_rows = Some row -> exists cells, row = DObj cells.
Proof.
  unfold matrix_rows, matrix. cbn [assoc].
  destruct (String.eqb s "postgresql-query"); [ intro H; injection H as <-; eauto | ].
  destruct (String.eqb s "mongodb-operations"); [ intro H; injection H as <-; eauto | ].
  destruct (String.eqb s "data-filter"); [ intro H; injection H as <-; eauto | ].
  destruct (String.eqb s "field-mapper"); [ intro H; injection H as <-; eauto | ].
  discriminate.
Qed.

(** Away from the inherited names, a pair without a declared entry is
    answered with [none]. *)

Lemma check_undeclared_plain (s t : string) :
  declared s t = None ->
  inherited_name s = false -> inherited_name t = false ->
  check s t = Ret none_result.
Proof.
  intros D Hs Ht. unfold check, declared in *.
  change matrix with (DObj matrix_rows).
  rewrite (get_plain_object _ _ Hs), bind_ret.
  destruct (assoc s matrix_rows) as [row | ] eqn:R; [ | reflexivity ].
  destruct (matrix_rows_are_objects _ _ R) as [cells ->].
  unfold get_optional. rewrite (get_plain_object _ _ Ht), bind_ret.
  rewrite D. reflexivity.
Qed.

(** The scenario of the specification: two types that are no node types
    and no inherited names either. *)

Lemma check_undeclared_plain_witness :
  check "notification-node" "ai-ml-node" = Ret none_result.
Proof. apply check_undeclared_plain; reflexivity. Defined.

(** The four built-in types against themselves. *)

Lemma check_builtin_self :
  check "mongodb-operations" "mongodb-operations"
    = Ret {| level := Data (DStr "full"); valid := true |} /\
  check "postgresql-query" "postgresql-query" = Ret none_result /\
  check "data-filter" "data-filter" = Ret none_result /\
  check "field-mapper" "field-mapper" = Ret none_result.
Proof. repeat split; reflexivity. Qed.

(** A read of [caller] on an inherited function raises. *)

Lemma check_can_throw :
  check "constructor" "caller" = Throw (TypeError restricted_message).
Proof. reflexivity. Qed.

(** C1 (what the code does at the failing input): the pair
    ("constructor", "name") has no entry in the matrix, yet [check] does not
    answer [none]: the first lookup finds the inherited [constructor] of the
    object literal, the second its [name], and the result is the level
    "Object", outside the enumeration, with [valid] true. *)

Theorem check_undeclared_inherited_pair :
  declared "constructor" "name" = None /\
  check "constructor" "name" = Ret {| level := Data (DStr "Object"); valid := true |}.
Proof. split; reflexivity. Qed.

(** C9 (what the code does at the failing input): no entry is declared for
    ("constructor", "constructor"), yet the type is reported compatible
    with itself: [check] returns the inherited %Function% as the level and
    [valid] true. *)

Theorem check_self_inherited_type :
  declared "constructor" "constructor" = None /\
  check "constructor" "constructor"
    = Ret {| level := Intrinsic FunctionCtor; valid := true |}.
Proof. split; reflexivity. Qed.

Lemma filter_is_error_warning (l : list issue) (m : string) :
  filter is_error (l ++ [ {| i_severity := SevWarning; i_message := m |} ]) =
  filter is_error l.
Proof. rewrite filter_app. simpl. apply app_nil_r. Qed.

Lemma filter_is_warning_snoc (l : list issue) (m : string) :
  filter is_warning l = [] ->
  List.length
    (filter is_warning (l ++ [ {| i_severity := SevWarning; i_message := m |} ])) = 1.
Proof. intro H. rewrite filter_app, H. reflexivity. Qed.

(** The shape of every result of [validateCompatibility]: the issues are
    the error of the base check, if any, followed by at most one warning. *)

Lemma validateCompatibility_shape (source target : descriptor) (c : check_result) :
  check (d_type source) (d_type target) = Ret c ->
  type_renders (d_schema source) = true ->
  type_renders (d_schema target) = true ->
  exists (r : validation) (base : list issue),
    validateCompatibility source target = Ret r /\
    compatible r = valid c /\
    base = (if valid c then []
            else [ {| i_severity := SevError;
                      i_message := no_rule_message (d_type source) (d_type target) |} ]) /\
    (issues r = base \/
     exists st tt m,
       truthy (Data (d_schema source)) = true /\
       truthy (Data (d_schema target)) = true /\
       get (Data (d_schema source)) "type" = Ret st /\
       get (Data (d_schema target)) "type" = Ret tt /\
       schema_mismatch st tt = true /\
       issues r = base ++ [ {| i_severity := SevWarning; i_message := m |} ]) /\
    (forall st tt,
       truthy (Data (d_schema source)) = true ->
       truthy (Data (d_schema target)) = true ->
       get (Data (d_schema source)) "type" = Ret st ->
       get (Data (d_schema target)) "type" = Ret tt ->
       schema_mismatch st tt = true ->
       exists m, issues r = base ++ [ {| i_severity := SevWarning; i_message := m |} ]).
Proof.
  intros Hc Rs Rt. unfold validateCompatibility. rewrite Hc, bind_ret.
  set (base := if negb (valid c) then _ else _).
  assert (Hbase : base = if valid c then []
            else [ {| i_severity := SevError;
                      i_message := no_rule_message (d_type source) (d_type target) |} ]).
  { subst base. now destruct (valid c). }
  assert (Hcompat : forall m,
            valid c && Nat.eqb (List.length (filter is_error
              (base ++ [ {| i_severity := SevWarning; i_message := m |} ]))) 0 = valid c
            /\ valid c && Nat.eqb (List.length (filter is_error base)) 0 = valid c).
  { intro m. rewrite filter_is_error_warning, Hbase.
    destruct (valid c); split; reflexivity. }
  destruct (truthy (Data (d_schema source))) eqn:Ts; cbn [andb].
  2:{ rewrite bind_ret. eexists; exists base. split; [ reflexivity | ].
      simpl. repeat split; try apply (Hcompat ""); auto; try discriminate. }
  destruct (truthy (Data (d_schema target))) eqn:Tt.
  2:{ rewrite bind_ret. eexists; exists base. split; [ reflexivity | ].
      simpl. repeat split; try apply (Hcompat ""); auto; try discriminate. }
  destruct (get_of_truthy _ "type" Ts) as [st Hst].
  destruct (get_of_truthy _ "type" Tt) as [tt Htt].
  rewrite Hst, Htt, !bind_ret.
  unfold type_renders in Rs, Rt. rewrite Hst in Rs. rewrite Htt in Rt.
  destruct (schema_mismatch st tt) eqn:M.
  - destruct (to_string st) as [s1 | ]; [ | discriminate ].
    destruct (to_string tt) as [s2 | ]; [ | discriminate ].
    rewrite !bind_ret. eexists; exists base. split; [ reflexivity | ].
    simpl. split; [ apply Hcompat | ]. split; [ assumption | ]. split.
    + right. exists st, tt, (mismatch_message s1 s2). repeat split; auto.
    + intros st' tt' _ _ _ _ _. eauto.
  - rewrite bind_ret. eexists; exists base. split; [ reflexivity | ].
    simpl. split; [ apply (Hcompat "") | ]. split; [ assumption | ]. split.
    + now left.
    + intros st' tt' _ _ E1 E2. injection E1 as <-. injection E2 as <-.
      rewrite M. discriminate.
Qed.

(** C2 (counterexample): the pair [postgresql-query] to [data-filter] is
    declared [full], yet [validateCompatibility] does not return a
    compatible result for it when the source schema gives an object without
    a usable [toString] as its type: the two types differ, the mismatch
    message is built with a template literal, and converting that type to a
    string raises a TypeError, so the returned promise rejects. *)

Lemma validateCompatibility_rejects_on_unrenderable_type :
  check "postgresql-query" "data-filter" =
    Ret {| level := Data (DStr "full"); valid := true |} /\
  validateCompatibility MoreExamples.opaque_type_pin object_pin =
    Throw (TypeError no_primitive_message).
Proof. split; reflexivity. Qed.

(** C2 (amended): whenever the base check returns a result [c] and the
    schema types have a string form, which the mismatch message needs,
    [validateCompatibility] resolves to a result [r] such that
    - [compatible r] is true exactly when [level c] is not ['none'] and [r]
      lists no issue of severity [error];
    - the issues of [r] are the error of a ['none'] level, if any, followed
      by at most one warning and by nothing else, and there is a warning
      exactly when both schemas are truthy and their types, as [!==] and
      the two tests against ['any'] see them, mismatch;
    - when both schemas are objects with a [type] property, the two types
      differ and neither is ['any'], [r] lists exactly one warning;
    - with a level other than ['none'] the pair is compatible whatever the
      schemas say, and with the level ['none'] it is incompatible whatever
      they say. *)

Theorem validateCompatibility_two_tier_severity :
  forall (source target : descriptor) (c : check_result),
    check (d_type source) (d_type target) = Ret c ->
    type_renders (d_schema source) = true ->
    type_renders (d_schema target) = true ->
    exists r : validation,
      validateCompatibility source target = Ret r /\
      (compatible r = true <->
         level c <> Data (DStr "none") /\ filter is_error (issues r) = []) /\
      (exists warnings : list issue,
         issues r =
           (if valid c then []
            else [ {| i_severity := SevError;
                      i_message := no_rule_message (d_type source) (d_type target) |} ])
           ++ warnings /\
         (warnings = [] \/
          exists m, warnings = [ {| i_severity := SevWarning; i_message := m |} ]) /\
         (warnings <> [] <->
          exists st tt,
            truthy (Data (d_schema source)) = true /\
            truthy (Data (d_schema target)) = true /\
            get (Data (d_schema source)) "type" = Ret st /\
            get (Data (d_schema target)) "type" = Ret tt /\
            schema_mismatch st tt = true)) /\
      (forall ps pt st tt,
         d_schema source = DObj ps -> assoc "type" ps = Some st ->
         d_schema target = DObj pt -> assoc "type" pt = Some tt ->
         st <> tt -> st <> DStr "any" -> tt <> DStr "any" ->
         List.length (filter is_warning (issues r)) = 1) /\
      (level c <> Data (DStr "none") -> compatible r = true) /\
      (level c = Data (DStr "none") -> compatible r = false).
Proof.
  intros source target c Hc Rs Rt.
  destruct (validateCompatibility_shape _ _ _ Hc Rs Rt)
    as (r & base & Hr & Hcompat & Hbase & Hissues & Hwarn).
  pose proof (check_valid_iff _ _ _ Hc) as Hvalid.
  exists r. split; [ exact Hr | ]. rewrite Hcompat.
  split; [ | split; [ | split; [ | split ] ] ].
  - split.
    + intro V. split; [ now apply Hvalid | ].
      rewrite V in Hbase. subst base.
      destruct Hissues as [-> | (st & tt & m & _ & _ & _ & _ & _ & ->)]; reflexivity.
    + intros [N _]. now apply Hvalid.
  - rewrite <- Hbase.
    destruct Hissues as [E | (st & tt & m & Ts & Tt & Gs & Gt & M & E)].
    + exists []. rewrite app_nil_r. split; [ exact E | ]. split; [ now left | ].
      split; [ intro N; now destruct N | ].
      intros (st & tt & Ts & Tt & Gs & Gt & M).
      destruct (Hwarn st tt Ts Tt Gs Gt M) as [m E'].
      rewrite E in E'. apply (f_equal (@List.length issue)) in E'.
      rewrite length_app in E'. cbn [List.length] in E'. lia.
    + exists [ {| i_severity := SevWarning; i_message := m |} ].
      split; [ exact E | ]. split; [ right; eauto | ].
      split; [ intros _; exists st, tt; auto | discriminate ].
  - intros ps pt st tt Es Hs Et Ht Dst As At.
    rewrite Es, Et in Hwarn.
    destruct (Hwarn (Data st) (Data tt)) as [m Hm];
      try reflexivity; try (now apply get_own).
    + unfold schema_mismatch. rewrite !strict_eq_distinct; auto.
    + rewrite Hm. apply filter_is_warning_snoc.
      subst base. now destruct (valid c).
  - intro N. now apply Hvalid.
  - intro L. destruct (valid c) eqn:V; [ | reflexivity ].
    exfalso. now apply (proj1 Hvalid eq_refl).
Qed.

(** A declared [full] pair whose schemas say ["array"] and ["object"]. *)

Lemma validateCompatibility_two_tier_severity_witness :
  exists r : validation,
    validateCompatibility array_pin object_pin = Ret r /\
    compatible r = true /\
    List.length (filter is_warning (issues r)) = 1 /\
    List.length (issues r) = 1.
Proof.
  destruct (validateCompatibility_two_tier_severity array_pin object_pin
              {| level := Data (DStr "full"); valid := true |}
              eq_refl eq_refl eq_refl)
    as (r & Hr & _ & (warnings & Hi & Hw & _) & W & C & _).
  exists r. split; [ exact Hr | ]. split; [ apply C; discriminate | ].
  assert (L : List.length (filter is_warning (issues r)) = 1).
  { apply (W [ ("type", DStr "array") ] [ ("type", DStr "object") ]
             (DStr "array") (DStr "object")); try reflexivity; discriminate. }
  split; [ exact L | ].
  cbn [valid app] in Hi. rewrite Hi in L |- *.
  destruct Hw as [-> | [m ->] ]; [ discriminate L | reflexivity ].
Defined.

End CompatibilityFacts.

(* ===================================================================== *)
(** * The registry *)
(* ===================================================================== *)

Module RegistryFacts.

Import NodeRegistry SemFacts Examples.
Local Open Scope list_scope.

Lemma map_get_set_same (k : string) (v : node_class) (m : registry) :
  map_get k (map_set k v m) = Some v.
Proof.
  unfold map_get. induction m as [ | [k' v'] rest IH]; simpl.
  - now rewrite String.eqb_refl.
  - destruct (String.eqb k k') eqn:E; simpl; rewrite E; [ reflexivity | exact IH ].
Qed.

Lemma map_get_set_other (k t : string) (v : node_class) (m : registry) :
  String.eqb t k = false -> map_get t (map_set k v m) = map_get t m.
Proof.
  unfold map_get. intro N. induction m as [ | [k' v'] rest IH]; simpl.
  - now rewrite N.
  - destruct (String.eqb k k') eqn:E; simpl.
    + apply String.eqb_eq in E. subst k'. now rewrite N.
    + destruct (String.eqb t k'); [ reflexivity | exact IH ].
Qed.

Lemma keys_map_set (k t : string) (v : node_class) (m : registry) :
  In t (List.map fst (map_set k v m)) <-> t = k \/ In t (List.map fst m).
Proof.
  induction m as [ | [k' v'] rest IH]; simpl.
  - intuition.
  - destruct (String.eqb k k') eqn:E; simpl.
    + apply String.eqb_eq in E. subst k'. intuition.
    + rewrite IH. intuition.
Qed.

Lemma NoDup_map_set (k : string) (v : node_class) (m : registry) :
  NoDup (List.map fst m) -> NoDup (List.map fst (map_set k v m)).
Proof.
  induction m as [ | [k' v'] rest IH]; simpl; intro H.
  - constructor; [ intros [] | constructor ].
  - inversion H as [ | ? ? Hnotin Hrest]; subst.
    destruct (String.eqb k k') eqn:E; simpl.
    + constructor; assumption.
    + constructor; [ | now apply IH ].
      rewrite keys_map_set. intros [-> | Hin]; [ | contradiction ].
      now rewrite String.eqb_refl in E.
Qed.

Lemma map_get_registered (t : string) (r : registry) :
  In t (getAvailableTypes r) <-> exists C, map_get t r = Some C.
Proof.
  unfold getAvailableTypes, map_get.
  induction r as [ | [k v] rest IH]; simpl.
  - split; [ intros [] | intros [C H]; discriminate ].
  - destruct (String.eqb t k) eqn:E.
    + apply String.eqb_eq in E. subst k. split; eauto.
    + rewrite <- IH. split; [ intros [-> | H]; auto | auto ].
      now rewrite String.eqb_refl in E.
Qed.

Lemma map_get_unregistered (t : string) (r : registry) :
  ~ In t (getAvailableTypes r) <-> map_get t r = None.
Proof.
  rewrite map_get_registered. destruct (map_get t r) as [C | ].
  - split; [ intro H; exfalso; eauto | discriminate ].
  - split; [ reflexivity | intros _ [C H]; discriminate ].
Qed.

(** C4: for a type that is not registered, [create] throws the Error
    "Node type '<t>' not found" and allocates nothing, whatever the
    configuration; for a registered type it is [new NodeClass(config)] of the
    class stored for it: when the constructor completes, the result is an
    instance of that class under the identity that was free, built by the
    constructor from the one argument [config], and the next call gets
    another identity. *)

Theorem create_unregistered_throws_registered_constructs :
  forall (r : registry) (t : string) (config : value) (next : nat),
    (~ In t (getAvailableTypes r) ->
       create r t config next = (Throw (Error (not_found_message t)), next)) /\
    (forall C, map_get t r = Some C ->
       create r t config next = new_ C [config] next /\
       forall f, class_constructor C [config] = Ret f ->
         create r t config next =
           (Ret {| inst_id := next;
                   inst_constructor_name := class_name C;
                   inst_fields := f |}, S next) /\
         forall (t' : string) (config' : value) (i' : instance) (next' : nat),
           create r t' config' (S next) = (Ret i', next') -> inst_id i' <> next).
Proof.
  intros r t config next. split.
  - intro H. apply map_get_unregistered in H. unfold create. now rewrite H.
  - intros C H. unfold create at 1 2. rewrite H. split; [ reflexivity | ].
    intros f Hf. unfold new_. rewrite Hf, bind_ret. split; [ reflexivity | ].
    intros t' config' i' next'. unfold create.
    destruct (map_get t' r) as [C' | ]; [ | discriminate ].
    unfold new_. destruct (class_constructor C' [config']) as [f' | e]; simpl.
    + intro E. injection E as <- _. simpl. lia.
    + discriminate.
Qed.

(** The registry miss of the specification and a hit. *)

Lemma create_unregistered_throws_registered_constructs_witness :
  create demo_registry "nonexistent-type" (Data (DObj [])) 7 =
    (Throw (Error "Node type 'nonexistent-type' not found"), 7) /\
  create demo_registry "data-filter" (Data (DObj [ ("timeout", DNum 5) ])) 7 =
    (Ret {| inst_id := 7;
            inst_constructor_name := "DataFilterNode";
            inst_fields :=
              {| f_type := Data (DStr "data-filter");
                 f_version := Data (DStr "1.0.0");
                 f_category := Data (DStr "transformation");
                 f_config := Data (DObj [ ("timeout", DNum 5) ]) |} |}, 8).
Proof.
  split.
  - apply (create_unregistered_throws_registered_constructs
             demo_registry "nonexistent-type" (Data (DObj [])) 7).
    simpl. intuition discriminate.
  - destruct (create_unregistered_throws_registered_constructs
                demo_registry "data-filter" (Data (DObj [ ("timeout", DNum 5) ])) 7)
      as [_ R].
    destruct (R DataFilterNode_class eq_refl) as [_ K].
    exact (proj1 (K _ eq_refl)).
Defined.

(** The ways through [getNodeMetadata].  It never throws.  For an
    unregistered type it returns [null].  When [typeof NodeClass.getMetadata]
    is ["function"] (the class's own accessor or the one inherited from
    [BaseNode]) the descriptor that function returns is returned, and [null]
    when the call throws.  Otherwise a throwaway instance is constructed
    with no arguments and a descriptor is synthesized from it, with empty
    [inputs] and [outputs]; when that construction throws, [null] is
    returned. *)

Lemma getNodeMetadata_paths :
  forall (r : registry) (t : string) (next : nat),
    (exists m, fst (getNodeMetadata r t next) = Ret m) /\
    (~ In t (getAvailableTypes r) -> getNodeMetadata r t next = (Ret None, next)) /\
    (forall C, map_get t r = Some C ->
       (forall md, static_getMetadata C = Some (Ret md) ->
          getNodeMetadata r t next = (Ret (Some md), next)) /\
       (forall e, static_getMetadata C = Some (Throw e) ->
          getNodeMetadata r t next = (Ret None, next)) /\
       (static_getMetadata C = None ->
          (forall f, class_constructor C [] = Ret f ->
             exists md,
               getNodeMetadata r t next = (Ret (Some md), S next) /\
               md = synthesized t {| inst_id := next;
                                     inst_constructor_name := class_name C;
                                     inst_fields := f |} /\
               md_inputs md = [] /\ md_outputs md = []) /\
          (forall e, class_constructor C [] = Throw e ->
             getNodeMetadata r t next = (Ret None, S next)))).
Proof.
  intros r t next. split; [ | split ].
  - unfold getNodeMetadata.
    destruct (map_get t r) as [C | ]; [ | simpl; eauto ].
    destruct (static_getMetadata C) as [[md | e] | ]; simpl; eauto.
    destruct (class_constructor C []); simpl; eauto.
  - intro H. apply map_get_unregistered in H. unfold getNodeMetadata. now rewrite H.
  - intros C H. unfold getNodeMetadata. rewrite H. split; [ | split ].
    + intros md S. now rewrite S.
    + intros e S. now rewrite S.
    + intro S. rewrite S. unfold new_. split.
      * intros f Hf. rewrite Hf. simpl. eexists. repeat split.
      * intros e Hf. now rewrite Hf.
Qed.

(** The four ways through [getNodeMetadata] on a registered type, and a
    type that is not registered. *)

Lemma getNodeMetadata_paths_on_demo_registry :
  getNodeMetadata demo_registry "nonexistent-type" 0 = (Ret None, 0) /\
  getNodeMetadata demo_registry "data-filter" 0 = (Ret (Some DataFilter_metadata), 0) /\
  getNodeMetadata demo_registry "bare" 0 = (Ret None, 0) /\
  (exists md,
     getNodeMetadata demo_registry "echo" 0 = (Ret (Some md), 1) /\
     md_name md = "Echo" /\ md_inputs md = [] /\ md_outputs md = []) /\
  getNodeMetadata demo_registry "strict" 0 = (Ret None, 1).
Proof.
  split; [ | split; [ | split; [ | split ] ] ].
  - apply (getNodeMetadata_paths demo_registry "nonexistent-type" 0).
    simpl. intuition discriminate.
  - destruct (getNodeMetadata_paths demo_registry "data-filter" 0)
      as (_ & _ & R).
    exact (proj1 (R DataFilterNode_class eq_refl) _ eq_refl).
  - destruct (getNodeMetadata_paths demo_registry "bare" 0)
      as (_ & _ & R).
    exact (proj1 (proj2 (R BareNode_class eq_refl)) _ eq_refl).
  - destruct (getNodeMetadata_paths demo_registry "echo" 0)
      as (_ & _ & R).
    destruct (proj1 (proj2 (proj2 (R EchoNode_class eq_refl)) eq_refl) _ eq_refl)
      as (md & E & -> & I & O).
    exists (synthesized "echo"
              {| inst_id := 0;
                 inst_constructor_name := "EchoNode";
                 inst_fields :=
                   {| f_type := Data (DStr "echo");
                      f_version := Data (DStr "2.0.0");
                      f_category := Data (DStr "logic");
                      f_config := undefined |} |}).
    split; [ exact E | repeat split ].
  - destruct (getNodeMetadata_paths demo_registry "strict" 0)
      as (_ & _ & R).
    exact (proj2 (proj2 (proj2 (R StrictNode_class eq_refl)) eq_refl) _ eq_refl).
Qed.

(** C5 (defect): the fallback never serves a subclass of [BaseNode].  A
    class that extends [BaseNode] and does not implement the static
    accessor still answers ["function"] to [typeof NodeClass.getMetadata],
    because it inherits the stub of [BaseNode], which throws.  For such a
    class [getNodeMetadata] calls the stub, swallows its error and returns
    [null]: no throwaway instance is constructed, and the descriptor that
    the fallback would have synthesized from an instance is not returned,
    although the constructor accepts an empty argument list. *)

Theorem getNodeMetadata_skips_fallback_for_BaseNode_subclasses :
  forall (r : registry) (t : string) (next : nat) (C : node_class),
    map_get t r = Some C ->
    extends_BaseNode C = true ->
    own_getMetadata C = None ->
    getNodeMetadata r t next = (Ret None, next) /\
    forall f, class_constructor C [] = Ret f ->
      new_ C [] next =
        (Ret {| inst_id := next;
                inst_constructor_name := class_name C;
                inst_fields := f |}, S next) /\
      getNodeMetadata r t next <>
        (Ret (Some (synthesized t {| inst_id := next;
                                     inst_constructor_name := class_name C;
                                     inst_fields := f |})), S next).
Proof.
  intros r t next C G E O.
  assert (N : getNodeMetadata r t next = (Ret None, next)).
  { unfold getNodeMetadata, static_getMetadata. rewrite G, O, E. reflexivity. }
  split; [ exact N | ].
  intros f F. split.
  - unfold new_. now rewrite F.
  - rewrite N. intro H. injection H as H _. discriminate.
Qed.

(** The class that the scaffolder generates: it extends [BaseNode],
    declares its identity and [execute], and no static [getMetadata]. *)

Lemma getNodeMetadata_skips_fallback_for_BaseNode_subclasses_witness :
  getNodeMetadata demo_registry "bare" 0 = (Ret None, 0) /\
  new_ BareNode_class [] 0 =
    (Ret {| inst_id := 0;
            inst_constructor_name := "BareNode";
            inst_fields := {| f_type := Data (DStr "bare");
                              f_version := Data (DStr "1.0.0");
                              f_category := Data (DStr "logic");
                              f_config := undefined |} |}, 1).
Proof.
  destruct (getNodeMetadata_skips_fallback_for_BaseNode_subclasses
              demo_registry "bare" 0 BareNode_class eq_refl eq_refl eq_refl)
    as [N F].
  split; [ exact N | ].
  exact (proj1 (F _ eq_refl)).
Defined.

Lemma register_all_keys (calls : list (string * node_class)) :
  forall (r0 : registry) (t : string),
    In t (getAvailableTypes (register_all calls r0)) <->
    In t (getAvailableTypes r0) \/ In t (List.map fst calls).
Proof.
  unfold register_all, getAvailableTypes.
  induction calls as [ | [k C] rest IH]; intros r0 t; simpl.
  - intuition.
  - rewrite IH. unfold register. simpl. rewrite keys_map_set. intuition.
Qed.

Lemma register_all_NoDup (calls : list (string * node_class)) :
  forall r0 : registry,
    NoDup (getAvailableTypes r0) ->
    NoDup (getAvailableTypes (register_all calls r0)).
Proof.
  unfold register_all, getAvailableTypes.
  induction calls as [ | [k C] rest IH]; intros r0 H; simpl.
  - exact H.
  - apply IH. unfold register. simpl. now apply NoDup_map_set.
Qed.

Lemma register_all_get (calls : list (string * node_class)) :
  forall (r0 : registry) (t : string),
    map_get t (register_all calls r0) =
    match last_registered t calls with
    | Some C => Some C
    | None => map_get t r0
    end.
Proof.
  unfold register_all.
  induction calls as [ | [k C] rest IH]; intros r0 t; simpl.
  - reflexivity.
  - rewrite IH. destruct (last_registered t rest); [ reflexivity | ].
    unfold register. simpl. destruct (String.eqb t k) eqn:E.
    + apply String.eqb_eq in E. subst k. apply map_get_set_same.
    + now apply map_get_set_other.
Qed.

(** C8: after any sequence of [register] calls on a new registry,
    [getAvailableTypes()] lists each type once, it lists exactly the types
    that were registered, the class stored for a type is the one of the
    latest call that named it, and [create] constructs from that class. *)

Theorem getAvailableTypes_exact_last_registration_wins :
  forall calls : list (string * node_class),
    NoDup (getAvailableTypes (register_all calls empty)) /\
    (forall t, In t (getAvailableTypes (register_all calls empty)) <->
               In t (List.map fst calls)) /\
    (forall t, map_get t (register_all calls empty) = last_registered t calls) /\
    (forall t C config next,
       last_registered t calls = Some C ->
       create (register_all calls empty) t config next = new_ C [config] next).
Proof.
  intro calls.
  assert (G : forall t, map_get t (register_all calls empty) = last_registered t calls).
  { intro t. rewrite register_all_get. now destruct (last_registered t calls). }
  split; [ | split; [ | split ] ].
  - apply register_all_NoDup. constructor.
  - intro t. rewrite register_all_keys. simpl. intuition.
  - exact G.
  - intros t C config next H. unfold create. now rewrite G, H.
Qed.

(** Registering a second class under a name that is taken replaces the
    class and leaves the list of types as it was. *)

Lemma getAvailableTypes_exact_last_registration_wins_witness :
  let calls := [ ("filter", DataFilterNode_class); ("echo", EchoNode_class);
                 ("filter", BareNode_class) ] in
  getAvailableTypes (register_all calls empty) = [ "filter"; "echo" ] /\
  NoDup (getAvailableTypes (register_all calls empty)) /\
  map_get "filter" (register_all calls empty) = Some BareNode_class /\
  create (register_all calls empty) "filter" undefined 0 =
    new_ BareNode_class [ undefined ] 0.
Proof.
  intro calls.
  destruct (getAvailableTypes_exact_last_registration_wins calls)
    as (N & _ & G & K).
  split; [ reflexivity | ]. split; [ exact N | ].
  split; [ exact (G "filter") | ].
  exact (K "filter" BareNode_class undefined 0 eq_refl).
Defined.

End RegistryFacts.

(* ===================================================================== *)
(** * The built-in nodes *)
(* ===================================================================== *)

Module NodeFacts.

Import SemFacts Examples.
Local Open Scope list_scope.

(** ** Array callbacks that do not throw *)

Lemma filterM_pure {A : Type} (f : A -> exc bool) (p : A -> bool) (l : list A) :
  (forall x, In x l -> f x = Ret (p x)) -> filterM f l = Ret (filter p l).
Proof.
  induction l as [ | x rest IH]; intro H; simpl.
  - reflexivity.
  - rewrite (H x (or_introl eq_refl)), bind_ret.
    rewrite IH by (intros y Hy; apply H; now right).
    rewrite bind_ret. reflexivity.
Qed.

Lemma everyM_pure {A : Type} (f : A -> exc bool) (p : A -> bool) (l : list A) :
  (forall x, In x l -> f x = Ret (p x)) -> everyM f l = Ret (forallb p l).
Proof.
  induction l as [ | x rest IH]; intro H; simpl.
  - reflexivity.
  - rewrite (H x (or_introl eq_refl)), bind_ret.
    destruct (p x); simpl; [ | reflexivity ].
    apply IH. intros y Hy. apply H. now right.
Qed.

Lemma forEachM_ext {A S : Type} (f g : S -> A -> exc S) (l : list A) :
  (forall st x, f st x = g st x) ->
  forall st, forEachM f st l = forEachM g st l.
Proof.
  intro H. induction l as [ | x rest IH]; intro st; simpl.
  - reflexivity.
  - rewrite H. destruct (g st x); simpl; [ apply IH | reflexivity ].
Qed.

Lemma mapM_ext {A B : Type} (f g : A -> exc B) (l : list A) :
  (forall x, f x = g x) -> mapM f l = mapM g l.
Proof.
  intro H. induction l as [ | x rest IH]; simpl.
  - reflexivity.
  - now rewrite H, IH.
Qed.

(** ** The data filter *)

Section DataFilter.

Import DataFilterNode.

Lemma holds_of_returns (item cond : json) :
  returns (evalCondition item cond) -> evalCondition item cond = Ret (holds item cond).
Proof. intros [b H]. unfold holds. now rewrite H. Qed.

Lemma keeps_pure (input item : json) (conds : list json) :
  get input "conditions" = Ret (Data (DArr conds)) ->
  (forall cond, In cond conds -> returns (evalCondition item cond)) ->
  keeps input item = Ret (forallb (holds item) conds).
Proof.
  intros Hc H. unfold keeps. rewrite Hc, bind_ret. simpl as_array. rewrite bind_ret.
  apply everyM_pure. intros c Hin. apply holds_of_returns. now apply H.
Qed.

(** *** Flat records never make a condition raise *)

Lemma to_string_primitive (d : json) :
  primitive d = true -> returns (to_string (Data d)).
Proof.
  unfold returns. destruct d as [ | | [] | | | | ]; simpl; try discriminate; eauto.
Qed.

Lemma to_string_intrinsic (b : builtin) : returns (to_string (Intrinsic b)).
Proof. unfold returns. destruct b; simpl; eauto. Qed.

Lemma to_primitive_of_to_string (v : value) :
  returns (to_string v) -> returns (to_primitive v).
Proof.
  unfold returns. intros [s H].
  destruct v as [[ | | | | | | ] | b]; simpl in *; eauto;
    rewrite H; simpl; eauto.
Qed.

Lemma assoc_forallb {A : Type} (p : A -> bool) (k : string) (l : list (string * A)) (v : A) :
  forallb (fun kv => p (snd kv)) l = true -> assoc k l = Some v -> p v = true.
Proof.
  induction l as [ | [k' v'] rest IH]; simpl; [ discriminate | ].
  intros H. apply Bool.andb_true_iff in H. destruct H as [Hv Hrest].
  destruct (String.eqb k k'); [ intro E; injection E as <-; exact Hv | now apply IH ].
Qed.

Lemma get_flat_record (d : json) (k : string) :
  flat_record d = true ->
  exists v, get (Data d) k = Ret v /\ returns (to_string v).
Proof.
  destruct d; simpl; try discriminate. intro F.
  destruct (assoc k props) as [v | ] eqn:E.
  - exists (Data v). split; [ reflexivity | ].
    apply to_string_primitive. exact (assoc_forallb _ _ _ _ F E).
  - eexists. split; [ reflexivity | ].
    unfold object_prototype_get.
    destruct (String.eqb k "constructor"); [ apply to_string_intrinsic | ].
    destruct (String.eqb k "__proto__"); [ apply to_string_intrinsic | ].
    destruct (has_own k object_prototype_methods);
      [ apply to_string_intrinsic | now apply to_string_primitive ].
Qed.

Lemma get_computed_flat_record (d : json) (key : value) :
  flat_record d = true -> returns (to_string key) ->
  exists v, get_computed (Data d) key = Ret v /\ returns (to_string v).
Proof.
  intros F [k Hk].
  destruct d; try discriminate. unfold get_computed. rewrite Hk, bind_ret.
  now apply get_flat_record.
Qed.

Lemma js_gt_returns (a b : value) :
  returns (to_string a) -> returns (to_string b) -> returns (js_gt a b).
Proof.
  intros Ha Hb. unfold js_gt.
  destruct (to_primitive_of_to_string _ Ha) as [pa ->].
  destruct (to_primitive_of_to_string _ Hb) as [pb ->].
  simpl. unfold returns. eauto.
Qed.

Lemma js_lt_returns (a b : value) :
  returns (to_string a) -> returns (to_string b) -> returns (js_lt a b).
Proof.
  intros Ha Hb. unfold js_lt.
  destruct (to_primitive_of_to_string _ Ha) as [pa ->].
  destruct (to_primitive_of_to_string _ Hb) as [pb ->].
  simpl. unfold returns. eauto.
Qed.

Lemma evalCondition_flat_records (item cond : json) :
  flat_record item = true -> flat_record cond = true ->
  returns (evalCondition item cond).
Proof.
  intros Fi Fc. unfold evalCondition.
  destruct (get_flat_record cond "field" Fc) as (field & -> & Hfield).
  rewrite bind_ret.
  destruct (get_computed_flat_record item field Fi Hfield) as (fieldValue & -> & Hfv).
  rewrite bind_ret.
  destruct (get_flat_record cond "operator" Fc) as (operator & -> & _).
  rewrite bind_ret.
  destruct (get_flat_record cond "value" Fc) as (v & Hv & Hvs).
  destruct (strict_eq operator (Data (DStr "equals")));
    [ rewrite Hv; simpl; unfold returns; eauto | ].
  destruct (strict_eq operator (Data (DStr "not_equals")));
    [ rewrite Hv; simpl; unfold returns; eauto | ].
  destruct (strict_eq operator (Data (DStr "greater_than")));
    [ rewrite Hv, bind_ret; now apply js_gt_returns | ].
  destruct (strict_eq operator (Data (DStr "less_than")));
    [ rewrite Hv, bind_ret; now apply js_lt_returns | ].
  destruct (strict_eq operator (Data (DStr "contains"))).
  - destruct Hfv as [hay ->]. rewrite bind_ret, Hv, bind_ret.
    destruct Hvs as [needle ->]. simpl. unfold returns. eauto.
  - unfold returns. eauto.
Qed.

(** C6 (counterexample): [data] is the array [[null]] and [conditions] is
    an array with one condition, yet [execute] does not succeed: reading
    [item[condition.field]] on the [null] item raises a TypeError, which the
    [catch] block turns into a failure envelope. *)


(** When no condition raises, the monadic filter is the pure one. *)

Lemma execute_filters_pure
    (input : json) (items conds : list json) (startTime endTime : Z) :
  get input "data" = Ret (Data (DArr items)) ->
  get input "conditions" = Ret (Data (DArr conds)) ->
  (forall item cond,
     In item items -> In cond conds -> returns (evalCondition item cond)) ->
  let kept := filter (fun item => forallb (holds item) conds) items in
  execute input startTime endTime =
    Ret {| success := true;
           data := Some {| filtered := kept;
                            filtered_count := Z.of_nat (List.length kept) |};
           error := None;
           metrics := Some {| executionTime := endTime - startTime;
                              recordsProcessed := Z.of_nat (List.length kept) |} |}.
Proof.
  intros Hd Hc H kept.
  unfold execute. rewrite Hd, bind_ret. simpl as_array. rewrite bind_ret.
  rewrite (filterM_pure _ (fun item => forallb (holds item) conds)).
  - reflexivity.
  - intros item Hin. apply keeps_pure; [ exact Hc | ].
    intros cond Hcond. now apply H.
Qed.

(** *** The operators on scalar values *)





(** On a comparable pair the callback of [every] computes what the
    operator means. *)





(** C6 (amended).  For every input whose [data] and [conditions] are
    arrays and on which every condition can be evaluated on every data item
    without raising, [execute] succeeds; [filtered] is a subsequence of
    [data], chosen item by item, and [filtered_count] and
    [recordsProcessed] are its length.  When moreover the data items are
    records, the conditions are objects [{field, operator, value}] and the
    values compared are scalars ([undefined] for a missing field, [null],
    booleans, integers of magnitude at most [2^53 - 1], strings), those
    compared by [greater_than] and [less_than] being two such integers or
    two strings, [filtered] is exactly the records that satisfy every
    condition under the operator semantics: [equals] and [not_equals]
    compare the two values, [greater_than] and [less_than] order two
    integers as integers and two strings as strings, [contains] looks for
    the text of the value in the text of the field, and any other operator
    is satisfied by no record.  In particular the three records with ages
    25, 31 and 40 under [age greater_than 30] give the records with ages 31
    and 40 and the count 2. *)


(** Three employees, filtered by age and by having a team. *)


(** X4: on flat records the filter always succeeds.  When every element
    of [data] and of [conditions] is an object all of whose own properties
    are primitives, no condition can raise on any item, so [execute]
    succeeds; [filtered] is a subsequence of [data], chosen item by item,
    and [filtered_count] and [recordsProcessed] are its length. *)

Theorem execute_filters_flat_records :
  forall (input : json) (items conds : list json) (startTime endTime : Z),
    get input "data" = Ret (Data (DArr items)) ->
    get input "conditions" = Ret (Data (DArr conds)) ->
    forallb flat_record items = true ->
    forallb flat_record conds = true ->
    exists keep : json -> bool,
      let kept := filter keep items in
      execute input startTime endTime =
        Ret {| success := true;
               data := Some {| filtered := kept;
                                filtered_count := Z.of_nat (List.length kept) |};
               error := None;
               metrics := Some {| executionTime := endTime - startTime;
                                  recordsProcessed := Z.of_nat (List.length kept) |} |}.
Proof.
  intros input items conds startTime endTime Hd Hc Fi Fc.
  exists (fun item => forallb (holds item) conds).
  apply execute_filters_pure; try assumption.
  intros item cond Hitem Hcond. apply evalCondition_flat_records.
  - rewrite forallb_forall in Fi. now apply Fi.
  - rewrite forallb_forall in Fc. now apply Fc.
Qed.

Lemma execute_filters_flat_records_witness :
  exists keep : json -> bool,
    execute filter_input 1000 1004 =
      Ret {| success := true;
             data := Some {| filtered := filter keep [ age 25; age 31; age 40 ];
                              filtered_count :=
                                Z.of_nat (List.length
                                            (filter keep [ age 25; age 31; age 40 ])) |};
             error := None;
             metrics := Some {| executionTime := 1004 - 1000;
                                recordsProcessed :=
                                  Z.of_nat (List.length
                                              (filter keep [ age 25; age 31; age 40 ])) |} |}.
Proof.
  exact (execute_filters_flat_records filter_input
           [ age 25; age 31; age 40 ]
           [ DObj [ ("field", DStr "age"); ("operator", DStr "greater_than");
                    ("value", DNum 30) ] ]
           1000%Z 1004%Z eq_refl eq_refl eq_refl eq_refl).
Defined.

End DataFilter.

(** ** The field mapper *)

Section FieldMapper.

Import FieldMapperNode.

(** C7: on the single source object [{first_name: "John"}] with the one
    mapping [first_name -> firstName] of kind [rename], [execute] succeeds,
    [mapped] is the single object [{firstName: "John"}] (not an array) and
    [recordsProcessed] is 1, whatever the engine does with function bodies
    and whatever the clock reads. *)

Theorem execute_renames_single_object :
  forall (evalFunction : string -> value -> exc value) (startTime endTime : Z),
    execute evalFunction rename_input startTime endTime =
      Ret {| success := true;
             data := Some {| mapped :=
                      MappedObject {| own := [ ("firstName", Data (DStr "John")) ];
                                      proto := Intrinsic ObjectPrototype |} |};
             error := None;
             metrics := Some {| executionTime := endTime - startTime;
                                recordsProcessed := 1 |} |}.
Proof. intros evalFunction startTime endTime. reflexivity. Qed.

(** The first step of every mapping reads a field of the item: on a
    [null] item it raises. *)

Lemma applyMapping_null_item (evalFunction : string -> value -> exc value)
    (result : jsobject) (mapping : json) :
  exists e, applyMapping evalFunction (Data DNull) result mapping = Throw e.
Proof.
  unfold applyMapping.
  destruct (get mapping "sourceField") as [field | e]; simpl; eauto.
Qed.

(** C10: when [input.source] is [null] and [input.mapping] is an array,
    [validate] returns true; and when that array is not empty [execute]
    nevertheless returns a failure envelope. *)

Theorem validate_accepts_null_source_that_execute_rejects :
  forall (evalFunction : string -> value -> exc value)
         (input : json) (mappings : list json) (startTime endTime : Z),
    get input "source" = Ret (Data DNull) ->
    get input "mapping" = Ret (Data (DArr mappings)) ->
    validate input = Ret true /\
    (mappings <> [] ->
     exists message,
       execute evalFunction input startTime endTime =
         Ret {| success := false;
                data := None;
                error := Some message;
                metrics := None |}).
Proof.
  intros evalFunction input mappings startTime endTime Hs Hm. split.
  - unfold validate. rewrite (get_returns_validates _ _ _ Hs), Hs, Hm, !bind_ret.
    reflexivity.
  - intro N. destruct mappings as [ | m0 rest]; [ contradiction | ].
    unfold execute. rewrite Hs, bind_ret. simpl mapM.
    unfold mapItem. rewrite Hm, bind_ret. simpl as_array. rewrite bind_ret.
    simpl forEachM.
    destruct (applyMapping_null_item evalFunction empty_object m0) as [e ->].
    simpl. eauto.
Qed.

Lemma validate_accepts_null_source_that_execute_rejects_witness :
  validate null_source_input = Ret true /\
  exists message,
    execute rejecting_engine null_source_input 0 1 =
      Ret {| success := false;
             data := None;
             error := Some message;
             metrics := None |}.
Proof.
  destruct (validate_accepts_null_source_that_execute_rejects rejecting_engine
              null_source_input _ 0%Z 1%Z eq_refl eq_refl) as [V E].
  split; [ exact V | apply E; discriminate ].
Defined.

(** C3 (counterexample): the function body of the mapping does not
    compile, yet [execute] does not report a failure: the inner [catch]
    stores the source value and the envelope says [success: true]. *)


End FieldMapper.

(** ** Every execution yields an envelope *)

Ltac settle :=
  eexists; split;
  [ reflexivity
  | first [ left; unfold succeeded; cbn; repeat split; eauto; fail
          | right; unfold failed; cbn; repeat split; eauto ] ].


Lemma FieldMapper_execute_settles (evalFunction : string -> value -> exc value)
    (input : json) (startTime endTime : Z) :
  exists r, FieldMapperNode.execute evalFunction input startTime endTime = Ret r /\
            (succeeded r \/ failed r).
Proof.
  unfold FieldMapperNode.execute.
  destruct (get input "source") as [source | e]; cbn [bind try_catch]; [ | settle ].
  match goal with
  | |- context [mapM ?f ?l] => destruct (mapM f l) as [mappedItems | e]
  end; cbn [bind try_catch]; settle.
Qed.


(** ** Custom functions that may not return *)

Section Runs.

Import FieldMapperNode FieldMapperRuns.

Variable evalFunction : string -> value -> run value.



(** A failing call is absorbed by the inner [try], call by call: the
    mapping stores the source value, as the identity function would. *)



(** When every call returns or throws, so does everything built on it. *)

Hypothesis every_call_completes : forall body v, evalFunction body v <> None.






End Runs.

(** With an engine whose every call returns or throws, the run is the
    execution of [FieldMapperNode.execute]. *)


(** C3 (amended): for every input value, [null] and [undefined] and
    malformed shapes included, [execute] of the data filter and of the
    PostgreSQL query node resolves to an envelope, which is either
    [{success: true, data}] or [{success: false, error: message}], and
    nothing is thrown; so does [execute] of the field mapper as long as
    every custom function it calls returns or throws, whereas a custom
    function that never returns keeps the promise pending.  A custom
    function that does not compile or that throws is not a failure of the
    execution: at that call the mapper stores the source value, exactly as
    if the function had been the identity, and goes on.  With functions
    that all return or throw the run is the execution that
    [FieldMapperNode.execute] describes. *)


(** Two function mappings with the same body, one on a string and one on a
    number: the first call returns, the second throws and is absorbed. *)


(** The fourth built-in node does not share the property: the MongoDB
    node reads [input.options] before it enters its [try] statement, so a
    [null] input rejects the promise instead of producing an envelope. *)

Lemma MongoDB_execute_rejects_null_input
    (MongoDBOutput : Type) (attempt : json -> value -> value -> exc (MongoDBOutput * Z))
    (client_close : exc unit) (config : value) (startTime endTime : Z) :
  MongoDBOperationsNode.execute MongoDBOutput attempt client_close
    config DNull startTime endTime =
  Throw (TypeError "Cannot read properties of null (reading 'options')").
Proof. reflexivity. Qed.

End NodeFacts.

(* ===================================================================== *)
(** * More on the registry *)
(* ===================================================================== *)

Module RegistryQueriesFacts.

Import NodeRegistry RegistryQueries SemFacts Examples.
Local Open Scope list_scope.

Lemma getNodeMetadata_allocator (r : registry) (t : string) (n m : nat) :
  fst (getNodeMetadata r t n) = fst (getNodeMetadata r t m).
Proof.
  unfold getNodeMetadata.
  destruct (map_get t r) as [C | ]; [ | reflexivity ].
  destruct (static_getMetadata C) as [call | ]; [ reflexivity | ].
  unfold new_. destruct (class_constructor C []); reflexivity.
Qed.

Lemma getNodeMetadata_answers (r : registry) (t : string) (n : nat) :
  exists n', getNodeMetadata r t n = (Ret (metadata_of r t), n') /\ n <= n' /\
             ((forall C, map_get t r = Some C -> static_getMetadata C <> None) -> n' = n).
Proof.
  unfold metadata_of. rewrite (getNodeMetadata_allocator r t 0 n).
  unfold getNodeMetadata.
  destruct (map_get t r) as [C | ]; [ | exists n; auto ].
  destruct (static_getMetadata C) as [[md | e] | ] eqn:St; simpl.
  - exists n. auto.
  - exists n. auto.
  - exists (S n). repeat split; [ | lia | intro H; now destruct (H C eq_refl) ].
    destruct (class_constructor C []); reflexivity.
Qed.

Lemma metadata_of_unregistered (r : registry) (t : string) :
  map_get t r = None -> metadata_of r t = None.
Proof. intro H. unfold metadata_of, getNodeMetadata. now rewrite H. Qed.

Lemma assoc_metadata_set (k t : string) (v : NodeMetadata) (m : metadata_map) :
  assoc t (metadata_set k v m) = if String.eqb t k then Some v else assoc t m.
Proof.
  induction m as [ | [k' v'] rest IH]; simpl.
  - reflexivity.
  - destruct (String.eqb k k') eqn:E; simpl.
    + apply String.eqb_eq in E. subst k'. now destruct (String.eqb t k).
    + rewrite IH. destruct (String.eqb t k') eqn:E'; [ | reflexivity ].
      apply String.eqb_eq in E'. subst k'.
      destruct (String.eqb t k) eqn:E''; [ | reflexivity ].
      apply String.eqb_eq in E''. subst k. now rewrite String.eqb_refl in E.
Qed.

Lemma has_key_assoc {A : Type} (k : string) (m : list (string * A)) :
  has_key k m = false -> assoc k m = None.
Proof.
  unfold has_key. induction m as [ | [k' v] rest IH]; simpl; [ reflexivity | ].
  destruct (String.eqb k k'); simpl; [ discriminate | exact IH ].
Qed.

Lemma assoc_in_keys {A : Type} (k : string) (m : list (string * A)) (v : A) :
  assoc k m = Some v -> In k (List.map fst m).
Proof.
  induction m as [ | [k' v'] rest IH]; simpl; [ discriminate | ].
  destruct (String.eqb k k') eqn:E.
  - apply String.eqb_eq in E. auto.
  - auto.
Qed.

Lemma in_keys_assoc {A : Type} (k : string) (m : list (string * A)) :
  In k (List.map fst m) -> exists v, assoc k m = Some v.
Proof.
  induction m as [ | [k' v'] rest IH]; simpl; [ intros [] | ].
  destruct (String.eqb k k') eqn:E; [ eauto | ].
  intros [-> | H]; [ now rewrite String.eqb_refl in E | auto ].
Qed.

(** The loop, for any entries left and any map filled so far. *)

Lemma collect_spec (r : registry) :
  forall (entries : registry) (acc : metadata_map) (next : nat),
  exists m next',
    collect r entries acc next = (Ret m, next') /\
    next <= next' /\
    ((forall t C, map_get t r = Some C -> static_getMetadata C <> None) ->
     next' = next) /\
    forall t,
      assoc t m =
      if has_key t entries
      then match metadata_of r t with Some md => Some md | None => assoc t acc end
      else assoc t acc.
Proof.
  induction entries as [ | [k C] rest IH]; intros acc next.
  - exists acc, next. simpl. auto.
  - cbn [collect].
    destruct (getNodeMetadata_answers r k next) as (n1 & -> & Hle & Hsame).
    destruct (metadata_of r k) as [md | ] eqn:M.
    + destruct (IH (metadata_set k md acc) n1) as (m & n2 & -> & Hle2 & Hsame2 & Hm).
      exists m, n2. split; [ reflexivity | ]. split; [ lia | ].
      split.
      { intro H. rewrite (Hsame2 H). apply Hsame. intros C0. apply H. }
      intro t. rewrite Hm, assoc_metadata_set. unfold has_key at 2. simpl.
      fold (has_key t rest).
      destruct (String.eqb t k) eqn:E; simpl.
      * apply String.eqb_eq in E. subst k. rewrite M.
        now destruct (has_key t rest).
      * reflexivity.
    + destruct (IH acc n1) as (m & n2 & -> & Hle2 & Hsame2 & Hm).
      exists m, n2. split; [ reflexivity | ]. split; [ lia | ].
      split.
      { intro H. rewrite (Hsame2 H). apply Hsame. intros C0. apply H. }
      intro t. rewrite Hm. unfold has_key at 2. simpl. fold (has_key t rest).
      destruct (String.eqb t k) eqn:E; simpl; [ | reflexivity ].
      apply String.eqb_eq in E. subst k. rewrite M.
      now destruct (has_key t rest).
Qed.

(** X5: [getAllNodesMetadata] never throws; the map it returns holds, for
    every type, exactly the descriptor that [getNodeMetadata] returns for
    that type and no entry where [getNodeMetadata] returns [null]; its keys
    are registered types; and when every registered class has a static
    [getMetadata], no instance is constructed on the way. *)

Theorem getAllNodesMetadata_collects_what_getNodeMetadata_returns :
  forall (r : registry) (next : nat),
  exists (m : metadata_map) (next' : nat),
    getAllNodesMetadata r next = (Ret m, next') /\
    (forall t n,
       assoc t m = match fst (getNodeMetadata r t n) with
                   | Ret (Some md) => Some md
                   | _ => None
                   end) /\
    (forall t, In t (List.map fst m) -> In t (getAvailableTypes r)) /\
    next <= next' /\
    ((forall t C, map_get t r = Some C -> static_getMetadata C <> None) ->
     next' = next).
Proof.
  intros r next. unfold getAllNodesMetadata.
  destruct (collect_spec r r [] next) as (m & next' & E & Hle & Hsame & Hm).
  assert (L : forall t, assoc t m = metadata_of r t).
  { intro t. rewrite Hm. simpl.
    destruct (has_key t r) eqn:K.
    - now destruct (metadata_of r t).
    - symmetry. apply metadata_of_unregistered. now apply has_key_assoc. }
  exists m, next'. split; [ exact E | ]. split; [ | split; [ | split ] ].
  - intros t n. rewrite L. unfold metadata_of.
    now rewrite (getNodeMetadata_allocator r t 0 n).
  - intros t Hin. destruct (in_keys_assoc _ _ Hin) as [md Hmd].
    rewrite L in Hmd. unfold getAvailableTypes.
    destruct (map_get t r) as [C | ] eqn:G.
    + exact (assoc_in_keys _ _ _ G).
    + rewrite (metadata_of_unregistered _ _ G) in Hmd. discriminate.
  - exact Hle.
  - exact Hsame.
Qed.

(** X6: [existsByTypeAndVersion] does not look at the version: it answers
    true for a type exactly when the type is registered, for every version
    string, so also for a version the registered class does not have. *)

Theorem existsByTypeAndVersion_ignores_version :
  forall (r : registry) (t version : string),
    (existsByTypeAndVersion r t version = true <-> In t (getAvailableTypes r)) /\
    (forall version', existsByTypeAndVersion r t version' =
                      existsByTypeAndVersion r t version) /\
    (forall C, existsByTypeAndVersion (register C t r) t version = true).
Proof.
  intros r t version. unfold existsByTypeAndVersion. split; [ | split ].
  - unfold getAvailableTypes. destruct (map_get t r) as [C | ] eqn:G.
    + split; [ intros _; exact (assoc_in_keys _ _ _ G) | reflexivity ].
    + split; [ discriminate | ].
      intro H. destruct (in_keys_assoc _ _ H) as [C H']. unfold map_get in G. congruence.
  - reflexivity.
  - intro C. unfold register.
    induction r as [ | [k' v'] rest IH]; simpl.
    + unfold map_get. simpl. now rewrite String.eqb_refl.
    + destruct (String.eqb t k') eqn:E; unfold map_get in *; simpl; now rewrite E.
Qed.

End RegistryQueriesFacts.

(* ===================================================================== *)
(** * More on the compatibility validator *)
(* ===================================================================== *)

Module CompatibilityMoreFacts.

Import CompatibilityValidator CompatibilityDetails SemFacts CompatibilityFacts.
Local Open Scope list_scope.

Ltac key_case s k :=
  let E := fresh "E" in
  destruct (String.eqb s k) eqn:E;
  [ apply String.eqb_eq in E; subst s | ].

(** Every declared entry is [full] or [partial], and the reverse pair is
    declared too. *)

Lemma declared_entries (s t : string) (d : json) :
  declared s t = Some d ->
  (d = DStr "full" \/ d = DStr "partial") /\ declared t s <> None.
Proof.
  unfold declared at 1. unfold matrix_rows, matrix. cbn [assoc].
  key_case s "postgresql-query".
  { cbn [assoc].
    key_case t "data-filter"; [ intro H; injection H as <-; split; [ auto | discriminate ] | ].
    key_case t "field-mapper"; [ intro H; injection H as <-; split; [ auto | discriminate ] | ].
    key_case t "mongodb-operations"; [ intro H; injection H as <-; split; [ auto | discriminate ] | ].
    discriminate. }
  key_case s "mongodb-operations".
  { cbn [assoc].
    key_case t "data-filter"; [ intro H; injection H as <-; split; [ auto | discriminate ] | ].
    key_case t "field-mapper"; [ intro H; injection H as <-; split; [ auto | discriminate ] | ].
    key_case t "postgresql-query"; [ intro H; injection H as <-; split; [ auto | discriminate ] | ].
    key_case t "mongodb-operations"; [ intro H; injection H as <-; split; [ auto | discriminate ] | ].
    discriminate. }
  key_case s "data-filter".
  { cbn [assoc].
    key_case t "field-mapper"; [ intro H; injection H as <-; split; [ auto | discriminate ] | ].
    key_case t "mongodb-operations"; [ intro H; injection H as <-; split; [ auto | discriminate ] | ].
    key_case t "postgresql-query"; [ intro H; injection H as <-; split; [ auto | discriminate ] | ].
    discriminate. }
  key_case s "field-mapper".
  { cbn [assoc].
    key_case t "mongodb-operations"; [ intro H; injection H as <-; split; [ auto | discriminate ] | ].
    key_case t "postgresql-query"; [ intro H; injection H as <-; split; [ auto | discriminate ] | ].
    key_case t "data-filter"; [ intro H; injection H as <-; split; [ auto | discriminate ] | ].
    discriminate. }
  discriminate.
Qed.

Lemma declared_symmetric (s t : string) :
  declared s t = None <-> declared t s = None.
Proof.
  split; intro H.
  - destruct (declared t s) as [d | ] eqn:D; [ | reflexivity ].
    destruct (declared_entries _ _ _ D) as [_ N]. contradiction.
  - destruct (declared s t) as [d | ] eqn:D; [ | reflexivity ].
    destruct (declared_entries _ _ _ D) as [_ N]. contradiction.
Qed.

(** What [check] returns on names that are not inherited ones. *)

Lemma check_plain_answer (s t : string) :
  inherited_name s = false -> inherited_name t = false ->
  exists l,
    check s t = Ret {| level := Data (DStr l); valid := negb (String.eqb l "none") |} /\
    (l = "full" \/ l = "partial" \/ l = "none") /\
    (l = "none" <-> declared s t = None).
Proof.
  intros Hs Ht.
  assert (E : check s t =
              match declared s t with
              | Some d => Ret {| level := or_else (Data d) (Data (DStr "none"));
                                 valid := negb (strict_eq (or_else (Data d) (Data (DStr "none")))
                                                          (Data (DStr "none"))) |}
              | None => Ret none_result
              end).
  { unfold check, declared. change matrix with (DObj matrix_rows).
    rewrite (get_plain_object _ _ Hs), bind_ret.
    destruct (assoc s matrix_rows) as [row | ] eqn:R; [ | reflexivity ].
    destruct (matrix_rows_are_objects _ _ R) as [cells ->].
    unfold get_optional. rewrite (get_plain_object _ _ Ht), bind_ret.
    destruct (assoc t cells); reflexivity. }
  rewrite E. destruct (declared s t) as [d | ] eqn:D.
  - destruct (declared_entries _ _ _ D) as [[-> | ->] _].
    + exists "full". split; [ reflexivity | ]. split; [ auto | ].
      split; discriminate.
    + exists "partial". split; [ reflexivity | ]. split; [ auto | ].
      split; discriminate.
  - exists "none". split; [ reflexivity | ]. split; [ auto | ]. split; reflexivity.
Qed.

(** X7: on type names that are not names inherited from
    %Object.prototype%, [check] stays inside the enumeration and uses only
    three of its four levels ([full], [partial], [none], never
    [conditional]); [valid] is true exactly when the level is not [none];
    and whether two types are compatible at all does not depend on the
    direction, although the level may. *)

Theorem check_plain_levels_and_symmetry :
  forall s t : string,
    inherited_name s = false -> inherited_name t = false ->
    exists l l' : string,
      check s t = Ret {| level := Data (DStr l);
                         valid := negb (String.eqb l "none") |} /\
      check t s = Ret {| level := Data (DStr l');
                         valid := negb (String.eqb l' "none") |} /\
      (l = "full" \/ l = "partial" \/ l = "none") /\
      (l = "none" <-> l' = "none").
Proof.
  intros s t Hs Ht.
  destruct (check_plain_answer s t Hs Ht) as (l & E & R & N).
  destruct (check_plain_answer t s Ht Hs) as (l' & E' & _ & N').
  exists l, l'. repeat split; try assumption.
  - intro H. apply N'. apply declared_symmetric. now apply N.
  - intro H. apply N. apply declared_symmetric. now apply N'.
Qed.

(** A pair that is [full] one way and [partial] the other. *)

Lemma check_plain_levels_and_symmetry_witness :
  exists l l' : string,
    check "postgresql-query" "data-filter"
      = Ret {| level := Data (DStr l); valid := negb (String.eqb l "none") |} /\
    check "data-filter" "postgresql-query"
      = Ret {| level := Data (DStr l'); valid := negb (String.eqb l' "none") |} /\
    (l = "full" \/ l = "partial" \/ l = "none") /\
    (l = "none" <-> l' = "none").
Proof.
  exact (check_plain_levels_and_symmetry "postgresql-query" "data-filter"
           eq_refl eq_refl).
Defined.

Lemma details_rows_are_objects (s : string) (row : json) :
  assoc s details_rows = Some row -> exists cells, row = DObj cells.
Proof.
  unfold details_rows, compatibilityMap. cbn [assoc].
  destruct (String.eqb s "postgresql-query"); [ intro H; injection H as <-; eauto | ].
  destruct (String.eqb s "mongodb-operations"); [ intro H; injection H as <-; eauto | ].
  destruct (String.eqb s "data-filter"); [ intro H; injection H as <-; eauto | ].
  destruct (String.eqb s "field-mapper"); [ intro H; injection H as <-; eauto | ].
  discriminate.
Qed.

(** Every recorded explanation is a non-empty string about a pair that
    involves the MongoDB node and that the matrix declares compatible. *)

Lemma recorded_entries (s t : string) (d : json) :
  recorded s t = Some d ->
  truthy (Data d) = true /\
  (s = "mongodb-operations" \/ t = "mongodb-operations") /\
  declared s t <> None.
Proof.
  unfold recorded, compatibilityMap. cbn [assoc].
  key_case s "postgresql-query".
  { cbn [assoc].
    key_case t "mongodb-operations";
      [ intro H; injection H as <-; repeat split; [ auto | discriminate ] | ].
    discriminate. }
  key_case s "mongodb-operations".
  { cbn [assoc].
    key_case t "data-filter";
      [ intro H; injection H as <-; repeat split; [ auto | discriminate ] | ].
    key_case t "field-mapper";
      [ intro H; injection H as <-; repeat split; [ auto | discriminate ] | ].
    key_case t "postgresql-query";
      [ intro H; injection H as <-; repeat split; [ auto | discriminate ] | ].
    key_case t "mongodb-operations";
      [ intro H; injection H as <-; repeat split; [ auto | discriminate ] | ].
    discriminate. }
  key_case s "data-filter".
  { cbn [assoc].
    key_case t "mongodb-operations";
      [ intro H; injection H as <-; repeat split; [ auto | discriminate ] | ].
    discriminate. }
  key_case s "field-mapper".
  { cbn [assoc].
    key_case t "mongodb-operations";
      [ intro H; injection H as <-; repeat split; [ auto | discriminate ] | ].
    discriminate. }
  discriminate.
Qed.

(** X8: on type names that are not inherited names,
    [getMongoDBCompatibilityDetails] returns the recorded explanation when
    there is one and the fixed fallback text otherwise; an explanation is
    only ever recorded for a pair that involves ['mongodb-operations'] and
    that [check] reports as compatible. *)

Theorem getMongoDBCompatibilityDetails_agrees_with_check :
  forall s t : string,
    inherited_name s = false -> inherited_name t = false ->
    match recorded s t with
    | Some d =>
        getMongoDBCompatibilityDetails s t = Ret (Data d) /\
        (s = "mongodb-operations" \/ t = "mongodb-operations") /\
        exists c, check s t = Ret c /\ valid c = true
    | None =>
        getMongoDBCompatibilityDetails s t = Ret (Data (DStr no_details))
    end.
Proof.
  intros s t Hs Ht.
  assert (E : getMongoDBCompatibilityDetails s t =
              match recorded s t with
              | Some d => Ret (or_else (Data d) (Data (DStr no_details)))
              | None => Ret (Data (DStr no_details))
              end).
  { unfold getMongoDBCompatibilityDetails, recorded.
    change compatibilityMap with (DObj details_rows).
    rewrite (get_plain_object _ _ Hs), bind_ret.
    destruct (assoc s details_rows) as [row | ] eqn:R; [ | reflexivity ].
    destruct (details_rows_are_objects _ _ R) as [cells ->].
    unfold get_optional. rewrite (get_plain_object _ _ Ht), bind_ret.
    destruct (assoc t cells); reflexivity. }
  rewrite E. destruct (recorded s t) as [d | ] eqn:D; [ | reflexivity ].
  destruct (recorded_entries _ _ _ D) as (T & M & N).
  unfold or_else. rewrite T. split; [ reflexivity | ]. split; [ exact M | ].
  destruct (check_plain_answer s t Hs Ht) as (l & C & _ & L).
  eexists. split; [ exact C | ]. simpl.
  destruct (String.eqb l "none") eqn:El; [ | reflexivity ].
  apply String.eqb_eq in El. apply L in El. contradiction.
Qed.

Lemma getMongoDBCompatibilityDetails_agrees_with_check_witness :
  getMongoDBCompatibilityDetails "data-filter" "mongodb-operations" =
    Ret (Data (DStr "Filtered data can be used for MongoDB insert/update operations or as query criteria")) /\
  ("data-filter" = "mongodb-operations" \/ "mongodb-operations" = "mongodb-operations") /\
  exists c, check "data-filter" "mongodb-operations" = Ret c /\ valid c = true.
Proof.
  exact (getMongoDBCompatibilityDetails_agrees_with_check
           "data-filter" "mongodb-operations" eq_refl eq_refl).
Defined.

End CompatibilityMoreFacts.

(* ===================================================================== *)
(** * More on the data filter *)
(* ===================================================================== *)

Module DataFilterMoreFacts.

Import DataFilterNode DataFilterRequests SemFacts NodeFacts.
Local Open Scope list_scope.

Lemma filterM_inversion {A : Type} (f : A -> exc bool) (l kept : list A) :
  filterM f l = Ret kept ->
  kept = filter (fun x => answer (f x)) l /\ forall x, In x l -> returns (f x).
Proof.
  revert kept. induction l as [ | x rest IH]; simpl; intros kept H.
  - injection H as <-. split; [ reflexivity | intros x [] ].
  - destruct (f x) as [b | e] eqn:Fx; [ | discriminate ].
    rewrite bind_ret in H.
    destruct (filterM f rest) as [k | e]; [ | discriminate ].
    rewrite bind_ret in H. injection H as <-.
    destruct (IH k eq_refl) as [-> Hall]. split.
    + simpl. now destruct b.
    + intros y [<- | Hy]; [ unfold returns; eauto | now apply Hall ].
Qed.

Lemma filter_length_le {A : Type} (p : A -> bool) (l : list A) :
  List.length (filter p l) <= List.length l.
Proof.
  induction l as [ | x rest IH]; simpl; [ lia | ].
  destruct (p x); simpl; lia.
Qed.

(** X9: whenever [execute] reports success, [input.data] was an array,
    [filtered] is, in order, exactly the items of it on which the callback
    returned true, no evaluation raised on any item, and [filtered_count]
    and [recordsProcessed] are both the length of [filtered], which is at
    most the length of [data]. *)

Theorem execute_success_is_sound :
  forall (input : json) (startTime endTime : Z) (r : NodeResult DataFilterOutput),
    execute input startTime endTime = Ret r ->
    success r = true ->
    exists (items : list json) (out : DataFilterOutput),
      get input "data" = Ret (Data (DArr items)) /\
      data r = Some out /\
      filtered out = filter (passes input) items /\
      (forall item, In item items -> returns (keeps input item)) /\
      filtered_count out = Z.of_nat (List.length (filtered out)) /\
      metrics r = Some {| executionTime := endTime - startTime;
                          recordsProcessed := Z.of_nat (List.length (filtered out)) |} /\
      List.length (filtered out) <= List.length items.
Proof.
  intros input startTime endTime r E S. unfold execute in E.
  destruct (get input "data") as [d | e] eqn:D; cbn [bind try_catch] in E;
    [ | injection E as <-; discriminate ].
  destruct d as [[ | | | | | items | ] | b]; cbn [as_array bind try_catch] in E;
    try (injection E as <-; discriminate).
  destruct (filterM (keeps input) items) as [kept | e] eqn:F;
    cbn [bind try_catch] in E; [ | injection E as <-; discriminate ].
  injection E as <-.
  destruct (filterM_inversion _ _ _ F) as [-> Hall].
  eexists; eexists. repeat split; try reflexivity.
  - exact Hall.
  - apply filter_length_le.
Qed.

Lemma execute_success_is_sound_witness :
  exists (items : list json) (out : DataFilterOutput),
    get Examples.filter_input "data" = Ret (Data (DArr items)) /\
    filtered out = filter (passes Examples.filter_input) items /\
    filtered out = [ Examples.age 31; Examples.age 40 ] /\
    List.length (filtered out) <= List.length items.
Proof.
  destruct (execute_success_is_sound Examples.filter_input 1000 1004 _
              eq_refl eq_refl)
    as (items & out & H1 & H2 & H3 & _ & _ & _ & H7).
  exists items, out. injection H2 as <-. auto.
Defined.

Lemma filter_all {A : Type} (p : A -> bool) (l : list A) :
  (forall x, p x = true) -> filter p l = l.
Proof.
  intro H. induction l as [ | x rest IH]; simpl; [ reflexivity | ].
  now rewrite H, IH.
Qed.

(** X10: empty inputs.  With an empty [conditions] array every item of
    [data] is kept, [null] and [undefined] items included; with an empty
    [data] array the execution succeeds with nothing, whatever [conditions]
    is, because the callback never runs. *)

Theorem execute_on_empty_conditions_or_data :
  (forall (input : json) (items : list json),
     get input "data" = Ret (Data (DArr items)) ->
     get input "conditions" = Ret (Data (DArr [])) ->
     filtered_of input = Some items) /\
  (forall input : json,
     get input "data" = Ret (Data (DArr [])) ->
     filtered_of input = Some []).
Proof.
  split.
  - intros input items Hd Hc. unfold filtered_of.
    rewrite (execute_filters_pure input items [] 0 0 Hd Hc).
    + cbn [data filtered]. f_equal. apply filter_all. reflexivity.
    + intros item cond _ [].
  - intros input Hd. unfold filtered_of, execute. rewrite Hd. reflexivity.
Qed.

Lemma execute_on_empty_conditions_or_data_witness :
  filtered_of (filter_request [ DNull; DNum 3 ] []) = Some [ DNull; DNum 3 ] /\
  filtered_of (DObj [ ("data", DArr []) ]) = Some [].
Proof.
  split.
  - exact (proj1 execute_on_empty_conditions_or_data
             (filter_request [ DNull; DNum 3 ] []) [ DNull; DNum 3 ] eq_refl eq_refl).
  - exact (proj2 execute_on_empty_conditions_or_data
             (DObj [ ("data", DArr []) ]) eq_refl).
Defined.

(** *** Conditions compose *)

Lemma everyM_app {A : Type} (f : A -> exc bool) (l1 l2 : list A) :
  everyM f (l1 ++ l2) =
  (b <- everyM f l1 ;; if b then everyM f l2 else Ret false).
Proof.
  induction l1 as [ | x rest IH]; simpl.
  - reflexivity.
  - destruct (f x) as [[ | ] | e]; simpl; [ exact IH | reflexivity | reflexivity ].
Qed.

Lemma filterM_compose {A : Type} (f g : A -> exc bool) (l : list A) :
  to_option (filterM (fun x => b <- f x ;; if b then g x else Ret false) l) =
  match to_option (filterM f l) with
  | Some mid => to_option (filterM g mid)
  | None => None
  end.
Proof.
  set (h := fun x => b <- f x ;; if b then g x else Ret false).
  induction l as [ | x rest IH]; [ reflexivity | ].
  cbn [filterM]. unfold h at 1.
  destruct (f x) as [[ | ] | e] eqn:Fx; cbn [bind].
  - destruct (filterM f rest) as [mid | e'] eqn:Frest;
      destruct (filterM h rest) as [k | e3] eqn:Hrest;
      cbn [bind to_option filterM] in *;
      destruct (g x) as [b | e] eqn:Gx; cbn [bind to_option];
      try reflexivity.
    + destruct (filterM g mid) as [k' | e'']; cbn [bind to_option] in *;
        [ injection IH as ->; reflexivity | discriminate ].
    + destruct (filterM g mid) as [k' | e'']; cbn [bind to_option] in *;
        [ discriminate | reflexivity ].
    + discriminate.
  - destruct (filterM f rest) as [mid | e'] eqn:Frest;
      destruct (filterM h rest) as [k | e3] eqn:Hrest;
      cbn [bind to_option] in *; try discriminate; try reflexivity; exact IH.
  - reflexivity.
Qed.

Lemma filterM_ext {A : Type} (f g : A -> exc bool) (l : list A) :
  (forall x, f x = g x) -> filterM f l = filterM g l.
Proof.
  intro H. induction l as [ | x rest IH]; simpl; [ reflexivity | ].
  now rewrite H, IH.
Qed.

Lemma filterM_idempotent {A : Type} (f : A -> exc bool) (l : list A) :
  forall kept, filterM f l = Ret kept -> filterM f kept = Ret kept.
Proof.
  induction l as [ | x rest IH]; simpl; intros kept H.
  - injection H as <-. reflexivity.
  - destruct (f x) as [b | e] eqn:Fx; [ | discriminate ].
    rewrite bind_ret in H.
    destruct (filterM f rest) as [k | e]; [ | discriminate ].
    rewrite bind_ret in H. injection H as <-.
    specialize (IH k eq_refl).
    destruct b; [ | exact IH ].
    simpl. now rewrite Fx, bind_ret, IH.
Qed.

(** What a request built from two lists evaluates to. *)

Lemma filtered_of_request (items conds : list json) :
  filtered_of (filter_request items conds) =
  to_option (filterM (fun item => everyM (evalCondition item) conds) items).
Proof.
  unfold filtered_of, execute.
  change (get (Data (filter_request items conds)) "data")
    with (Ret (A := value) (Data (DArr items))).
  rewrite bind_ret. cbn [as_array]. rewrite bind_ret.
  change (filterM (keeps (filter_request items conds)) items)
    with (filterM (fun item => everyM (evalCondition item) conds) items).
  destruct (filterM (fun item => everyM (evalCondition item) conds) items);
    reflexivity.
Qed.

(** X11: conditions compose.  Filtering with the conditions [c1 ++ c2] in
    one request gives what filtering with [c1] and then filtering the
    outcome with [c2] gives: the same records when both succeed, and a
    failure of the one whenever the other fails. *)

Theorem filter_with_appended_conditions_is_filter_twice :
  forall items c1 c2 : list json,
    filtered_of (filter_request items (c1 ++ c2)) =
    match filtered_of (filter_request items c1) with
    | Some mid => filtered_of (filter_request mid c2)
    | None => None
    end.
Proof.
  intros items c1 c2. rewrite !filtered_of_request.
  rewrite (filterM_ext _ (fun item =>
             b <- everyM (evalCondition item) c1 ;;
             if b then everyM (evalCondition item) c2 else Ret false)).
  - rewrite filterM_compose.
    destruct (to_option (filterM (fun item => everyM (evalCondition item) c1) items));
      [ now rewrite filtered_of_request | reflexivity ].
  - intro item. apply everyM_app.
Qed.

(** X12: filtering is idempotent.  Feeding the [filtered] records of a
    successful execution back in with the same conditions succeeds and
    returns them unchanged. *)

Theorem filter_again_changes_nothing :
  forall items conds kept : list json,
    filtered_of (filter_request items conds) = Some kept ->
    filtered_of (filter_request kept conds) = Some kept.
Proof.
  intros items conds kept. rewrite !filtered_of_request.
  destruct (filterM (fun item => everyM (evalCondition item) conds) items)
    as [k | e] eqn:F; [ | discriminate ].
  intro H. injection H as <-.
  now rewrite (filterM_idempotent _ _ _ F).
Qed.

Lemma filter_again_changes_nothing_witness :
  filtered_of (filter_request [ Examples.age 31; Examples.age 40 ]
                 [ condition "age" "greater_than" (DNum 30) ])
  = Some [ Examples.age 31; Examples.age 40 ].
Proof.
  exact (filter_again_changes_nothing
           [ Examples.age 25; Examples.age 31; Examples.age 40 ]
           [ condition "age" "greater_than" (DNum 30) ]
           [ Examples.age 31; Examples.age 40 ] eq_refl).
Defined.

(** *** A record without the field *)

Lemma to_primitive_primitive (v : json) :
  primitive v = true -> to_primitive (Data v) = Ret v.
Proof. destruct v; simpl; try discriminate; reflexivity. Qed.

Lemma is_less_than_undefined (p : json) :
  is_less_than p DUndefined = None /\ is_less_than DUndefined p = None.
Proof.
  split.
  - unfold is_less_than. destruct p; simpl; try reflexivity;
      try (destruct b; reflexivity).
    destruct (string_to_number s); reflexivity.
  - reflexivity.
Qed.

(** X13: a record that has no property [f] (and [f] is not an inherited
    name) reads the field as [undefined].  Against a primitive value it
    therefore never passes [greater_than] or [less_than], passes [equals]
    only against [undefined], passes [not_equals] against everything else,
    is searched as the text ["undefined"] by [contains], and passes no
    condition with an operator outside the five. *)

Theorem conditions_on_a_missing_field :
  forall (props : list (string * json)) (f : string) (v : json),
    assoc f props = None ->
    inherited_name f = false ->
    primitive v = true ->
    evalCondition (DObj props) (condition f "greater_than" v) = Ret false /\
    evalCondition (DObj props) (condition f "less_than" v) = Ret false /\
    evalCondition (DObj props) (condition f "equals" v)
      = Ret (strict_eq undefined (Data v)) /\
    evalCondition (DObj props) (condition f "not_equals" v)
      = Ret (negb (strict_eq undefined (Data v))) /\
    (exists needle,
       to_string (Data v) = Ret needle /\
       evalCondition (DObj props) (condition f "contains" v)
         = Ret (includes "undefined" needle)) /\
    (forall op, known_operator op = false ->
       evalCondition (DObj props) (condition f op v) = Ret false).
Proof.
  intros props f v Hf Hi Hv.
  assert (G : get_computed (Data (DObj props)) (Data (DStr f)) = Ret undefined).
  { unfold get_computed. cbn [to_string json_to_string]. rewrite bind_ret.
    cbn [get]. rewrite Hf. f_equal.
    now apply CompatibilityFacts.object_prototype_get_plain. }
  assert (E : forall op,
            evalCondition (DObj props) (condition f op v) =
            (if strict_eq (Data (DStr op)) (Data (DStr "equals")) then
               Ret (strict_eq undefined (Data v))
             else if strict_eq (Data (DStr op)) (Data (DStr "not_equals")) then
               Ret (negb (strict_eq undefined (Data v)))
             else if strict_eq (Data (DStr op)) (Data (DStr "greater_than")) then
               js_gt undefined (Data v)
             else if strict_eq (Data (DStr op)) (Data (DStr "less_than")) then
               js_lt undefined (Data v)
             else if strict_eq (Data (DStr op)) (Data (DStr "contains")) then
               hay <- to_string undefined ;;
               needle <- to_string (Data v) ;;
               Ret (includes hay needle)
             else Ret false)).
  { intro op. unfold evalCondition, condition.
    change (get (Data (DObj [("field", DStr f); ("operator", DStr op); ("value", v)])) "field")
      with (Ret (A := value) (Data (DStr f))).
    rewrite bind_ret, G, bind_ret.
    change (get (Data (DObj [("field", DStr f); ("operator", DStr op); ("value", v)])) "operator")
      with (Ret (A := value) (Data (DStr op))).
    rewrite bind_ret.
    change (get (Data (DObj [("field", DStr f); ("operator", DStr op); ("value", v)])) "value")
      with (Ret (A := value) (Data v)).
    rewrite !bind_ret. reflexivity. }
  assert (GT : js_gt undefined (Data v) = Ret false).
  { unfold js_gt. rewrite (to_primitive_primitive v Hv).
    change (to_primitive undefined) with (Ret (A := json) DUndefined).
    rewrite !bind_ret. now rewrite (proj1 (is_less_than_undefined v)). }
  assert (LT : js_lt undefined (Data v) = Ret false).
  { unfold js_lt. rewrite (to_primitive_primitive v Hv).
    change (to_primitive undefined) with (Ret (A := json) DUndefined).
    rewrite !bind_ret. now rewrite (proj2 (is_less_than_undefined v)). }
  repeat split.
  - rewrite E. exact GT.
  - rewrite E. exact LT.
  - rewrite E. reflexivity.
  - rewrite E. reflexivity.
  - destruct (to_string_primitive v Hv) as [needle Hn].
    exists needle. split; [ exact Hn | ]. rewrite E, Hn. reflexivity.
  - intros op K. rewrite E. unfold known_operator in K.
    cbn [strict_eq].
    repeat (apply Bool.orb_false_iff in K; destruct K as [K ?]).
    repeat match goal with H : String.eqb op _ = false |- _ => rewrite H; clear H end.
    reflexivity.
Qed.

Lemma conditions_on_a_missing_field_witness :
  evalCondition (DObj [ ("name", DStr "Ann") ]) (condition "age" "greater_than" (DNum 30))
    = Ret false /\
  evalCondition (DObj [ ("name", DStr "Ann") ]) (condition "age" "not_equals" (DNum 30))
    = Ret true /\
  evalCondition (DObj [ ("name", DStr "Ann") ]) (condition "age" "contains" (DStr "def"))
    = Ret true.
Proof.
  destruct (conditions_on_a_missing_field [ ("name", DStr "Ann") ] "age" (DNum 30)
              eq_refl eq_refl eq_refl) as (G & _ & _ & N & _).
  destruct (conditions_on_a_missing_field [ ("name", DStr "Ann") ] "age" (DStr "def")
              eq_refl eq_refl eq_refl) as (_ & _ & _ & _ & (needle & Hn & C) & _).
  split; [ exact G | ]. split; [ exact N | ].
  injection Hn as <-. exact C.
Defined.

(** X14: [validate] of the data filter never throws, also not on [null]
    or [undefined], and it returns true exactly when [input.data] and
    [input.conditions] both read as arrays. *)

Theorem DataFilter_validate_is_exact :
  forall input : json,
    exists b,
      validate input = Ret b /\
      (b = true <->
       exists items conds,
         get input "data" = Ret (Data (DArr items)) /\
         get input "conditions" = Ret (Data (DArr conds))).
Proof.
  intro input. unfold validate.
  destruct (BaseNode.validate input) eqn:V.
  - assert (T : forall k, returns (get input k)).
    { intro k. destruct input; try discriminate; unfold returns; simpl; eauto.
      - destruct (String.eqb k "length"); eauto.
        destruct (canonical_index k); eauto.
        destruct (String.get n s); eauto.
      - destruct (String.eqb k "length"); eauto.
        destruct (canonical_index k); eauto.
      - destruct (assoc k props); eauto. }
    destruct (T "data") as [d Hd]. destruct (T "conditions") as [c Hc].
    rewrite Hd, bind_ret.
    destruct (isArray d) eqn:Ad.
    + rewrite Hc, bind_ret. exists (isArray c). split; [ reflexivity | ].
      split.
      * intro Ac. destruct d as [[ | | | | | items | ] | ]; try discriminate.
        destruct c as [[ | | | | | conds | ] | ]; try discriminate. eauto.
      * intros (items & conds & E1 & E2). now injection E2 as ->.
    + exists false. split; [ reflexivity | ]. split; [ discriminate | ].
      intros (items & conds & E1 & E2). injection E1 as ->. discriminate.
  - exists false. split; [ reflexivity | ]. split; [ discriminate | ].
    intros (items & conds & E1 & E2).
    rewrite (get_returns_validates _ _ _ E1) in V. discriminate.
Qed.

End DataFilterMoreFacts.

(* ===================================================================== *)
(** * More on the field mapper *)
(* ===================================================================== *)

Module FieldMapperMoreFacts.

Import FieldMapperNode FieldMapperRequests SemFacts NodeFacts.
Local Open Scope list_scope.

Lemma mapM_inversion {A B : Type} (f : A -> exc B) (l : list A) :
  forall ys, mapM f l = Ret ys -> Forall2 (fun x y => f x = Ret y) l ys.
Proof.
  induction l as [ | x rest IH]; simpl; intros ys H.
  - injection H as <-. constructor.
  - destruct (f x) as [y | e] eqn:Fx; [ | discriminate ].
    rewrite bind_ret in H.
    destruct (mapM f rest) as [ys' | e]; [ | discriminate ].
    rewrite bind_ret in H. injection H as <-.
    constructor; [ exact Fx | now apply IH ].
Qed.

Lemma Forall2_length_eq {A B : Type} (R : A -> B -> Prop) (l : list A) (l' : list B) :
  Forall2 R l l' -> List.length l = List.length l'.
Proof. induction 1; simpl; congruence. Qed.

Lemma execute_success_shape :
  forall (evalFunction : string -> value -> exc value) (input : json)
         (startTime endTime : Z) (r : NodeResult FieldMapperOutput),
    execute evalFunction input startTime endTime = Ret r ->
    success r = true ->
    exists source : value,
      get input "source" = Ret source /\
      match source with
      | Data (DArr items) =>
          exists os,
            data r = Some {| mapped := MappedArray os |} /\
            Forall2 (fun item o => mapItem evalFunction input (Data item) = Ret o)
                    items os /\
            List.length os = List.length items /\
            metrics r = Some {| executionTime := endTime - startTime;
                                recordsProcessed := Z.of_nat (List.length items) |}
      | _ =>
          exists o,
            data r = Some {| mapped := MappedObject o |} /\
            mapItem evalFunction input source = Ret o /\
            metrics r = Some {| executionTime := endTime - startTime;
                                recordsProcessed := 1 |}
      end.
Proof.
  intros evalFunction input startTime endTime r E S. unfold execute in E.
  destruct (get input "source") as [source | e] eqn:G; cbn [bind try_catch] in E;
    [ | injection E as <-; discriminate ].
  exists source. split; [ reflexivity | ].
  assert (Single : forall src : value,
            isArray src = false ->
            try_catch
              (mappedItems <- mapM (mapItem evalFunction input) [ src ] ;;
               Ret {| success := true;
                      data := Some {| mapped :=
                               if isArray src then MappedArray mappedItems
                               else match mappedItems with
                                    | o :: _ => MappedObject o
                                    | [] => MappedUndefined
                                    end |};
                      error := None;
                      metrics := Some {| executionTime := endTime - startTime;
                                         recordsProcessed := Z.of_nat 1 |} |})
              (fun e =>
                 Ret {| success := false; data := None;
                        error := Some (error_text "Unknown error" e);
                        metrics := None |}) = Ret r ->
            exists o,
              data r = Some {| mapped := MappedObject o |} /\
              mapItem evalFunction input src = Ret o /\
              metrics r = Some {| executionTime := endTime - startTime;
                                  recordsProcessed := 1 |}).
  { intros src Hsrc H. cbn [mapM] in H.
    destruct (mapItem evalFunction input src) as [o | e] eqn:M;
      cbn [bind try_catch] in H; [ | injection H as <-; discriminate ].
    rewrite Hsrc in H. injection H as <-. exists o. auto. }
  destruct source as [[ | | | | | items | ] | b];
    try (apply Single; [ reflexivity | exact E ]).
  cbn [isArray] in E.
  destruct (mapM (mapItem evalFunction input) (List.map Data items)) as [os | e] eqn:M;
    cbn [bind try_catch] in E; [ | injection E as <-; discriminate ].
  injection E as <-. exists os.
  apply mapM_inversion in M.
  assert (F : Forall2 (fun item o => mapItem evalFunction input (Data item) = Ret o)
                      items os).
  { clear S G Single. revert os M. induction items as [ | x rest IH]; intros os M;
      inversion M; subst; constructor; auto. }
  split; [ reflexivity | ]. split; [ exact F | ].
  split; [ symmetry; exact (Forall2_length_eq _ _ _ F) | ].
  cbn [metrics]. now rewrite length_map.
Qed.

(** X15: the shape of a successful mapping.  When [execute] reports
    success on an array [source], [mapped] is an array of the same length,
    [recordsProcessed] is that length, and each element is what the
    callback makes of the element of [source] at the same position, on its
    own; on any other [source], [mapped] is the single object the callback
    makes of it and [recordsProcessed] is 1. *)

Theorem execute_maps_item_by_item :
  forall (evalFunction : string -> value -> exc value) (input : json)
         (startTime endTime : Z) (r : NodeResult FieldMapperOutput),
    execute evalFunction input startTime endTime = Ret r ->
    success r = true ->
    exists source : value,
      get input "source" = Ret source /\
      match source with
      | Data (DArr items) =>
          exists os,
            data r = Some {| mapped := MappedArray os |} /\
            Forall2 (fun item o => mapItem evalFunction input (Data item) = Ret o)
                    items os /\
            List.length os = List.length items /\
            metrics r = Some {| executionTime := endTime - startTime;
                                recordsProcessed := Z.of_nat (List.length items) |}
      | _ =>
          exists o,
            data r = Some {| mapped := MappedObject o |} /\
            mapItem evalFunction input source = Ret o /\
            metrics r = Some {| executionTime := endTime - startTime;
                                recordsProcessed := 1 |}
      end.
Proof. exact execute_success_shape. Qed.

Lemma execute_maps_item_by_item_witness :
  exists source : value,
    get Examples.rename_input "source" = Ret source /\
    match source with
    | Data (DArr items) => True
    | _ =>
        exists o,
          mapItem Examples.rejecting_engine Examples.rename_input source = Ret o /\
          own o = [ ("firstName", Data (DStr "John")) ]
    end.
Proof.
  destruct (execute_maps_item_by_item Examples.rejecting_engine
              Examples.rename_input 0 1 _ eq_refl eq_refl) as (source & G & H).
  injection G as <-. eexists. split; [ reflexivity | ].
  destruct H as (o & D & M & _). injection D as <-.
  eexists. split; [ exact M | reflexivity ].
Defined.

(** *** What a mapping can write *)

Lemma assoc_set_own (k t : string) (v : value) (l : list (string * value)) :
  assoc t (set_own k v l) = if String.eqb t k then Some v else assoc t l.
Proof.
  induction l as [ | [k' v'] rest IH]; simpl.
  - reflexivity.
  - destruct (String.eqb k k') eqn:E; simpl.
    + apply String.eqb_eq in E. subst k'. now destruct (String.eqb t k).
    + rewrite IH. destruct (String.eqb t k') eqn:E'; [ | reflexivity ].
      apply String.eqb_eq in E'. subst k'.
      destruct (String.eqb t k) eqn:E''; [ | reflexivity ].
      apply String.eqb_eq in E''. subst k. now rewrite String.eqb_refl in E.
Qed.

Lemma keys_set_own (k x : string) (v : value) (l : list (string * value)) :
  In x (List.map fst (set_own k v l)) <-> x = k \/ In x (List.map fst l).
Proof.
  induction l as [ | [k' v'] rest IH]; simpl.
  - intuition.
  - destruct (String.eqb k k') eqn:E; simpl.
    + apply String.eqb_eq in E. subst k'. intuition.
    + rewrite IH. intuition.
Qed.

Lemma put_keys (o o' : jsobject) (k : string) (v : value) :
  put o k v = Ret o' ->
  forall x, In x (List.map fst (own o')) -> x = k \/ In x (List.map fst (own o)).
Proof.
  unfold put. intros H x.
  destruct (has_own k (own o)).
  - injection H as <-. simpl. apply keys_set_own.
  - destruct (String.eqb k "__proto__" && inherits_proto_accessor (proto o)).
    + injection H as <-. destruct (is_object_or_null v); simpl; auto.
    + destruct (refused_by (proto o) k); [ discriminate | ].
      injection H as <-. simpl. apply keys_set_own.
Qed.

Lemma put_computed_keys (o o' : jsobject) (key v : value) :
  put_computed o key v = Ret o' ->
  forall x, In x (List.map fst (own o')) ->
            to_string key = Ret x \/ In x (List.map fst (own o)).
Proof.
  unfold put_computed. intros H x Hx.
  destruct (to_string key) as [k | e]; [ | discriminate ].
  rewrite bind_ret in H. destruct (put_keys _ _ _ _ H x Hx) as [-> | ?]; auto.
Qed.

Lemma applyMapping_keys (evalFunction : string -> value -> exc value)
    (item : value) (result result' : jsobject) (mapping : json) :
  applyMapping evalFunction item result mapping = Ret result' ->
  forall x, In x (List.map fst (own result')) ->
    In x (List.map fst (own result)) \/
    exists tf, get mapping "targetField" = Ret tf /\ to_string tf = Ret x.
Proof.
  unfold applyMapping. intros H x Hx.
  destruct (get mapping "sourceField") as [sf | ]; [ | discriminate ].
  rewrite bind_ret in H.
  destruct (get_computed item sf) as [sv | ]; [ | discriminate ].
  rewrite bind_ret in H.
  destruct (get mapping "transformation") as [t | ]; [ | discriminate ].
  rewrite bind_ret in H.
  assert (P : forall tf v,
            get mapping "targetField" = Ret tf ->
            put_computed result tf v = Ret result' ->
            In x (List.map fst (own result)) \/
            exists tf, get mapping "targetField" = Ret tf /\ to_string tf = Ret x).
  { intros tf v G Hp. destruct (put_computed_keys _ _ _ _ Hp x Hx); eauto. }
  destruct (get mapping "targetField") as [tf | e] eqn:G.
  - rewrite !bind_ret in H.
    destruct (strict_eq t (Data (DStr "rename"))); [ exact (P _ _ eq_refl H) | ].
    destruct (strict_eq t (Data (DStr "function"))).
    + destruct (get mapping "parameters") as [ps | ]; [ | discriminate ].
      rewrite bind_ret in H.
      destruct (get_optional ps "functionBody") as [fb | ]; [ | discriminate ].
      rewrite bind_ret in H.
      destruct (truthy fb); [ | exact (P _ _ eq_refl H) ].
      destruct (to_string fb) as [body | ]; cbn [bind try_catch] in H;
        [ | exact (P _ _ eq_refl H) ].
      destruct (evalFunction body sv) as [rv | ]; cbn [bind try_catch] in H;
        [ | exact (P _ _ eq_refl H) ].
      destruct (put_computed result tf rv) as [o1 | ] eqn:Hp1;
        cbn [try_catch] in H.
      * injection H as <-. exact (P _ _ eq_refl Hp1).
      * exact (P _ _ eq_refl H).
    + destruct (strict_eq t (Data (DStr "constant"))).
      * destruct (get mapping "parameters") as [ps | ]; [ | discriminate ].
        rewrite bind_ret in H.
        destruct (get_optional ps "constantValue") as [cv | ]; [ | discriminate ].
        rewrite bind_ret in H. exact (P _ _ eq_refl H).
      * injection H as <-. auto.
  - rewrite !bind_throw in H.
    destruct (strict_eq t (Data (DStr "rename"))); [ discriminate | ].
    destruct (strict_eq t (Data (DStr "function"))).
    + destruct (get mapping "parameters") as [ps | ]; [ | discriminate ].
      rewrite bind_ret in H.
      destruct (get_optional ps "functionBody") as [fb | ]; [ | discriminate ].
      rewrite bind_ret in H.
      destruct (truthy fb); [ | discriminate ].
      destruct (to_string fb) as [body | ]; cbn [bind try_catch] in H; discriminate.
    + destruct (strict_eq t (Data (DStr "constant"))); [ discriminate | ].
      injection H as <-. auto.
Qed.

Lemma forEachM_keys (evalFunction : string -> value -> exc value) (item : value)
    (ms : list json) :
  forall result result',
    forEachM (applyMapping evalFunction item) result ms = Ret result' ->
    forall x, In x (List.map fst (own result')) ->
      In x (List.map fst (own result)) \/
      exists m tf, In m ms /\ get m "targetField" = Ret tf /\ to_string tf = Ret x.
Proof.
  induction ms as [ | m rest IH]; simpl; intros result result' H x Hx.
  - injection H as <-. auto.
  - destruct (applyMapping evalFunction item result m) as [r1 | ] eqn:A;
      [ | discriminate ].
    rewrite bind_ret in H.
    destruct (IH _ _ H x Hx) as [Hin | (m' & tf & Hm & G & T)].
    + destruct (applyMapping_keys _ _ _ _ _ A x Hin) as [? | (tf & G & T)]; eauto 7.
    + eauto 7.
Qed.

Lemma mapItem_keys (evalFunction : string -> value -> exc value)
    (input : json) (item : value) (o : jsobject) :
  mapItem evalFunction input item = Ret o ->
  forall x, In x (List.map fst (own o)) ->
    exists ms m tf,
      get input "mapping" = Ret (Data (DArr ms)) /\ In m ms /\
      get m "targetField" = Ret tf /\ to_string tf = Ret x.
Proof.
  unfold mapItem. intros H x Hx.
  destruct (get input "mapping") as [mapping | ]; [ | discriminate ].
  rewrite bind_ret in H.
  destruct mapping as [[ | | | | | ms | ] | b]; try discriminate.
  cbn [as_array] in H. rewrite bind_ret in H.
  destruct (forEachM_keys _ _ _ _ _ H x Hx) as [[] | (m & tf & Hm & G & T)].
  exists ms, m, tf. auto.
Qed.

(** X16: fields that no mapping names are dropped.  In a successful
    execution every own property of every mapped object is named by the
    [targetField] of one of the mappings; nothing else of the source record
    reaches the output. *)

Theorem mapped_objects_hold_only_target_fields :
  forall (evalFunction : string -> value -> exc value) (input : json)
         (startTime endTime : Z) (r : NodeResult FieldMapperOutput)
         (out : FieldMapperOutput),
    execute evalFunction input startTime endTime = Ret r ->
    data r = Some out ->
    forall o, In o (mapped_objects (mapped out)) ->
    forall k, In k (List.map fst (own o)) ->
      exists ms m tf,
        get input "mapping" = Ret (Data (DArr ms)) /\ In m ms /\
        get m "targetField" = Ret tf /\ to_string tf = Ret k.
Proof.
  intros evalFunction input startTime endTime r out E D o Ho k Hk.
  assert (S : success r = true).
  { destruct (FieldMapper_execute_settles evalFunction input startTime endTime)
      as (r' & E' & [Hs | Hf]).
    - rewrite E in E'. injection E' as <-. apply Hs.
    - rewrite E in E'. injection E' as <-. destruct Hf as (_ & N & _). congruence. }
  destruct (execute_success_shape _ _ _ _ _ E S) as (source & G & H).
  assert (M : exists item, mapItem evalFunction input item = Ret o).
  { destruct source as [[ | | | | | items | ] | b];
      try (destruct H as (o' & D' & M & _); rewrite D in D'; injection D' as ->;
           destruct Ho as [<- | []]; eauto).
    destruct H as (os & D' & F & _). rewrite D in D'. injection D' as ->.
    simpl in Ho. clear - F Ho.
    induction F as [ | x y l l' Hxy F IH]; [ destruct Ho | ].
    destruct Ho as [<- | Ho]; eauto. }
  destruct M as [item M]. exact (mapItem_keys _ _ _ _ M k Hk).
Qed.

Lemma mapped_objects_hold_only_target_fields_witness :
  exists ms m tf,
    get Examples.rename_input "mapping" = Ret (Data (DArr ms)) /\ In m ms /\
    get m "targetField" = Ret tf /\ to_string tf = Ret "firstName".
Proof.
  exact (mapped_objects_hold_only_target_fields Examples.rejecting_engine
           Examples.rename_input 0 1 _ _ eq_refl eq_refl
           {| own := [ ("firstName", Data (DStr "John")) ];
              proto := Intrinsic ObjectPrototype |}
           (or_introl eq_refl) "firstName" (or_introl eq_refl)).
Defined.

(** *** Renaming *)

Lemma get_object_read (props : list (string * json)) (k : string) :
  get (Data (DObj props)) k = Ret (read (Data (DObj props)) k).
Proof. unfold read. simpl. destruct (assoc k props); reflexivity. Qed.

Lemma put_plain (o : jsobject) (k : string) (v : value) :
  proto o = Intrinsic ObjectPrototype ->
  String.eqb k "__proto__" = false ->
  put o k v = Ret {| own := set_own k v (own o); proto := Intrinsic ObjectPrototype |}.
Proof.
  intros P K. unfold put. rewrite P, K. simpl.
  destruct (has_own k (own o)); reflexivity.
Qed.

Lemma applyMapping_rename (evalFunction : string -> value -> exc value)
    (props : list (string * json)) (result : jsobject) (sf tf : string) :
  proto result = Intrinsic ObjectPrototype ->
  String.eqb tf "__proto__" = false ->
  applyMapping evalFunction (Data (DObj props)) result (rename_mapping (sf, tf)) =
  Ret {| own := set_own tf (read (Data (DObj props)) sf) (own result);
         proto := Intrinsic ObjectPrototype |}.
Proof.
  intros P K. unfold applyMapping.
  change (get (Data (rename_mapping (sf, tf))) "sourceField")
    with (Ret (A := value) (Data (DStr sf))).
  rewrite bind_ret.
  change (get_computed (Data (DObj props)) (Data (DStr sf)))
    with (get (Data (DObj props)) sf).
  rewrite get_object_read, bind_ret.
  change (get (Data (rename_mapping (sf, tf))) "transformation")
    with (Ret (A := value) (Data (DStr "rename"))).
  rewrite bind_ret.
  change (strict_eq (Data (DStr "rename")) (Data (DStr "rename"))) with true.
  cbv iota.
  change (get (Data (rename_mapping (sf, tf))) "targetField")
    with (Ret (A := value) (Data (DStr tf))).
  rewrite bind_ret.
  change (put_computed result (Data (DStr tf)) (read (Data (DObj props)) sf))
    with (put result tf (read (Data (DObj props)) sf)).
  now apply put_plain.
Qed.

Lemma forEachM_renames (evalFunction : string -> value -> exc value)
    (props : list (string * json)) (pairs : list (string * string)) :
  forallb (fun p => negb (String.eqb (snd p) "__proto__")) pairs = true ->
  forall result,
    proto result = Intrinsic ObjectPrototype ->
    exists o,
      forEachM (applyMapping evalFunction (Data (DObj props))) result
               (List.map rename_mapping pairs) = Ret o /\
      proto o = Intrinsic ObjectPrototype /\
      forall tf,
        assoc tf (own o) =
        match last_source tf pairs with
        | Some sf => Some (read (Data (DObj props)) sf)
        | None => assoc tf (own result)
        end.
Proof.
  induction pairs as [ | [sf tf] rest IH]; intros W result P.
  - exists result. simpl. auto.
  - simpl in W. apply Bool.andb_true_iff in W. destruct W as [K W].
    apply Bool.negb_true_iff in K.
    cbn [List.map forEachM].
    rewrite (applyMapping_rename evalFunction props result sf tf P K), bind_ret.
    destruct (IH W {| own := set_own tf (read (Data (DObj props)) sf) (own result);
                      proto := Intrinsic ObjectPrototype |} eq_refl)
      as (o & E & Po & L).
    exists o. split; [ exact E | ]. split; [ exact Po | ].
    intro t. rewrite L. cbn [last_source own].
    destruct (last_source t rest); [ reflexivity | ].
    rewrite assoc_set_own. now destruct (String.eqb t tf).
Qed.

(** X17: renaming a single record.  With a list of [rename] mappings whose
    target is never ["__proto__"], mapping an object succeeds whatever the
    object holds; the outcome has, under each target field, the value the
    source has under the source field of the {e last} mapping that writes
    this target ([undefined] when the source lacks it), and no other
    property. *)

Theorem execute_renames_last_mapping_wins :
  forall (evalFunction : string -> value -> exc value)
         (props : list (string * json)) (pairs : list (string * string))
         (startTime endTime : Z),
    forallb (fun p => negb (String.eqb (snd p) "__proto__")) pairs = true ->
    exists o,
      execute evalFunction
        (mapping_request (DObj props) (List.map rename_mapping pairs))
        startTime endTime =
        Ret {| success := true;
               data := Some {| mapped := MappedObject o |};
               error := None;
               metrics := Some {| executionTime := endTime - startTime;
                                  recordsProcessed := 1 |} |} /\
      forall tf,
        assoc tf (own o) =
        option_map (read (Data (DObj props))) (last_source tf pairs).
Proof.
  intros evalFunction props pairs startTime endTime W.
  destruct (forEachM_renames evalFunction props pairs W empty_object eq_refl)
    as (o & E & _ & L).
  exists o. split.
  - unfold execute.
    change (get (Data (mapping_request (DObj props) (List.map rename_mapping pairs)))
                "source")
      with (Ret (A := value) (Data (DObj props))).
    rewrite bind_ret. cbn [isArray mapM].
    unfold mapItem at 1.
    change (get (Data (mapping_request (DObj props) (List.map rename_mapping pairs)))
                "mapping")
      with (Ret (A := value) (Data (DArr (List.map rename_mapping pairs)))).
    rewrite bind_ret. cbn [as_array]. rewrite bind_ret, E. reflexivity.
  - intro tf. rewrite L. now destruct (last_source tf pairs).
Qed.

Lemma execute_renames_last_mapping_wins_witness :
  exists o,
    execute Examples.rejecting_engine
      (mapping_request (DObj [ ("a", DNum 1); ("b", DNum 2) ])
         (List.map rename_mapping [ ("a", "x"); ("b", "y"); ("b", "x") ]))
      0 1 =
      Ret {| success := true;
             data := Some {| mapped := MappedObject o |};
             error := None;
             metrics := Some {| executionTime := 1 - 0; recordsProcessed := 1 |} |} /\
    forall tf,
      assoc tf (own o) =
      option_map (read (Data (DObj [ ("a", DNum 1); ("b", DNum 2) ])))
                 (last_source tf [ ("a", "x"); ("b", "y"); ("b", "x") ]).
Proof.
  exact (execute_renames_last_mapping_wins Examples.rejecting_engine
           [ ("a", DNum 1); ("b", DNum 2) ] [ ("a", "x"); ("b", "y"); ("b", "x") ]
           0 1 eq_refl).
Defined.

(** *** Empty inputs *)

Lemma mapM_constant {A B : Type} (f : A -> exc B) (b : B) (l : list A) :
  (forall x, f x = Ret b) -> mapM f l = Ret (List.map (fun _ => b) l).
Proof.
  intro H. induction l as [ | x rest IH]; simpl; [ reflexivity | ].
  now rewrite H, IH.
Qed.

(** X18: empty inputs.  With an empty [mapping] array the execution
    succeeds on every [source], a [null] one and arrays with [null] items
    included, and yields the empty object for each item; with an empty
    [source] array it succeeds with an empty array whatever [mapping] is,
    because the callback never runs. *)

Theorem execute_on_empty_mapping_or_source :
  (forall (evalFunction : string -> value -> exc value) (input : json)
          (source : value) (startTime endTime : Z),
     get input "source" = Ret source ->
     get input "mapping" = Ret (Data (DArr [])) ->
     exists r out,
       execute evalFunction input startTime endTime = Ret r /\
       success r = true /\ data r = Some out /\
       mapped out =
         match source with
         | Data (DArr items) => MappedArray (List.map (fun _ => empty_object) items)
         | _ => MappedObject empty_object
         end) /\
  (forall (evalFunction : string -> value -> exc value) (input : json)
          (startTime endTime : Z),
     get input "source" = Ret (Data (DArr [])) ->
     execute evalFunction input startTime endTime =
       Ret {| success := true;
              data := Some {| mapped := MappedArray [] |};
              error := None;
              metrics := Some {| executionTime := endTime - startTime;
                                 recordsProcessed := 0 |} |}).
Proof.
  split.
  - intros evalFunction input source startTime endTime Hs Hm.
    assert (M : forall item, mapItem evalFunction input item = Ret empty_object).
    { intro item. unfold mapItem. now rewrite Hm. }
    unfold execute. rewrite Hs, bind_ret.
    rewrite (mapM_constant _ empty_object _ M), bind_ret.
    eexists; eexists. split; [ reflexivity | ]. split; [ reflexivity | ].
    split; [ reflexivity | ]. cbn [mapped].
    destruct source as [[ | | | | | items | ] | b]; try reflexivity.
    cbn [isArray]. now rewrite List.map_map.
  - intros evalFunction input startTime endTime Hs.
    unfold execute. now rewrite Hs.
Qed.

Lemma execute_on_empty_mapping_or_source_witness :
  (exists r out,
     execute Examples.rejecting_engine (mapping_request DNull []) 0 1 = Ret r /\
     success r = true /\ data r = Some out /\
     mapped out = MappedObject empty_object) /\
  execute Examples.rejecting_engine (DObj [ ("source", DArr []) ]) 0 1 =
    Ret {| success := true;
           data := Some {| mapped := MappedArray [] |};
           error := None;
           metrics := Some {| executionTime := 1 - 0; recordsProcessed := 0 |} |}.
Proof.
  split.
  - exact (proj1 execute_on_empty_mapping_or_source Examples.rejecting_engine
             (mapping_request DNull []) (Data DNull) 0%Z 1%Z eq_refl eq_refl).
  - exact (proj2 execute_on_empty_mapping_or_source Examples.rejecting_engine
             (DObj [ ("source", DArr []) ]) 0%Z 1%Z eq_refl).
Defined.

(** *** [validate] and the kinds of mapping *)

Lemma get_after_validate (input : json) (k : string) :
  BaseNode.validate (Data input) = true -> returns (get (Data input) k).
Proof.
  intro V. destruct input; try discriminate; unfold returns; simpl; eauto.
  - destruct (String.eqb k "length"); eauto.
    destruct (canonical_index k); eauto.
    destruct (String.get n s); eauto.
  - destruct (String.eqb k "length"); eauto.
    destruct (canonical_index k); eauto.
  - destruct (assoc k props); eauto.
Qed.

(** X19: [validate] of the field mapper never throws, and it returns true
    exactly when [input.source] reads as an array or as something whose
    [typeof] is ["object"] (which [null] is) and [input.mapping] reads as an
    array. *)

Theorem FieldMapper_validate_is_exact :
  forall input : json,
    exists b,
      validate input = Ret b /\
      (b = true <->
       exists source ms,
         get input "source" = Ret source /\
         (isArray source = true \/ typeof source = "object") /\
         get input "mapping" = Ret (Data (DArr ms))).
Proof.
  intro input. unfold validate.
  destruct (BaseNode.validate input) eqn:V.
  - destruct (get_after_validate input "source" V) as [src Hs].
    destruct (get_after_validate input "mapping" V) as [mp Hm].
    rewrite Hs, bind_ret.
    destruct (isArray src || String.eqb (typeof src) "object") eqn:T.
    + rewrite Hm, bind_ret. exists (isArray mp). split; [ reflexivity | ]. split.
      * intro Am. destruct mp as [[ | | | | | ms | ] | ]; try discriminate.
        exists src, ms. split; [ reflexivity | ]. split; [ | reflexivity ].
        apply Bool.orb_true_iff in T. destruct T as [T | T]; [ now left | right ].
        now apply String.eqb_eq.
      * intros (source & ms & E1 & _ & E2). now injection E2 as ->.
    + exists false. split; [ reflexivity | ]. split; [ discriminate | ].
      intros (source & ms & E1 & [A | Ty] & _); injection E1 as ->;
        apply Bool.orb_false_iff in T; destruct T as [T1 T2].
      * congruence.
      * rewrite Ty in T2. discriminate.
  - exists false. split; [ reflexivity | ]. split; [ discriminate | ].
    intros (source & ms & E1 & _).
    rewrite (get_returns_validates _ _ _ E1) in V. discriminate.
Qed.

(** X20: kinds of mapping.  A mapping whose [transformation] is none of
    ['rename'], ['function'] and ['constant'] writes nothing: when it
    completes, the result object is the one it was given.  A ['function']
    mapping without [parameters] does what the ['rename'] mapping of the
    same fields does. *)

Theorem applyMapping_unknown_kind_and_bodyless_function :
  (forall (evalFunction : string -> value -> exc value) (item : value)
          (result result' : jsobject) (mapping : json) (t : value),
     get mapping "transformation" = Ret t ->
     known_transformation t = false ->
     applyMapping evalFunction item result mapping = Ret result' ->
     result' = result) /\
  (forall (evalFunction : string -> value -> exc value) (item : value)
          (result : jsobject) (sf tf : string),
     applyMapping evalFunction item result
       (DObj [ ("sourceField", DStr sf); ("targetField", DStr tf);
               ("transformation", DStr "function") ]) =
     applyMapping evalFunction item result (rename_mapping (sf, tf))).
Proof.
  split.
  - intros evalFunction item result result' mapping t G K.
    unfold known_transformation in K.
    apply Bool.orb_false_iff in K. destruct K as [K K3].
    apply Bool.orb_false_iff in K. destruct K as [K1 K2].
    unfold applyMapping.
    destruct (get mapping "sourceField") as [sf | ]; [ | discriminate ].
    rewrite bind_ret.
    destruct (get_computed item sf) as [sv | ]; [ | discriminate ].
    rewrite bind_ret, G, bind_ret, K1, K2, K3.
    intro H. now injection H as <-.
  - intros evalFunction item result sf tf. unfold applyMapping.
    change (get (Data (DObj [ ("sourceField", DStr sf); ("targetField", DStr tf);
                              ("transformation", DStr "function") ])) "sourceField")
      with (Ret (A := value) (Data (DStr sf))).
    change (get (Data (rename_mapping (sf, tf))) "sourceField")
      with (Ret (A := value) (Data (DStr sf))).
    rewrite !bind_ret.
    destruct (get_computed item (Data (DStr sf))) as [sv | e]; reflexivity.
Qed.

Lemma applyMapping_unknown_kind_and_bodyless_function_witness :
  {| own := [ ("kept", Data (DNum 1)) ]; proto := Intrinsic ObjectPrototype |} =
  {| own := [ ("kept", Data (DNum 1)) ]; proto := Intrinsic ObjectPrototype |}.
Proof.
  exact (proj1 applyMapping_unknown_kind_and_bodyless_function
           Examples.rejecting_engine (Data (DObj [ ("a", DNum 5) ]))
           {| own := [ ("kept", Data (DNum 1)) ]; proto := Intrinsic ObjectPrototype |}
           _
           (DObj [ ("sourceField", DStr "a"); ("targetField", DStr "b");
                   ("transformation", DStr "copy") ])
           (Data (DStr "copy")) eq_refl eq_refl eq_refl).
Defined.

End FieldMapperMoreFacts.

(* ===================================================================== *)
(** * More on the PostgreSQL node *)
(* ===================================================================== *)

Module PostgreSQLFacts.

Import PostgreSQLQueryNode SemFacts.
Local Open Scope list_scope.

Section Client.

Variable Client_new : value -> value -> exc unit.
Variable Client_connect : exc unit.
Variable Client_query : value -> value -> exc QueryResult.

Lemma get_of_readable (input : json) (k k' : string) (v : value) :
  get input k = Ret v -> returns (get input k').
Proof.
  intro G. apply FieldMapperMoreFacts.get_after_validate.
  exact (get_returns_validates _ _ _ G).
Qed.

(** What the execution comes to, stage by stage. *)

Lemma execute_outcome (Client_end : exc unit) (config : value) (input : json)
    (startTime endTime : Z) :
  let failure e :=
    Ret {| success := false;
           data := None (A := PostgreSQLOutput);
           error := Some (error_text "Unknown PostgreSQL error" e);
           metrics := Some {| executionTime := endTime - startTime;
                              recordsProcessed := 0 |} |} in
  execute Client_new Client_connect Client_query Client_end
    config input startTime endTime =
  match get input "connectionString" with
  | Throw e => failure e
  | Ret cs =>
    match get_optional config "timeout" with
    | Throw e => failure e
    | Ret timeout =>
      match Client_new cs (or_else timeout (Data (DNum 30000))) with
      | Throw e => failure e
      | Ret _ =>
        match Client_connect with
        | Throw e => failure e
        | Ret _ =>
          match get input "query", get input "parameters" with
          | Ret q, Ret p =>
            match Client_query q (or_else p (Data (DArr []))) with
            | Throw e => failure e
            | Ret qr =>
                Ret {| success := true;
                       data := Some {| result := qr_rows qr;
                                        rowCount := rowCount_or_0 qr |};
                       error := None;
                       metrics := Some {| executionTime := endTime - startTime;
                                          recordsProcessed := rowCount_or_0 qr |} |}
            end
          | Throw e, _ => failure e
          | _, Throw e => failure e
          end
        end
      end
    end
  end.
Proof.
  intro failure. unfold execute.
  destruct (get input "connectionString") as [cs | e]; [ | reflexivity ].
  rewrite bind_ret.
  destruct (get_optional config "timeout") as [timeout | e]; [ | reflexivity ].
  rewrite bind_ret.
  destruct (Client_new cs (or_else timeout (Data (DNum 30000)))) as [ [] | e ];
    [ | reflexivity ].
  destruct Client_end as [ [] | e ]; cbn [finally try_catch];
    (destruct Client_connect as [ [] | e' ]; [ | reflexivity ];
     rewrite bind_ret;
     destruct (get input "query") as [q | e' ]; [ | reflexivity ];
     rewrite bind_ret;
     destruct (get input "parameters") as [p | e' ]; [ | reflexivity ];
     rewrite bind_ret;
     destruct (Client_query q (or_else p (Data (DArr [])))) as [qr | e' ];
     reflexivity).
Qed.

End Client.

(** X21: the envelope of the PostgreSQL node.  Whatever the client does
    and whatever the input is, the execution resolves to an envelope that
    always carries metrics, with the elapsed time and, as
    [recordsProcessed], the [rowCount] of the data on success and [0] on
    failure.  It succeeds exactly when the constructor, [connect] and
    [query] all return, and what [client.end()] does has no influence on
    the envelope. *)

Theorem PostgreSQL_envelope_carries_metrics :
  forall (Client_new : value -> value -> exc unit) (Client_connect : exc unit)
         (Client_query : value -> value -> exc QueryResult)
         (Client_end : exc unit) (config : value) (input : json)
         (startTime endTime : Z),
    exists r,
      execute Client_new Client_connect Client_query Client_end
        config input startTime endTime = Ret r /\
      metrics r =
        Some {| executionTime := endTime - startTime;
                recordsProcessed :=
                  match data r with
                  | Some d => rowCount d
                  | None => 0
                  end |} /\
      (success r = true <->
       exists cs timeout q p qr,
         get input "connectionString" = Ret cs /\
         get_optional config "timeout" = Ret timeout /\
         Client_new cs (or_else timeout (Data (DNum 30000))) = Ret tt /\
         Client_connect = Ret tt /\
         get input "query" = Ret q /\ get input "parameters" = Ret p /\
         Client_query q (or_else p (Data (DArr []))) = Ret qr /\
         data r = Some {| result := qr_rows qr; rowCount := rowCount_or_0 qr |}) /\
      (success r = false <-> exists message, error r = Some message) /\
      forall Client_end' : exc unit,
        execute Client_new Client_connect Client_query Client_end'
          config input startTime endTime = Ret r.
Proof.
  intros Client_new Client_connect Client_query Client_end config input
         startTime endTime.
  assert (Same : forall Client_end' : exc unit,
             execute Client_new Client_connect Client_query Client_end'
               config input startTime endTime =
             execute Client_new Client_connect Client_query Client_end
               config input startTime endTime).
  { intro Client_end'. now rewrite !execute_outcome. }
  pose proof (execute_outcome Client_new Client_connect Client_query Client_end
                config input startTime endTime) as Out.
  cbv zeta in Out.
  destruct (get input "connectionString") as [cs | e] eqn:E1;
    [ destruct (get_optional config "timeout") as [timeout | e] eqn:E2;
      [ destruct (Client_new cs (or_else timeout (Data (DNum 30000))))
          as [ [] | e ] eqn:E3;
        [ destruct Client_connect as [ [] | e ] eqn:E4;
          [ destruct (get input "query") as [q | e] eqn:E5;
            [ destruct (get input "parameters") as [p | e] eqn:E6;
              [ destruct (Client_query q (or_else p (Data (DArr []))))
                  as [qr | e] eqn:E7 | ] | ] | ] | ] | ] | ];
    (eexists; split; [ exact Out | ]; split; [ reflexivity | ];
     split; [ | split; [ | intro c; rewrite Same; exact Out ] ]);
    cbn [success data error];
    try (split; [ discriminate | ];
         intros (cs' & t' & q' & p' & qr' & H1 & H2 & H3 & H4 & H5 & H6 & H7 & _);
         congruence);
    try (split; [ intros _; eexists; reflexivity | reflexivity ]).
  - split; [ intros _ | reflexivity ].
    exists cs, timeout, q, p, qr. repeat split; assumption || reflexivity.
  - split; [ discriminate | ]. intros (message & H). discriminate.
Qed.

(** X22: falsy settings fall back to the defaults.  A [timeout] of the
    configuration that is falsy ([0], [null], the empty string, absent) is
    not passed on: the execution is the one of a node without
    configuration, which connects with a timeout of 30000 ms.  Likewise an
    input whose [parameters] are falsy runs as the same input with
    [parameters: []]. *)

Theorem PostgreSQL_falsy_settings_fall_back :
  forall (Client_new : value -> value -> exc unit) (Client_connect : exc unit)
         (Client_query : value -> value -> exc QueryResult)
         (Client_end : exc unit) (startTime endTime : Z),
    (forall (config t : value) (input : json),
       get_optional config "timeout" = Ret t -> truthy t = false ->
       execute Client_new Client_connect Client_query Client_end
         config input startTime endTime =
       execute Client_new Client_connect Client_query Client_end
         undefined input startTime endTime) /\
    (forall (config p : value) (props : list (string * json)),
       get (DObj props) "parameters" = Ret p -> truthy p = false ->
       execute Client_new Client_connect Client_query Client_end
         config (DObj props) startTime endTime =
       execute Client_new Client_connect Client_query Client_end
         config (DObj (("parameters", DArr []) :: props)) startTime endTime).
Proof.
  intros Client_new Client_connect Client_query Client_end startTime endTime.
  split.
  - intros config t input G F. rewrite !execute_outcome, G.
    change (get_optional undefined "timeout") with (Ret (A := value) undefined).
    unfold or_else at 1 3. rewrite F. reflexivity.
  - intros config p props G F. rewrite !execute_outcome, G.
    change (get (Data (DObj (("parameters", DArr []) :: props))) "connectionString")
      with (get (Data (DObj props)) "connectionString").
    change (get (Data (DObj (("parameters", DArr []) :: props))) "query")
      with (get (Data (DObj props)) "query").
    change (get (Data (DObj (("parameters", DArr []) :: props))) "parameters")
      with (Ret (A := value) (Data (DArr []))).
    unfold or_else at 2 4. rewrite F. reflexivity.
Qed.

Lemma PostgreSQL_falsy_settings_fall_back_witness :
  execute PostgreSQLSession.obliging_new (Ret tt) PostgreSQLSession.obliging_query
    (Ret tt) (DObj [ ("timeout", DNum 0) ])
    (PostgreSQLSession.query_request "postgres://db" "SELECT 1") 0 1 =
  execute PostgreSQLSession.obliging_new (Ret tt) PostgreSQLSession.obliging_query
    (Ret tt) undefined
    (PostgreSQLSession.query_request "postgres://db" "SELECT 1") 0 1.
Proof.
  exact (proj1 (PostgreSQL_falsy_settings_fall_back
                  PostgreSQLSession.obliging_new (Ret tt)
                  PostgreSQLSession.obliging_query (Ret tt) 0%Z 1%Z)
               (Data (DObj [ ("timeout", DNum 0) ])) (Data (DNum 0))
               (PostgreSQLSession.query_request "postgres://db" "SELECT 1")
               eq_refl eq_refl).
Defined.

(** ** The calls made on the client *)

Lemma logged_execute_outcome
    (Client_new : value -> value -> exc unit) (Client_connect : exc unit)
    (Client_query : value -> value -> exc QueryResult)
    (Client_end : exc unit) (config : value) (input : json)
    (startTime endTime : Z) :
  snd (PostgreSQLSession.execute Client_new Client_connect Client_query Client_end
         config input startTime endTime) =
  execute Client_new Client_connect Client_query Client_end
    config input startTime endTime.
Proof.
  unfold PostgreSQLSession.execute, PostgreSQLSession.construct, execute,
    PostgreSQLSession.lfinally, PostgreSQLSession.ltry_catch,
    PostgreSQLSession.lbind, PostgreSQLSession.quiet, PostgreSQLSession.issue.
  cbn [fst snd].
  destruct (get input "connectionString") as [cs | e]; cbn [fst snd bind];
    [ | reflexivity ].
  destruct (get_optional config "timeout") as [timeout | e]; cbn [fst snd bind];
    [ | reflexivity ].
  destruct (Client_new cs (or_else timeout (Data (DNum 30000)))) as [ [] | e ];
    cbn [fst snd bind]; [ | reflexivity ].
  destruct Client_connect as [ [] | e ]; cbn [fst snd bind];
    [ | destruct Client_end as [ [] | e' ]; reflexivity ].
  destruct (get input "query") as [q | e]; cbn [fst snd bind];
    [ | destruct Client_end as [ [] | e' ]; reflexivity ].
  destruct (get input "parameters") as [p | e]; cbn [fst snd bind];
    [ | destruct Client_end as [ [] | e' ]; reflexivity ].
  destruct (Client_query q (or_else p (Data (DArr [])))) as [qr | e];
    cbn [fst snd bind]; destruct Client_end as [ [] | e' ]; reflexivity.
Qed.

Lemma log_shapes :
  forall (Client_new : value -> value -> exc unit) (Client_connect : exc unit)
         (Client_query : value -> value -> exc QueryResult)
         (Client_end : exc unit) (config : value) (input : json)
         (startTime endTime : Z),
    let run := PostgreSQLSession.execute Client_new Client_connect Client_query
                 Client_end config input startTime endTime in
    (fst run = [] /\
      forall cs t, ~ (get input "connectionString" = Ret cs /\
                      get_optional config "timeout" = Ret t)) \/
     exists cs t,
       get input "connectionString" = Ret cs /\
       get_optional config "timeout" = Ret t /\
       let timeout := or_else t (Data (DNum 30000)) in
       ((fst run = [ PostgreSQLSession.CallNew cs timeout ] /\
         exists e, Client_new cs timeout = Throw e) \/
        (Client_new cs timeout = Ret tt /\
         ((fst run = [ PostgreSQLSession.CallNew cs timeout;
                       PostgreSQLSession.CallConnect;
                       PostgreSQLSession.CallEnd ] /\
           exists e, Client_connect = Throw e) \/
          (Client_connect = Ret tt /\
           exists q p,
             get input "query" = Ret q /\ get input "parameters" = Ret p /\
             fst run = [ PostgreSQLSession.CallNew cs timeout;
                         PostgreSQLSession.CallConnect;
                         PostgreSQLSession.CallQuery q
                           (or_else p (Data (DArr [])));
                         PostgreSQLSession.CallEnd ])))).
Proof.
  intros Client_new Client_connect Client_query Client_end config input
         startTime endTime run.
  subst run.
  unfold PostgreSQLSession.execute, PostgreSQLSession.construct,
    PostgreSQLSession.lfinally, PostgreSQLSession.ltry_catch,
    PostgreSQLSession.lbind, PostgreSQLSession.quiet, PostgreSQLSession.issue.
  cbn [fst snd].
  destruct (get input "connectionString") as [cs | e] eqn:E1; cbn [fst snd].
  2: { left. split; [ reflexivity | ]. intros cs t [H _]. discriminate. }
  destruct (get_optional config "timeout") as [timeout | e] eqn:E2; cbn [fst snd].
  2: { left. split; [ reflexivity | ]. intros cs' t [_ H]. discriminate. }
  right. exists cs, timeout. split; [ reflexivity | ]. split; [ reflexivity | ].
  cbv zeta.
  destruct (Client_new cs (or_else timeout (Data (DNum 30000)))) as [ [] | e ];
    cbn [fst snd app].
  2: { left. split; [ reflexivity | eauto ]. }
  right. split; [ reflexivity | ].
  destruct Client_connect as [ [] | e ]; cbn [fst snd app].
  2: { left. split; [ | eauto ].
       destruct Client_end as [ [] | e' ]; reflexivity. }
  right. split; [ reflexivity | ].
  destruct (get_of_readable input "connectionString" "query" cs E1) as [q Eq].
  destruct (get_of_readable input "connectionString" "parameters" cs E1) as [p Ep].
  exists q, p. rewrite Eq, Ep. cbn [fst snd app].
  split; [ reflexivity | ]. split; [ reflexivity | ].
  destruct (Client_query q (or_else p (Data (DArr [])))) as [qr | e];
    cbn [fst snd app]; destruct Client_end as [ [] | e' ]; reflexivity.
Qed.

(** X23: the connection is always closed.  The calls that one execution
    makes on the client are, in this order: nothing at all when the
    connection string or the timeout cannot be read; the constructor alone
    when it throws; otherwise the constructor, [connect], the query if
    [connect] returned, and [end] as the last call, made exactly once
    whether the execution succeeds or fails.  The envelope is the one of
    [execute]. *)

Theorem PostgreSQL_client_is_ended_exactly_once :
  forall (Client_new : value -> value -> exc unit) (Client_connect : exc unit)
         (Client_query : value -> value -> exc QueryResult)
         (Client_end : exc unit) (config : value) (input : json)
         (startTime endTime : Z),
    let run := PostgreSQLSession.execute Client_new Client_connect Client_query
                 Client_end config input startTime endTime in
    snd run = execute Client_new Client_connect Client_query Client_end
                config input startTime endTime /\
    ((fst run = [] /\
      forall cs t, ~ (get input "connectionString" = Ret cs /\
                      get_optional config "timeout" = Ret t)) \/
     exists cs t,
       get input "connectionString" = Ret cs /\
       get_optional config "timeout" = Ret t /\
       let timeout := or_else t (Data (DNum 30000)) in
       ((fst run = [ PostgreSQLSession.CallNew cs timeout ] /\
         exists e, Client_new cs timeout = Throw e) \/
        (Client_new cs timeout = Ret tt /\
         ((fst run = [ PostgreSQLSession.CallNew cs timeout;
                       PostgreSQLSession.CallConnect;
                       PostgreSQLSession.CallEnd ] /\
           exists e, Client_connect = Throw e) \/
          (Client_connect = Ret tt /\
           exists q p,
             get input "query" = Ret q /\ get input "parameters" = Ret p /\
             fst run = [ PostgreSQLSession.CallNew cs timeout;
                         PostgreSQLSession.CallConnect;
                         PostgreSQLSession.CallQuery q
                           (or_else p (Data (DArr [])));
                         PostgreSQLSession.CallEnd ]))))).
Proof.
  intros Client_new Client_connect Client_query Client_end config input
         startTime endTime run.
  split; [ apply logged_execute_outcome | apply log_shapes ].
Qed.

(** ** [validate] *)

Lemma get_optional_timeout_returns (config : value) :
  returns (get_optional config "timeout").
Proof.
  destruct config as [d | b].
  - destruct d; try (eexists; reflexivity);
      apply FieldMapperMoreFacts.get_after_validate; reflexivity.
  - destruct b; eexists; vm_compute; reflexivity.
Qed.

(** X24: [validate] of the PostgreSQL node never throws; it accepts an
    input exactly when its [connectionString] and its [query] both read as
    truthy values.  For an accepted input the execution always gets as far
    as constructing a client with that connection string, whatever the
    configuration is. *)

Theorem PostgreSQL_validate_is_exact :
  forall input : json,
    exists b,
      PostgreSQLSession.validate input = Ret b /\
      (b = true <->
       exists cs q,
         get input "connectionString" = Ret cs /\ truthy cs = true /\
         get input "query" = Ret q /\ truthy q = true) /\
      (b = true ->
       forall (Client_new : value -> value -> exc unit) (Client_connect : exc unit)
              (Client_query : value -> value -> exc QueryResult)
              (Client_end : exc unit) (config : value) (startTime endTime : Z),
       exists cs t rest,
         get input "connectionString" = Ret cs /\
         fst (PostgreSQLSession.execute Client_new Client_connect Client_query
                Client_end config input startTime endTime) =
         PostgreSQLSession.CallNew cs t :: rest).
Proof.
  intro input. unfold PostgreSQLSession.validate.
  destruct (BaseNode.validate input) eqn:V.
  2: { exists false. split; [ reflexivity | ]. split; [ | discriminate ].
       split; [ discriminate | ]. intros (cs & q & E1 & _).
       rewrite (get_returns_validates _ _ _ E1) in V. discriminate. }
  destruct (FieldMapperMoreFacts.get_after_validate input "connectionString" V)
    as [cs E1].
  destruct (FieldMapperMoreFacts.get_after_validate input "query" V) as [q E2].
  rewrite E1, bind_ret.
  destruct (truthy cs) eqn:T1.
  2: { exists false. split; [ reflexivity | ]. split; [ | discriminate ].
       split; [ discriminate | ]. intros (cs' & q' & E1' & T' & _).
       injection E1' as <-. congruence. }
  rewrite E2, bind_ret. exists (truthy q). split; [ reflexivity | ]. split.
  - split.
    + intro T2. exists cs, q. auto.
    + intros (cs' & q' & _ & _ & E2' & T'). injection E2' as <-. exact T'.
  - intros _ Client_new Client_connect Client_query Client_end config
           startTime endTime.
    destruct (get_optional_timeout_returns config) as [t Et].
    destruct (log_shapes Client_new Client_connect Client_query Client_end
                config input startTime endTime)
      as [ [_ No] | (cs' & t' & E1' & _ & Shape) ].
    { destruct (No cs t). split; [ exact E1 | exact Et ]. }
    cbv zeta in Shape. exists cs'.
    destruct Shape as [ [L _] | [_ [ [L _] | [_ (q' & p' & _ & _ & L)] ] ] ];
      rewrite L; eexists; eexists; (split; [ congruence | reflexivity ]).
Qed.

End PostgreSQLFacts.

(* ===================================================================== *)
(** * More on the MongoDB node *)
(* ===================================================================== *)

Module MongoDBFacts.

Import MongoDBValidation SemFacts.
Local Open Scope list_scope.

Lemma is_case_string (operation : value) (label : string) :
  is_case operation label = true <-> operation = Data (DStr label).
Proof.
  unfold is_case. split.
  - destruct operation as [[ | | | | s | | ] | b]; simpl; try discriminate.
    intro E. apply String.eqb_eq in E. now subst.
  - intros ->. simpl. apply String.eqb_refl.
Qed.

Lemma present_value (input : json) (name : string) (v : value) :
  get input name = Ret v -> present input name = Ret (truthy v).
Proof. intro G. unfold present. now rewrite G. Qed.

Lemma missing_value (input : json) (name : string) (v : value) :
  get input name = Ret v -> missing input name = Ret (negb (truthy v)).
Proof. intro G. unfold missing. now rewrite G. Qed.

Lemma present_nonempty_array_value (input : json) (name : string) (v : value) :
  get input name = Ret v ->
  exists b,
    present_nonempty_array input name = Ret b /\
    (b = true <-> exists x rest, v = Data (DArr (x :: rest))).
Proof.
  intro G. unfold present_nonempty_array, and_lazy, present. rewrite G, !bind_ret.
  destruct (truthy v) eqn:T.
  2: { exists false. split; [ reflexivity | ]. split; [ discriminate | ].
       intros (x & rest & ->). discriminate. }
  destruct v as [[ | | | | | items | ] | b];
    try (exists false; split; [ reflexivity | ]; split; [ discriminate | ];
         intros (x & rest & E); discriminate).
  cbn [isArray].
  destruct items as [ | x rest].
  - exists false. split; [ reflexivity | ]. split; [ discriminate | ].
    intros (x & rest & E). discriminate.
  - exists true. split; [ | split; eauto ].
    change (get (Data (DArr (x :: rest))) "length")
      with (Ret (A := value) (Data (DNum (Z.of_nat (List.length (x :: rest)))))).
    rewrite bind_ret.
    unfold js_gt. cbn [to_primitive bind is_less_than to_number bool_of_comparison].
    reflexivity.
Qed.

(** The value of [validate] once the fields have been read. *)

Lemma validate_value (input : json) (cs db coll o d u : value) (bd bp : bool) :
  get input "connectionString" = Ret cs ->
  get input "database" = Ret db ->
  get input "collection" = Ret coll ->
  get input "operation" = Ret o ->
  get input "document" = Ret d ->
  get input "update" = Ret u ->
  present_nonempty_array input "document" = Ret bd ->
  present_nonempty_array input "pipeline" = Ret bp ->
  validate input =
  Ret (truthy cs && truthy db && truthy coll && truthy o &&
       (if is_case o "insertOne" then truthy d && negb (isArray d)
        else if is_case o "insertMany" then bd
        else if is_case o "updateOne" || is_case o "updateMany" then truthy u
        else if is_case o "aggregate" then bp
        else is_case o "find" || is_case o "findOne" ||
             is_case o "deleteOne" || is_case o "deleteMany")).
Proof.
  intros Ecs Edb Ecoll Eo Ed Eu Bd Bp. unfold validate.
  rewrite (get_returns_validates _ _ _ Ecs). cbn [negb].
  rewrite Bd, Bp, (present_value _ _ _ Eu).
  unfold or_lazy, and_lazy.
  rewrite (missing_value _ _ _ Ecs), (missing_value _ _ _ Edb),
    (missing_value _ _ _ Ecoll), (missing_value _ _ _ Eo),
    (present_value _ _ _ Ed), Ed, Eo, !bind_ret.
  destruct (truthy cs); cbn [negb andb]; [ | reflexivity ].
  destruct (truthy db); cbn [negb andb]; [ | reflexivity ].
  destruct (truthy coll); cbn [negb andb]; [ | reflexivity ].
  rewrite bind_ret.
  destruct (truthy o); cbn [negb andb]; [ | reflexivity ].
  destruct (is_case o "insertOne"); [ now destruct (truthy d) | ].
  destruct (is_case o "insertMany"); [ reflexivity | ].
  destruct (is_case o "updateOne" || is_case o "updateMany"); [ reflexivity | ].
  destruct (is_case o "aggregate"); [ reflexivity | ].
  now destruct (is_case o "find" || is_case o "findOne" ||
                is_case o "deleteOne" || is_case o "deleteMany").
Qed.

(** X25: [validate] of the MongoDB node never throws.  It accepts an
    input exactly when [connectionString], [database] and [collection] read
    as truthy values, [operation] is one of the nine operation names, and
    the field that the operation needs is there: a [document] that is not
    an array for [insertOne], a non-empty array for [insertMany], a truthy
    [update] for the two updates, a non-empty [pipeline] array for
    [aggregate], and nothing for the finds and deletes. *)

Theorem MongoDB_validate_is_exact :
  forall input : json,
    exists b,
      validate input = Ret b /\
      (b = true <->
       exists cs db coll op,
         get input "connectionString" = Ret cs /\ truthy cs = true /\
         get input "database" = Ret db /\ truthy db = true /\
         get input "collection" = Ret coll /\ truthy coll = true /\
         get input "operation" = Ret (Data (DStr op)) /\
         In op MongoOperation /\
         ((op = "insertOne" /\
           exists d, get input "document" = Ret d /\
                     truthy d = true /\ isArray d = false) \/
          (op = "insertMany" /\
           exists x rest, get input "document" = Ret (Data (DArr (x :: rest)))) \/
          ((op = "updateOne" \/ op = "updateMany") /\
           exists u, get input "update" = Ret u /\ truthy u = true) \/
          (op = "aggregate" /\
           exists x rest, get input "pipeline" = Ret (Data (DArr (x :: rest)))) \/
          (op = "find" \/ op = "findOne" \/ op = "deleteOne" \/ op = "deleteMany"))).
Proof.
  intro input.
  destruct (BaseNode.validate input) eqn:V.
  2: { exists false. unfold validate. rewrite V. split; [ reflexivity | ].
       split; [ discriminate | ].
       intros (cs & db & coll & op & E1 & _).
       rewrite (get_returns_validates _ _ _ E1) in V. discriminate. }
  destruct (FieldMapperMoreFacts.get_after_validate input "connectionString" V)
    as [cs Ecs].
  destruct (FieldMapperMoreFacts.get_after_validate input "database" V) as [db Edb].
  destruct (FieldMapperMoreFacts.get_after_validate input "collection" V)
    as [coll Ecoll].
  destruct (FieldMapperMoreFacts.get_after_validate input "operation" V) as [o Eo].
  destruct (FieldMapperMoreFacts.get_after_validate input "document" V) as [d Ed].
  destruct (FieldMapperMoreFacts.get_after_validate input "update" V) as [u Eu].
  destruct (FieldMapperMoreFacts.get_after_validate input "pipeline" V) as [p Ep].
  destruct (present_nonempty_array_value input "document" d Ed) as (bd & Bd & Hd).
  destruct (present_nonempty_array_value input "pipeline" p Ep) as (bp & Bp & Hp).
  (* the right-hand side, with the reads resolved *)
  match goal with
  | |- exists b, _ /\ (b = true <-> ?R) =>
      assert (Reads : R <->
                truthy cs = true /\ truthy db = true /\ truthy coll = true /\
                exists op, o = Data (DStr op) /\
                  ((op = "insertOne" /\ truthy d = true /\ isArray d = false) \/
                   (op = "insertMany" /\ bd = true) \/
                   ((op = "updateOne" \/ op = "updateMany") /\ truthy u = true) \/
                   (op = "aggregate" /\ bp = true) \/
                   (op = "find" \/ op = "findOne" \/
                    op = "deleteOne" \/ op = "deleteMany")))
  end.
  { split.
    - intros (cs' & db' & coll' & op & E1 & T1 & E2 & T2 & E3 & T3 & E4 & _ & D).
      rewrite Ecs in E1. injection E1 as <-.
      rewrite Edb in E2. injection E2 as <-.
      rewrite Ecoll in E3. injection E3 as <-.
      rewrite Eo in E4. injection E4 as ->.
      repeat (split; [ assumption | ]). exists op. split; [ reflexivity | ].
      destruct D as [ (Op & d' & E & T & A)
                    | [ (Op & x & rest & E)
                      | [ (Op & u' & E & T)
                        | [ (Op & x & rest & E) | Op ] ] ] ].
      + rewrite Ed in E. injection E as <-. left. auto.
      + rewrite Ed in E. injection E as ->. right; left.
        split; [ exact Op | ]. apply Hd. eauto.
      + rewrite Eu in E. injection E as <-. right; right; left. auto.
      + rewrite Ep in E. injection E as ->. right; right; right; left.
        split; [ exact Op | ]. apply Hp. eauto.
      + right; right; right; right. exact Op.
    - intros (T1 & T2 & T3 & op & -> & D).
      exists cs, db, coll, op.
      repeat (split; [ assumption | ]).
      split.
      { unfold MongoOperation.
        destruct D as [ (-> & _) | [ (-> & _) | [ ([-> | ->] & _)
                      | [ (-> & _) | [-> | [-> | [-> | ->] ] ] ] ] ] ];
          simpl; tauto. }
      destruct D as [ (Op & T & A) | [ (Op & B) | [ (Op & T)
                    | [ (Op & B) | Op ] ] ] ].
      + left. split; [ exact Op | ]. exists d. auto.
      + right; left. split; [ exact Op | ].
        destruct (proj1 Hd B) as (x & rest & ->). eauto.
      + right; right; left. split; [ exact Op | ]. exists u. auto.
      + right; right; right; left. split; [ exact Op | ].
        destruct (proj1 Hp B) as (x & rest & ->). eauto.
      + right; right; right; right. exact Op. }
  rewrite (validate_value input cs db coll o d u bd bp Ecs Edb Ecoll Eo Ed Eu Bd Bp).
  eexists. split; [ reflexivity | ]. rewrite Reads. clear Reads. split.
  - intro B.
    apply Bool.andb_true_iff in B. destruct B as [B Acc].
    apply Bool.andb_true_iff in B. destruct B as [B To].
    apply Bool.andb_true_iff in B. destruct B as [B Tcoll].
    apply Bool.andb_true_iff in B. destruct B as [Tcs Tdb].
    repeat (split; [ assumption | ]).
    destruct (is_case o "insertOne") eqn:C1.
    { apply is_case_string in C1. exists "insertOne". split; [ exact C1 | ].
      apply Bool.andb_true_iff in Acc. destruct Acc as [Td A].
      apply Bool.negb_true_iff in A. left. auto. }
    destruct (is_case o "insertMany") eqn:C2.
    { apply is_case_string in C2. exists "insertMany". split; [ exact C2 | ].
      right; left. auto. }
    destruct (is_case o "updateOne") eqn:C3.
    { apply is_case_string in C3. exists "updateOne". split; [ exact C3 | ].
      right; right; left. auto. }
    destruct (is_case o "updateMany") eqn:C4.
    { apply is_case_string in C4. exists "updateMany". split; [ exact C4 | ].
      right; right; left. auto. }
    cbn [orb] in Acc.
    destruct (is_case o "aggregate") eqn:C5.
    { apply is_case_string in C5. exists "aggregate". split; [ exact C5 | ].
      right; right; right; left. auto. }
    destruct (is_case o "find") eqn:C6.
    { apply is_case_string in C6. exists "find". split; [ exact C6 | ].
      right; right; right; right. auto. }
    destruct (is_case o "findOne") eqn:C7.
    { apply is_case_string in C7. exists "findOne". split; [ exact C7 | ].
      right; right; right; right. auto. }
    destruct (is_case o "deleteOne") eqn:C8.
    { apply is_case_string in C8. exists "deleteOne". split; [ exact C8 | ].
      right; right; right; right. auto. }
    destruct (is_case o "deleteMany") eqn:C9; [ | discriminate ].
    apply is_case_string in C9. exists "deleteMany". split; [ exact C9 | ].
    right; right; right; right. auto.
  - intros (Tcs & Tdb & Tcoll & op & -> & D). rewrite Tcs, Tdb, Tcoll.
    destruct D as [ (-> & Td & A) | [ (-> & B) | [ ([-> | ->] & Tu)
                  | [ (-> & B) | [-> | [-> | [-> | ->] ] ] ] ] ] ];
      try rewrite Td; try rewrite A; try rewrite B; try rewrite Tu; reflexivity.
Qed.

(** ** [execute] on an input that is not [null] *)

Lemma get_optional_setting_returns (v : value) (k : string) :
  In k [ "timeout"; "retries"; "defaultTimeout"; "defaultRetries" ] ->
  returns (get_optional v k).
Proof.
  intro K. destruct v as [d | b].
  - destruct d; try (eexists; reflexivity);
      apply FieldMapperMoreFacts.get_after_validate; reflexivity.
  - destruct K as [<- | [<- | [<- | [<- | []]]]];
      destruct b; eexists; vm_compute; reflexivity.
Qed.

Lemma get_setting_returns (config : value) (k : string) :
  BaseNode.validate config = true ->
  In k [ "timeout"; "retries"; "defaultTimeout"; "defaultRetries" ] ->
  returns (get config k).
Proof.
  intros V K. destruct (get_optional_setting_returns config k K) as [v E].
  exists v. destruct config as [[ | | | | | | ] | b]; try discriminate; exact E.
Qed.

Lemma option_or_default_truthy (config : value) (input : json)
    (name fallback : string) (dflt : Z) :
  BaseNode.validate input = true ->
  BaseNode.validate config = true ->
  In name [ "timeout"; "retries"; "defaultTimeout"; "defaultRetries" ] ->
  In fallback [ "timeout"; "retries"; "defaultTimeout"; "defaultRetries" ] ->
  dflt <> 0%Z ->
  exists v,
    MongoDBOperationsNode.option_or_default config input name fallback dflt = Ret v /\
    truthy v = true.
Proof.
  intros Vi Vc Kn Kf Nz. unfold MongoDBOperationsNode.option_or_default.
  destruct (FieldMapperMoreFacts.get_after_validate input "options" Vi)
    as [options Eo].
  rewrite Eo, bind_ret.
  destruct (get_optional_setting_returns options name Kn) as [o E].
  rewrite E, bind_ret.
  destruct (truthy o) eqn:T; [ eauto | ].
  destruct (get_setting_returns config fallback Vc Kf) as [c Ec].
  rewrite Ec, bind_ret. eexists. split; [ reflexivity | ].
  unfold or_else. destruct (truthy c) eqn:Tc; [ exact Tc | ].
  simpl. now apply Bool.negb_true_iff, Z.eqb_neq.
Qed.

(** X26: the envelope of the MongoDB node.  When the input is neither
    [null] nor [undefined] (as for every input that [validate] accepts) and
    the node has a configuration object, [execute] resolves to an envelope
    whatever the driver does.  The connection attempt is made with a
    timeout and a number of retries that are never falsy (a [0] asked for
    in [options] or in the configuration is replaced by the default); the
    envelope is a success with the records counted exactly when the attempt
    returns, and otherwise a failure that, unlike a PostgreSQL failure,
    carries no metrics.  What [client.close()] does has no influence. *)

Theorem MongoDB_execute_settles_on_present_input :
  forall (MongoDBOutput : Type)
         (attempt : json -> value -> value -> exc (MongoDBOutput * Z))
         (client_close : exc unit) (config : value) (input : json)
         (startTime endTime : Z),
    BaseNode.validate input = true ->
    BaseNode.validate config = true ->
    exists timeout retries,
      truthy timeout = true /\ truthy retries = true /\
      MongoDBOperationsNode.execute MongoDBOutput attempt client_close
        config input startTime endTime =
      Ret match attempt input timeout retries with
          | Ret r =>
              {| success := true;
                 data := Some (fst r);
                 error := None;
                 metrics := Some {| executionTime := endTime - startTime;
                                    recordsProcessed := snd r |} |}
          | Throw e =>
              {| success := false;
                 data := None;
                 error := Some (error_text "Unknown MongoDB error" e);
                 metrics := None |}
          end.
Proof.
  intros MongoDBOutput attempt client_close config input startTime endTime Vi Vc.
  destruct (option_or_default_truthy config input "timeout" "defaultTimeout" 30000
              Vi Vc) as (timeout & Et & Tt); [ simpl; tauto | simpl; tauto | lia | ].
  destruct (option_or_default_truthy config input "retries" "defaultRetries" 3
              Vi Vc) as (retries & Er & Tr); [ simpl; tauto | simpl; tauto | lia | ].
  exists timeout, retries. split; [ exact Tt | ]. split; [ exact Tr | ].
  unfold MongoDBOperationsNode.execute. rewrite Et, bind_ret, Er, bind_ret.
  unfold MongoDBOperationsNode.disconnect.
  destruct client_close as [ [] | e ]; cbn [try_catch finally];
    destruct (attempt input timeout retries) as [ r | e' ]; reflexivity.
Qed.

Lemma MongoDB_execute_settles_on_present_input_witness :
  exists timeout retries,
    truthy timeout = true /\ truthy retries = true /\
    MongoDBOperationsNode.execute unit
      (fun _ _ _ => Throw (Error "Failed to connect after 3 attempts: refused"))
      (Ret tt) (Data (DObj [])) (request "find" []) 0 1 =
    Ret match (fun (_ : json) (_ _ : value) =>
                 Throw (A := unit * Z)
                       (Error "Failed to connect after 3 attempts: refused"))
                (request "find" []) timeout retries with
        | Ret r =>
            {| success := true;
               data := Some (fst r);
               error := None;
               metrics := Some {| executionTime := 1 - 0;
                                  recordsProcessed := snd r |} |}
        | Throw e =>
            {| success := false;
               data := None;
               error := Some (error_text "Unknown MongoDB error" e);
               metrics := None |}
        end.
Proof.
  exact (MongoDB_execute_settles_on_present_input unit
           (fun _ _ _ => Throw (Error "Failed to connect after 3 attempts: refused"))
           (Ret tt) (Data (DObj [])) (request "find" []) 0%Z 1%Z eq_refl eq_refl).
Defined.

(** ** [connectWithRetry] *)

Section Connecting.

Import MongoDBConnection.

Variable MongoClient_new : Z -> value -> MongoClientOptions -> exc unit.
Variable client_connect : Z -> exc unit.
Variable config : value.
Variable connectionString : value.

(** An attempt ends the same way whatever the node has done before, and it
    does not sleep. *)

Lemma try_connect_outcome (attempt : Z) (st : node_state) :
  snd (try_connect MongoClient_new client_connect config connectionString
         attempt st) =
  outcome MongoClient_new client_connect config connectionString attempt /\
  slept (fst (try_connect MongoClient_new client_connect config connectionString
                attempt st)) =
  slept st.
Proof.
  unfold MongoDBConnection.outcome, MongoDBConnection.try_connect.
  destruct (options <- client_options config ;;
            MongoClient_new attempt connectionString options)%exc as [ [] | e ];
    split; reflexivity.
Qed.

Lemma try_connect_returns (attempt : Z) (st : node_state) :
  outcome MongoClient_new client_connect config connectionString attempt = Ret tt ->
  try_connect MongoClient_new client_connect config connectionString attempt st =
  ({| client := Some attempt; slept := slept st |}, Ret tt).
Proof.
  unfold MongoDBConnection.outcome, MongoDBConnection.try_connect.
  destruct (options <- client_options config ;;
            MongoClient_new attempt connectionString options)%exc as [ [] | e ];
    cbn [snd]; [ | discriminate ].
  now intros ->.
Qed.

Lemma delays_from_S (a : Z) (m : nat) :
  delays_from a (S m) = (2 ^ (a - 1) * 1000)%Z :: delays_from (a + 1) m.
Proof.
  unfold delays_from. cbn [seq List.map].
  rewrite <- seq_shift, List.map_map.
  replace (a - 1 + Z.of_nat 0)%Z with (a - 1)%Z by lia.
  f_equal. apply List.map_ext. intro i. f_equal; f_equal; lia.
Qed.

Lemma delays_from_1 (m : nat) : delays_from 1 m = backoff m.
Proof.
  unfold delays_from, backoff. apply List.map_ext.
  intro i. f_equal; f_equal; lia.
Qed.

Lemma total_backoff (n : nat) :
  total (backoff n) = (1000 * (2 ^ Z.of_nat n - 1))%Z.
Proof.
  unfold total, backoff. induction n as [ | n IH]; [ reflexivity | ].
  rewrite seq_S, List.map_app, fold_right_app. cbn [List.map fold_right Nat.add].
  rewrite Nat2Z.inj_succ, Z.pow_succ_r by lia.
  assert (G : forall (l : list Z) (z : Z),
             fold_right Z.add z l = (fold_right Z.add 0 l + z)%Z).
  { induction l as [ | x l IHl]; intro z; cbn [fold_right]; [ lia | ].
    rewrite IHl. lia. }
  rewrite G, IH. lia.
Qed.

(** Failed attempts that are not the last one: each is followed by its
    delay, and the loop goes on. *)

Lemma skip_failures (retries : Z) (m : nat) :
  forall (a : Z) (lastError : option string) (st : node_state) (fuel : nat),
    (a + Z.of_nat m <= retries)%Z ->
    (forall i, (a <= i < a + Z.of_nat m)%Z ->
       exists e, outcome MongoClient_new client_connect config connectionString i =
                 Throw e) ->
    exists c le,
      retry_loop MongoClient_new client_connect config connectionString
        (m + fuel) retries a lastError st =
      retry_loop MongoClient_new client_connect config connectionString
        fuel retries (a + Z.of_nat m)%Z le
        {| client := c; slept := slept st ++ delays_from a m |}.
Proof.
  induction m as [ | m IH]; intros a lastError st fuel Le Fails.
  - exists (client st), lastError. cbn [Nat.add Z.of_nat].
    rewrite Z.add_0_r. unfold delays_from. cbn [seq List.map].
    rewrite app_nil_r. now destruct st.
  - cbn [Nat.add MongoDBConnection.retry_loop].
    replace (a <=? retries)%Z with true by (symmetry; apply Z.leb_le; lia).
    destruct (Fails a ltac:(lia)) as [e Ea].
    destruct (try_connect_outcome a st) as [O Sl].
    destruct (try_connect MongoClient_new client_connect config connectionString a st)
      as [st' out].
    cbn [fst snd] in O, Sl.
    rewrite O, Ea.
    replace (a <? retries)%Z with true by (symmetry; apply Z.ltb_lt; lia).
    destruct (IH (a + 1)%Z (Some (error_text "Connection failed" e))
                 {| client := client st';
                    slept := slept st' ++ [ (2 ^ (a - 1) * 1000)%Z ] |} fuel)
      as (c & le & E).
    + lia.
    + intros i Hi. apply Fails. lia.
    + exists c, le. rewrite E. cbn [slept]. rewrite Sl, delays_from_S, <- app_assoc.
      replace (a + Z.of_nat (S m))%Z with (a + 1 + Z.of_nat m)%Z by lia.
      reflexivity.
Qed.

End Connecting.

(** X27: when no attempt connects.  With [retries] at least 1 and every
    attempt failing, [connectWithRetry] makes its attempts, waits
    [1000], [2000], [4000], ... ms between them ([retries - 1] delays,
    [1000 * (2 ^ (retries - 1) - 1)] ms in all, none after the last
    attempt) and throws ["Failed to connect after <retries> attempts: "]
    followed by the message of the last failure.  With [retries] at most 0
    it makes no attempt and throws at once, the message ending in
    ["undefined"]. *)

Theorem connectWithRetry_gives_up_after_backoff :
  forall (MongoClient_new : Z -> value -> MongoDBConnection.MongoClientOptions -> exc unit)
         (client_connect : Z -> exc unit) (config connectionString : value)
         (retries : Z) (st : MongoDBConnection.node_state),
    ((retries <= 0)%Z ->
     MongoDBConnection.connectWithRetry MongoClient_new client_connect
       config connectionString retries st =
     Some (st, Throw (Error (MongoDBConnection.failure_message retries None)))) /\
    ((1 <= retries)%Z ->
     (forall n, (1 <= n <= retries)%Z ->
        exists e, MongoDBConnection.outcome MongoClient_new client_connect
                    config connectionString n = Throw e) ->
     forall e,
       MongoDBConnection.outcome MongoClient_new client_connect
         config connectionString retries = Throw e ->
       exists c,
         MongoDBConnection.connectWithRetry MongoClient_new client_connect
           config connectionString retries st =
         Some ({| MongoDBConnection.client := c;
                  MongoDBConnection.slept :=
                    MongoDBConnection.slept st ++
                    MongoDBConnection.backoff (Z.to_nat (retries - 1)) |},
               Throw (Error (MongoDBConnection.failure_message retries
                               (Some (error_text "Connection failed" e))))) /\
         MongoDBConnection.total (MongoDBConnection.backoff (Z.to_nat (retries - 1))) =
           (1000 * (2 ^ (retries - 1) - 1))%Z).
Proof.
  intros MongoClient_new client_connect config connectionString retries st. split.
  - intro Le. unfold MongoDBConnection.connectWithRetry.
    cbn [MongoDBConnection.retry_loop].
    replace (1 <=? retries)%Z with false by (symmetry; apply Z.leb_gt; lia).
    reflexivity.
  - intros Ge Fails e Last. unfold MongoDBConnection.connectWithRetry.
    replace (S (Z.to_nat retries)) with (Z.to_nat (retries - 1) + 2)%nat by lia.
    destruct (skip_failures MongoClient_new client_connect config connectionString
                retries (Z.to_nat (retries - 1)) 1%Z None st 2)
      as (c & le & E).
    + lia.
    + intros i Hi. apply Fails. lia.
    + rewrite E. replace (1 + Z.of_nat (Z.to_nat (retries - 1)))%Z with retries by lia.
      cbn [MongoDBConnection.retry_loop].
      rewrite Z.leb_refl, Z.ltb_irrefl.
      match goal with
      | |- context [MongoDBConnection.try_connect _ _ _ _ retries ?s] =>
          destruct (try_connect_outcome MongoClient_new client_connect config
                      connectionString retries s) as [O Sl];
          destruct (MongoDBConnection.try_connect MongoClient_new client_connect
                      config connectionString retries s) as [st' out]
      end.
      cbn [fst snd] in O, Sl. rewrite O, Last.
      replace (retries + 1 <=? retries)%Z with false by (symmetry; apply Z.leb_gt; lia).
      exists (MongoDBConnection.client st'). split.
      * cbn [MongoDBConnection.slept] in Sl. rewrite <- delays_from_1, <- Sl.
        now destruct st'.
      * rewrite total_backoff. rewrite Z2Nat.id by lia. reflexivity.
Qed.

Lemma connectWithRetry_gives_up_after_backoff_witness :
  exists c,
    MongoDBConnection.connectWithRetry MongoDBConnection.any_client
      (MongoDBConnection.refuses_first 3) (Data (DObj [])) (Data (DStr "mongodb://db"))
      3 MongoDBConnection.idle =
    Some ({| MongoDBConnection.client := c;
             MongoDBConnection.slept :=
               MongoDBConnection.slept MongoDBConnection.idle ++
               MongoDBConnection.backoff (Z.to_nat (3 - 1)) |},
          Throw (Error (MongoDBConnection.failure_message 3
                          (Some (error_text "Connection failed"
                                   (Error "connection refused")))))) /\
    MongoDBConnection.total (MongoDBConnection.backoff (Z.to_nat (3 - 1))) =
      (1000 * (2 ^ (3 - 1) - 1))%Z.
Proof.
  apply (proj2 (connectWithRetry_gives_up_after_backoff MongoDBConnection.any_client
                  (MongoDBConnection.refuses_first 3) (Data (DObj []))
                  (Data (DStr "mongodb://db")) 3%Z MongoDBConnection.idle)).
  - lia.
  - intros n Hn. exists (Error "connection refused").
    unfold MongoDBConnection.outcome, MongoDBConnection.try_connect,
      MongoDBConnection.refuses_first.
    cbn [MongoDBConnection.any_client snd bind]. cbn.
    replace (n <=? 3)%Z with true by (symmetry; apply Z.leb_le; lia). reflexivity.
  - reflexivity.
Defined.

(** X28: when attempt [k] is the first to connect, [k] being at most
    [retries]: [connectWithRetry] returns, the node holds the client of
    attempt [k], it has waited the first [k - 1] delays of the backoff and
    nothing more, and no later attempt is made. *)

Theorem connectWithRetry_stops_at_first_success :
  forall (MongoClient_new : Z -> value -> MongoDBConnection.MongoClientOptions -> exc unit)
         (client_connect : Z -> exc unit) (config connectionString : value)
         (retries k : Z) (st : MongoDBConnection.node_state),
    (1 <= k <= retries)%Z ->
    (forall n, (1 <= n < k)%Z ->
       exists e, MongoDBConnection.outcome MongoClient_new client_connect
                   config connectionString n = Throw e) ->
    MongoDBConnection.outcome MongoClient_new client_connect
      config connectionString k = Ret tt ->
    MongoDBConnection.connectWithRetry MongoClient_new client_connect
      config connectionString retries st =
    Some ({| MongoDBConnection.client := Some k;
             MongoDBConnection.slept :=
               MongoDBConnection.slept st ++
               MongoDBConnection.backoff (Z.to_nat (k - 1)) |},
          Ret tt).
Proof.
  intros MongoClient_new client_connect config connectionString retries k st
         Hk Fails Ok.
  unfold MongoDBConnection.connectWithRetry.
  replace (S (Z.to_nat retries))
    with (Z.to_nat (k - 1) + S (Z.to_nat retries - Z.to_nat (k - 1)))%nat by lia.
  destruct (skip_failures MongoClient_new client_connect config connectionString
              retries (Z.to_nat (k - 1)) 1%Z None st
              (S (Z.to_nat retries - Z.to_nat (k - 1))))
    as (c & le & E).
  - lia.
  - intros i Hi. apply Fails. lia.
  - rewrite E. replace (1 + Z.of_nat (Z.to_nat (k - 1)))%Z with k by lia.
    cbn [MongoDBConnection.retry_loop].
    replace (k <=? retries)%Z with true by (symmetry; apply Z.leb_le; lia).
    rewrite (try_connect_returns _ _ _ _ _ _ Ok). cbn [MongoDBConnection.slept].
    now rewrite delays_from_1.
Qed.

Lemma connectWithRetry_stops_at_first_success_witness :
  MongoDBConnection.connectWithRetry MongoDBConnection.any_client
    (MongoDBConnection.refuses_first 2) (Data (DObj [])) (Data (DStr "mongodb://db"))
    5 MongoDBConnection.idle =
  Some ({| MongoDBConnection.client := Some 3%Z;
           MongoDBConnection.slept :=
             MongoDBConnection.slept MongoDBConnection.idle ++
             MongoDBConnection.backoff (Z.to_nat (3 - 1)) |},
        Ret tt).
Proof.
  apply (connectWithRetry_stops_at_first_success MongoDBConnection.any_client
           (MongoDBConnection.refuses_first 2) (Data (DObj []))
           (Data (DStr "mongodb://db")) 5%Z 3%Z MongoDBConnection.idle).
  - lia.
  - intros n Hn. exists (Error "connection refused").
    unfold MongoDBConnection.outcome, MongoDBConnection.try_connect,
      MongoDBConnection.refuses_first.
    cbn [MongoDBConnection.any_client snd bind]. cbn.
    replace (n <=? 2)%Z with true by (symmetry; apply Z.leb_le; lia). reflexivity.
  - reflexivity.
Defined.

(** ** [processObjectIds] *)

Section ObjectIds.

Import MongoDBObjectIds.

Lemma assoc_filter_other {A : Type} (k k' : string) (l : list (string * A)) :
  String.eqb k k' = false ->
  assoc k (List.filter (fun p => negb (String.eqb (fst p) k')) l) = assoc k l.
Proof.
  intro Ne. induction l as [ | [k0 v0] rest IH]; [ reflexivity | ].
  cbn [List.filter fst]. destruct (String.eqb k0 k') eqn:E0; cbn [negb assoc].
  - apply String.eqb_eq in E0. subst k0. now rewrite Ne.
  - now rewrite IH.
Qed.

Lemma assoc_entries {A : Type} (k : string) (l : list (string * A)) :
  assoc k (entries l) = assoc k l.
Proof.
  induction l as [ | [k' v'] rest IH]; [ reflexivity | ].
  cbn [entries assoc]. destruct (String.eqb k k') eqn:E; [ reflexivity | ].
  now rewrite assoc_filter_other.
Qed.

Lemma keys_filter_subset {A : Type} (f : string * A -> bool) (l : list (string * A))
    (k : string) :
  In k (List.map fst (List.filter f l)) -> In k (List.map fst l).
Proof.
  rewrite !in_map_iff. intros ([k0 v0] & E & I).
  apply filter_In in I. exists (k0, v0). tauto.
Qed.

Lemma NoDup_keys_filter {A : Type} (f : string * A -> bool) (l : list (string * A)) :
  NoDup (List.map fst l) -> NoDup (List.map fst (List.filter f l)).
Proof.
  induction l as [ | [k v] rest IH]; intro N; [ constructor | ].
  cbn [List.map fst] in N. inversion N as [ | ? ? Nin N' ]; subst.
  cbn [List.filter]. destruct (f (k, v)); [ | now apply IH ].
  cbn [List.map fst]. constructor; [ | now apply IH ].
  intro I. apply Nin. eapply keys_filter_subset. exact I.
Qed.

Lemma entries_NoDup {A : Type} (l : list (string * A)) :
  NoDup (List.map fst (entries l)).
Proof.
  induction l as [ | [k v] rest IH]; [ constructor | ].
  cbn [entries List.map fst]. constructor; [ | now apply NoDup_keys_filter ].
  rewrite in_map_iff. intros ([k0 v0] & E & I). cbn [fst] in E. subst k0.
  apply filter_In in I. destruct I as [_ I]. cbn [fst] in I.
  now rewrite String.eqb_refl in I.
Qed.

Lemma assoc_not_in {A : Type} (k : string) (l : list (string * A)) :
  ~ In k (List.map fst l) -> assoc k l = None.
Proof.
  induction l as [ | [k' v'] rest IH]; intro Nin; [ reflexivity | ].
  cbn [assoc]. cbn [List.map fst In] in Nin.
  destruct (String.eqb k k') eqn:E.
  - apply String.eqb_eq in E. subst. tauto.
  - apply IH. tauto.
Qed.

Lemma assoc_set_property {A : Type} (t k : string) (v : A) (l : list (string * A)) :
  assoc t (set_property k v l) =
  if String.eqb t k then Some v else assoc t l.
Proof.
  induction l as [ | [k' v'] rest IH]; cbn [set_property assoc].
  - reflexivity.
  - destruct (String.eqb k k') eqn:E; cbn [assoc].
    + apply String.eqb_eq in E. subst k'. now destruct (String.eqb t k).
    + rewrite IH. destruct (String.eqb t k') eqn:E'; [ | reflexivity ].
      apply String.eqb_eq in E'. subst k'.
      now rewrite String.eqb_sym, E.
Qed.

(** The loop, from any object under construction on which the setter of
    [__proto__] still works or is not needed. *)

Lemma fold_assign_lookup (es : list (string * processed)) :
  forall o : building,
    NoDup (List.map fst es) ->
    ~ In "__proto__" (List.map fst es) \/
    (has_own "__proto__" (own o) = false /\
     inherits_proto_accessor (proto o) = true) ->
    forall k, String.eqb k "__proto__" = false ->
      assoc k (own (fold_left (fun o kv => assign o (fst kv) (snd kv)) es o)) =
      match assoc k es with
      | Some v => Some v
      | None => assoc k (own o)
      end.
Proof.
  induction es as [ | [k1 v1] rest IH]; intros o N Setter k Hk; [ reflexivity | ].
  cbn [List.map fst] in N. inversion N as [ | ? ? Nin N' ]; subst.
  cbn [fold_left fst snd assoc].
  destruct (String.eqb k1 "__proto__") eqn:E1.
  - apply String.eqb_eq in E1. subst k1.
    destruct Setter as [Nin' | [Own Inh] ]; [ destruct Nin'; now left | ].
    rewrite IH; [ | exact N' | now left | exact Hk ].
    rewrite Hk. unfold assign. rewrite Own, Inh, String.eqb_refl.
    cbn [andb negb].
    now destruct (is_object_or_null v1).
  - rewrite IH; [ | exact N' | | exact Hk ].
    + unfold assign. rewrite E1. cbn [andb own].
      rewrite assoc_set_property.
      destruct (String.eqb k k1) eqn:E.
      * apply String.eqb_eq in E. subst k1.
        now rewrite (assoc_not_in k rest Nin).
      * reflexivity.
    + destruct Setter as [Nin' | [Own Inh] ].
      * left. intro I. apply Nin'. now right.
      * right. unfold assign. rewrite E1. cbn [andb own proto].
        split; [ | exact Inh ].
        unfold has_own in *. rewrite assoc_set_property.
        rewrite String.eqb_sym, E1. exact Own.
Qed.

Lemma assoc_map_values {A B : Type} (f : string -> A -> B) (k : string)
    (l : list (string * A)) :
  assoc k (List.map (fun kv => match kv with (key, v) => (key, f key v) end) l) =
  option_map (f k) (assoc k l).
Proof.
  induction l as [ | [k' v'] rest IH]; [ reflexivity | ].
  cbn [List.map assoc]. destruct (String.eqb k k') eqn:E; [ | exact IH ].
  apply String.eqb_eq in E. now subst.
Qed.

End ObjectIds.

Lemma property_of_processed (isValid : string -> bool)
    (props : list (string * MongoDBObjectIds.document)) (k : string) :
  k <> "__proto__" ->
  MongoDBObjectIds.property k
    (MongoDBObjectIds.processObjectIds isValid (MongoDBObjectIds.VObj props)) =
  option_map
    (MongoDBObjectIds.stored isValid (MongoDBObjectIds.processObjectIds isValid) k)
    (assoc k props).
Proof.
  intros Hk. apply String.eqb_neq in Hk.
  cbn [MongoDBObjectIds.processObjectIds MongoDBObjectIds.property].
  unfold MongoDBObjectIds.fill.
  rewrite fold_assign_lookup;
    [ | apply entries_NoDup | right; split; reflexivity | exact Hk ].
  rewrite assoc_entries, assoc_map_values.
  destruct (assoc k props) as [v | ]; reflexivity.
Qed.

(** X29: what [processObjectIds] stores, property by property.  For an
    object and a key other than [__proto__], the result has the property
    exactly when the object has it.  Under [_id] or a key that ends in
    [Id], a string that [ObjectId.isValid] accepts becomes an ObjectId and
    every other value is stored as it is, objects, arrays and instances of
    classes included: nothing below such a key is looked into.  Under any
    other key an object, an array or an instance is processed in turn and a
    primitive is stored as it is. *)

Theorem processObjectIds_property_by_property :
  forall (isValid : string -> bool)
         (props : list (string * MongoDBObjectIds.document)) (k : string),
    k <> "__proto__" ->
    MongoDBObjectIds.property k
      (MongoDBObjectIds.processObjectIds isValid (MongoDBObjectIds.VObj props)) =
    match assoc k props with
    | None => None
    | Some v =>
        Some (if MongoDBObjectIds.is_id_key k then
                match v with
                | MongoDBObjectIds.VStr s =>
                    if isValid s then MongoDBObjectIds.ObjectId s
                    else MongoDBObjectIds.Same v
                | _ => MongoDBObjectIds.Same v
                end
              else
                match v with
                | MongoDBObjectIds.VArr _
                | MongoDBObjectIds.VObj _
                | MongoDBObjectIds.VInstance _ _ =>
                    MongoDBObjectIds.processObjectIds isValid v
                | _ => MongoDBObjectIds.Same v
                end)
    end.
Proof.
  intros isValid props k Hk. rewrite (property_of_processed isValid props k Hk).
  destruct (assoc k props) as [v | ]; reflexivity.
Qed.

Lemma processObjectIds_property_by_property_witness :
  MongoDBObjectIds.property "_id"
    (MongoDBObjectIds.processObjectIds MongoDBObjectIds.has_24_characters
       (MongoDBObjectIds.of_json
          (DObj [ ("_id", DObj [ ("$in", DArr [ DStr MongoDBObjectIds.sample_id ]) ]) ]))) =
  Some (MongoDBObjectIds.Same
          (MongoDBObjectIds.of_json
             (DObj [ ("$in", DArr [ DStr MongoDBObjectIds.sample_id ]) ]))).
Proof.
  apply (processObjectIds_property_by_property MongoDBObjectIds.has_24_characters
           [ ("_id", MongoDBObjectIds.of_json
                       (DObj [ ("$in", DArr [ DStr MongoDBObjectIds.sample_id ]) ])) ]
           "_id").
  discriminate.
Defined.

(** *** Plain data *)

Section PlainData.

Import MongoDBObjectIds.

(** Induction on values, with the hypothesis for every element of an
    array and for every property value of an object or an instance. *)

Lemma document_induction (P : document -> Prop) :
  P VUndefined -> P VNull -> (forall b, P (VBool b)) -> (forall n, P (VNum n)) ->
  (forall s, P (VStr s)) ->
  (forall items, Forall P items -> P (VArr items)) ->
  (forall props, Forall (fun kv => P (snd kv)) props -> P (VObj props)) ->
  (forall slot props, Forall (fun kv => P (snd kv)) props -> P (VInstance slot props)) ->
  forall d, P d.
Proof.
  intros U N B Z S A O I.
  fix IH 1. intros [ | | b | n | s | items | props | slot props ].
  - exact U.
  - exact N.
  - apply B.
  - apply Z.
  - apply S.
  - apply A. induction items as [ | x rest IHl]; constructor; [ apply IH | exact IHl ].
  - apply O. induction props as [ | [k v] rest IHl]; constructor;
      [ apply IH | exact IHl ].
  - apply I. induction props as [ | [k v] rest IHl]; constructor;
      [ apply IH | exact IHl ].
Qed.

Lemma distinct_NoDup (keys : list string) : distinct keys = true -> NoDup keys.
Proof.
  induction keys as [ | k rest IH]; intro D; [ constructor | ].
  cbn [distinct] in D. apply Bool.andb_true_iff in D. destruct D as [Fresh D].
  constructor; [ | now apply IH ].
  intro I. apply Bool.negb_true_iff in Fresh.
  assert (E : existsb (String.eqb k) rest = true).
  { apply existsb_exists. exists k. split; [ exact I | apply String.eqb_refl ]. }
  congruence.
Qed.

Lemma has_own_in_keys {A : Type} (k : string) (l : list (string * A)) :
  has_own k l = false -> ~ In k (List.map fst l).
Proof.
  unfold has_own. induction l as [ | [k' v'] rest IH]; intros H I; [ exact I | ].
  cbn [assoc] in H. cbn [List.map fst In] in I.
  destruct (String.eqb k k') eqn:E; [ discriminate | ].
  destruct I as [-> | I]; [ now rewrite String.eqb_refl in E | now apply IH ].
Qed.

Lemma filter_other_keys {A : Type} (k : string) (l : list (string * A)) :
  ~ In k (List.map fst l) ->
  List.filter (fun p => negb (String.eqb (fst p) k)) l = l.
Proof.
  induction l as [ | [k' v'] rest IH]; intro Nin; [ reflexivity | ].
  cbn [List.map fst In] in Nin. cbn [List.filter fst].
  destruct (String.eqb k' k) eqn:E.
  - apply String.eqb_eq in E. tauto.
  - cbn [negb]. rewrite IH; tauto.
Qed.

Lemma entries_of_distinct {A : Type} (l : list (string * A)) :
  NoDup (List.map fst l) -> entries l = l.
Proof.
  induction l as [ | [k v] rest IH]; intro N; [ reflexivity | ].
  cbn [List.map fst] in N. inversion N as [ | ? ? Nin N' ]; subst.
  cbn [entries]. rewrite (IH N'), filter_other_keys; [ reflexivity | exact Nin ].
Qed.

Lemma set_property_fresh {A : Type} (k : string) (v : A) (l : list (string * A)) :
  ~ In k (List.map fst l) -> set_property k v l = l ++ [ (k, v) ].
Proof.
  induction l as [ | [k' v'] rest IH]; intro Nin; [ reflexivity | ].
  cbn [List.map fst In] in Nin. cbn [set_property app].
  destruct (String.eqb k k') eqn:E.
  - apply String.eqb_eq in E. subst. tauto.
  - rewrite IH; tauto.
Qed.

Lemma fold_assign_fresh (l : list (string * processed)) :
  forall acc : list (string * processed),
    NoDup (List.map fst (acc ++ l)) ->
    ~ In "__proto__" (List.map fst l) ->
    fold_left (fun o kv => assign o (fst kv) (snd kv)) l
      {| own := acc; proto := None |} =
    {| own := acc ++ l; proto := None |}.
Proof.
  induction l as [ | [k v] rest IH]; intros acc N Np.
  - cbn [fold_left]. now rewrite app_nil_r.
  - cbn [fold_left fst snd]. cbn [List.map fst In] in Np.
    unfold assign at 2.
    replace (String.eqb k "__proto__") with false
      by (symmetry; apply String.eqb_neq; intro E; subst; tauto).
    cbn [andb own proto].
    rewrite set_property_fresh.
    + rewrite IH.
      * now rewrite <- app_assoc.
      * now rewrite <- app_assoc.
      * tauto.
    + rewrite List.map_app in N. cbn [List.map fst] in N.
      apply NoDup_remove_2 in N. intro I. apply N. apply in_or_app. now left.
Qed.

Lemma fill_plain (l : list (string * processed)) :
  NoDup (List.map fst l) -> ~ In "__proto__" (List.map fst l) ->
  fill l = {| own := l; proto := None |}.
Proof.
  intros N Np. unfold fill, empty.
  rewrite (entries_of_distinct l N). now apply fold_assign_fresh.
Qed.

Lemma keys_map_values {A B : Type} (f : string -> A -> B) (l : list (string * A)) :
  List.map fst (List.map (fun kv => match kv with (k, v) => (k, f k v) end) l) =
  List.map fst l.
Proof.
  rewrite List.map_map. apply List.map_ext. now intros [k v].
Qed.

(** On plain data the loop stores the computed values in order. *)

Lemma processObjectIds_plain_object (isValid : string -> bool)
    (props : list (string * document)) :
  distinct (List.map fst props) = true ->
  has_own "__proto__" props = false ->
  processObjectIds isValid (VObj props) =
  Object_ (List.map (fun kv => match kv with
                               | (key, v) =>
                                   (key, stored isValid (processObjectIds isValid) key v)
                               end) props) None.
Proof.
  intros D Np. cbn [processObjectIds].
  rewrite fill_plain; [ reflexivity | | ]; rewrite keys_map_values.
  - now apply distinct_NoDup.
  - now apply has_own_in_keys.
Qed.

Lemma stored_under_id_key (isValid : string -> bool) (recur : document -> processed)
    (k : string) (v : document) :
  is_id_key k = true ->
  erase (stored isValid recur k v) = v /\
  forall hex, In hex (ids (stored isValid recur k v)) -> isValid hex = true.
Proof.
  intro K. unfold stored. rewrite K.
  destruct v as [ | | b | n | s | items | props | slot props ];
    try (split; [ reflexivity | intros hex [] ]).
  destruct (isValid s) eqn:V; split; try reflexivity.
  - intros hex [<- | []]. exact V.
  - intros hex [].
Qed.

Lemma processObjectIds_plain (isValid : string -> bool) (obj : document) :
  plain obj = true ->
  erase (processObjectIds isValid obj) = obj /\
  forall hex, In hex (ids (processObjectIds isValid obj)) -> isValid hex = true.
Proof.
  induction obj as [ | | b | n | s | items IH | props IH | slot props IH ]
    using document_induction;
    intro Pl; try (split; [ reflexivity | intros hex [] ]).
  - cbn [plain] in Pl. cbn [processObjectIds erase ids]. split.
    + f_equal. rewrite List.map_map.
      induction items as [ | x rest IHl]; [ reflexivity | ].
      cbn [forallb] in Pl. apply Bool.andb_true_iff in Pl. destruct Pl as [Px Pr].
      inversion IH as [ | ? ? Hx Hr ]; subst. cbn [List.map].
      rewrite (proj1 (Hx Px)), (IHl Hr Pr). reflexivity.
    + intros hex I. apply in_flat_map in I. destruct I as (p & Ip & Ih).
      apply in_map_iff in Ip. destruct Ip as (x & <- & Ix).
      rewrite Forall_forall in IH. rewrite forallb_forall in Pl.
      exact (proj2 (IH x Ix (Pl x Ix)) hex Ih).
  - cbn [plain] in Pl.
    apply Bool.andb_true_iff in Pl. destruct Pl as [Pl Pv].
    apply Bool.andb_true_iff in Pl. destruct Pl as [D Np].
    apply Bool.negb_true_iff in Np.
    rewrite (processObjectIds_plain_object isValid props D Np).
    rewrite Forall_forall in IH. rewrite forallb_forall in Pv.
    assert (Each : forall k v, In (k, v) props ->
              erase (stored isValid (processObjectIds isValid) k v) = v /\
              forall hex,
                In hex (ids (stored isValid (processObjectIds isValid) k v)) ->
                isValid hex = true).
    { intros k v I. specialize (IH (k, v) I). specialize (Pv (k, v) I).
      cbn [fst snd] in IH, Pv.
      destruct (is_id_key k) eqn:K; [ now apply stored_under_id_key | ].
      cbn [orb] in Pv. specialize (IH Pv).
      unfold stored. rewrite K.
      destruct v as [ | | b | n | s | items | props' | slot props' ];
        try (split; [ reflexivity | intros hex [] ]); exact IH. }
    clear IH Pv D Np. cbn [erase ids]. split.
    + f_equal. rewrite List.map_map.
      induction props as [ | [k v] rest IHl]; [ reflexivity | ].
      cbn [List.map]. rewrite (proj1 (Each k v (or_introl eq_refl))).
      rewrite IHl; [ reflexivity | ].
      intros k' v' I. apply Each. now right.
    + intros hex I. rewrite app_nil_r in I.
      apply in_flat_map in I. destruct I as ([k q] & Ip & Ih).
      apply in_map_iff in Ip. destruct Ip as ([k' v] & E & Iv).
      injection E as -> <-. cbn [snd] in Ih.
      exact (proj2 (Each k v Iv) hex Ih).
  - discriminate.
Qed.

End PlainData.

(** X30: what [processObjectIds] changes.  On values made of
    primitives, arrays and objects in which no object has an own property
    [__proto__] (nor the same key twice), with anything at all under [_id]
    and the keys that end in [Id], the result read with each new ObjectId
    as the string it was made from is the value itself: same keys, same
    order, same values; and every ObjectId made comes from a string that
    [ObjectId.isValid] accepts.  An instance of a class is not left alone:
    anywhere but under such a key it is replaced by a plain object that
    receives its own enumerable properties, processed in turn, so that a
    Date or a RegExp becomes [{}]; the query of the example
    [findActiveUsers] reaches the driver with [createdAt: { $gte: {} }].
    Under [_id] or a key that ends in [Id] an instance is stored as it
    is. *)

Theorem processObjectIds_only_replaces_valid_ids :
  forall isValid : string -> bool,
    (forall obj : MongoDBObjectIds.document,
       MongoDBObjectIds.plain obj = true ->
       MongoDBObjectIds.erase (MongoDBObjectIds.processObjectIds isValid obj) = obj /\
       forall hex,
         In hex (MongoDBObjectIds.ids (MongoDBObjectIds.processObjectIds isValid obj)) ->
         isValid hex = true) /\
    (forall slot props,
       MongoDBObjectIds.processObjectIds isValid
         (MongoDBObjectIds.VInstance slot props) =
       MongoDBObjectIds.processObjectIds isValid (MongoDBObjectIds.VObj props)) /\
    (forall slot,
       MongoDBObjectIds.processObjectIds isValid (MongoDBObjectIds.VInstance slot []) =
       MongoDBObjectIds.Object_ [] None) /\
    (forall props k slot own,
       k <> "__proto__" ->
       assoc k props = Some (MongoDBObjectIds.VInstance slot own) ->
       MongoDBObjectIds.property k
         (MongoDBObjectIds.processObjectIds isValid (MongoDBObjectIds.VObj props)) =
       Some (if MongoDBObjectIds.is_id_key k
             then MongoDBObjectIds.Same (MongoDBObjectIds.VInstance slot own)
             else MongoDBObjectIds.processObjectIds isValid
                    (MongoDBObjectIds.VObj own))) /\
    MongoDBObjectIds.processObjectIds isValid MongoDBObjectIds.active_users_query =
    MongoDBObjectIds.Object_
      [ ("status", MongoDBObjectIds.Same (MongoDBObjectIds.VStr "active"));
        ("createdAt",
         MongoDBObjectIds.Object_
           [ ("$gte", MongoDBObjectIds.Object_ [] None) ] None) ]
      None.
Proof.
  intro isValid. split; [ | split; [ | split; [ | split ] ] ].
  - apply processObjectIds_plain.
  - reflexivity.
  - reflexivity.
  - intros props k slot own Hk E.
    rewrite (property_of_processed isValid props k Hk), E.
    cbn [option_map]. unfold MongoDBObjectIds.stored.
    now destruct (MongoDBObjectIds.is_id_key k).
  - reflexivity.
Qed.

Lemma processObjectIds_only_replaces_valid_ids_witness :
  MongoDBObjectIds.erase
    (MongoDBObjectIds.processObjectIds MongoDBObjectIds.has_24_characters
       (MongoDBObjectIds.VObj
          [ ("userId", MongoDBObjectIds.VStr MongoDBObjectIds.sample_id);
            ("tags",
             MongoDBObjectIds.VArr
               [ MongoDBObjectIds.VStr "a";
                 MongoDBObjectIds.VObj
                   [ ("_id",
                      MongoDBObjectIds.VInstance
                        (MongoDBObjectIds.ObjectIdValue MongoDBObjectIds.sample_id)
                        []) ] ]) ])) =
  MongoDBObjectIds.VObj
    [ ("userId", MongoDBObjectIds.VStr MongoDBObjectIds.sample_id);
      ("tags",
       MongoDBObjectIds.VArr
         [ MongoDBObjectIds.VStr "a";
           MongoDBObjectIds.VObj
             [ ("_id",
                MongoDBObjectIds.VInstance
                  (MongoDBObjectIds.ObjectIdValue MongoDBObjectIds.sample_id)
                  []) ] ]) ].
Proof.
  exact (proj1 (proj1 (processObjectIds_only_replaces_valid_ids
                         MongoDBObjectIds.has_24_characters)
                  (MongoDBObjectIds.VObj
                     [ ("userId", MongoDBObjectIds.VStr MongoDBObjectIds.sample_id);
                       ("tags",
                        MongoDBObjectIds.VArr
                          [ MongoDBObjectIds.VStr "a";
                            MongoDBObjectIds.VObj
                              [ ("_id",
                                 MongoDBObjectIds.VInstance
                                   (MongoDBObjectIds.ObjectIdValue
                                      MongoDBObjectIds.sample_id)
                                   []) ] ]) ])
                  eq_refl)).
Defined.

End MongoDBFacts.
